(** * dicom-loader-ts: attribute resolution, pixel pipeline and series sorting

    A shallow embedding of [src/parser.dicom.ts] (class [DicomParser]) and
    [src/preloader.ts], with the properties of the attribute resolver, the
    pixel locator, the color normalizer and the series sorter.

    Conventions of the embedding:
    - a JavaScript [number] produced by [parseFloat]/[parseInt] or by
      arithmetic is an IEEE-754 binary64 value, here a primitive [float];
    - integers read from binary fields ([uint16]), array lengths, indices and
      the elements of integer typed arrays are [Z] (or [nat]);
    - [null] and [undefined] are both [None];
    - an object with string keys ([DataSet.elements]) is a [gmap string _];
    - a thrown exception is [inl _] in [Result]; [console.log] output is the
      first component of [Exec];
    - what the code calls and does not define (the decoder, the readers of
      dicom-parser, [Array.prototype.sort] of the engine) is a [Variable] of
      a [Section]: a theorem holds for every one of them, or for those that
      meet the condition it states. *)

From Stdlib Require Import ZArith QArith Floats.
From stdpp Require Import gmap strings list sorting.

Set Warnings "-inexact-float,-register-all".

Open Scope Z_scope.

(** ** JavaScript values *)

(** [ToBoolean]: the empty string, [0], [-0] and [NaN] are falsy; objects are
    truthy. [null]/[undefined] ([None]) are falsy. *)
Class Truthy (A : Type) := truthy : A → bool.

#[global] Instance string_truthy : Truthy string :=
  λ s, match s with EmptyString => false | String _ _ => true end.

#[global] Instance number_truthy : Truthy float :=
  λ x, negb (PrimFloat.is_zero x || PrimFloat.is_nan x).

Definition toBoolean {A} `{Truthy A} (o : option A) : bool :=
  match o with
  | Some a => truthy a
  | None => false
  end.

(** [a || b] on possibly-null values. *)
Definition jsOr {A} `{Truthy A} (a b : option A) : option A :=
  if toBoolean a then a else b.

(** The number of an integer: correctly rounded, exact below 2^53. *)
Definition Z2number (z : Z) : float :=
  SF2Prim (binary_normalize prec emax z 0 false).

(** Truncation of a number toward zero ([NaN] and the infinities give 0), the
    first step of [ToInt8], [ToUint8], [ToInt16], [ToUint16]. *)
Definition truncate (x : float) : Z :=
  match Prim2SF x with
  | S754_finite s m e =>
      let magnitude := Z.shiftl (Z.pos m) e in
      if s then - magnitude else magnitude
  | _ => 0
  end.

(** [a !== b] for [number | undefined]. *)
Definition strictNotEqual (a b : option float) : bool :=
  match a, b with
  | None, None => false
  | Some x, Some y => negb (PrimFloat.eqb x y)
  | _, _ => true
  end.

(** ** Exceptions and console output *)

Inductive Error : Type :=
| TypeError                       (* a property read on undefined *)
| RangeError                      (* a typed-array view out of bounds *)
| UnsupportedTypedArray           (* 'Unsupported typed array: ...' *)
| UnsuportedTypedArray            (* 'unsuported typed array: ...' *)
| PhotometricNotSupported (photometricInterpretation : option string)
                          (* 'photometric interpolation not supported: ...' *)
| ExternalError (message : string).   (* thrown by a collaborator *)

Definition Result (A : Type) : Type := Error + A.

Definition Exec (A : Type) : Type := list string * Result A.

Definition ret {A} (a : A) : Exec A := ([], inr a).
Definition throw {A} (e : Error) : Exec A := ([], inl e).
Definition consoleLog (msg : string) : Exec unit := ([msg], inr tt).
Definition lift {A} (r : Result A) : Exec A := ([], r).

Definition bind {A B} (m : Exec A) (k : A → Exec B) : Exec B :=
  match m with
  | (out, inl e) => (out, inl e)
  | (out, inr a) => let '(out', r) := k a in (out ++ out', r)
  end.

Declare Scope exec_scope.
Delimit Scope exec_scope with exec.
Notation "'let*' x ':=' m 'in' k" := (bind m (λ x, k))
  (at level 10, x name, m at level 100, k at level 200) : exec_scope.

Definition console {A} (m : Exec A) : list string := fst m.
Definition outcome {A} (m : Exec A) : Result A := snd m.

(** ** The parsed data set (dicom-parser's [DataSet] and [Element])

    The typed readers [string(tag)], [floatString(tag)], [intString(tag)] and
    [uint16(tag)] are the tables of what they return; a tag that is not in a
    table reads as [undefined]. The contract of [string] is
    [string | undefined]: the empty string is one of its values. [length] of
    an element is [dataLength]. *)

Record Fragment : Type := MkFragment {
  offset : Z;
  position : Z;
  fragmentLength : Z }.

Inductive DataSet : Type := MkDataSet {
  byteArray : list Z;
  string_ : gmap string string;
  floatString : gmap string float;
  intString : gmap string float;
  uint16 : gmap string Z;
  elements : gmap string Element }
with Element : Type := MkElement {
  dataOffset : Z;
  dataLength : Z;
  items : option (list Element);
  dataSet : option DataSet;
  fragments : option (list Fragment);
  basicOffsetTable : option (list Z) }.

(** [array[index]] for an integer index: [undefined] out of range. *)
Definition at_index {A} (l : list A) (index : Z) : option A :=
  if index <? 0 then None else l !! Z.to_nat index.

(** ** Attribute resolver *)

Definition _findInGroupSequence (ds : DataSet) (sequence subsequence : string)
    (index : Z) : option DataSet :=
  functionalGroupSequence ← elements ds !! sequence;
  groupItems ← items functionalGroupSequence;
  frameDataSet ← at_index groupItems index ≫= dataSet;
  inSequence ← elements frameDataSet !! subsequence;
  inItems ← items inSequence;
  at_index inItems 0 ≫= dataSet.

Definition _findStringInGroupSequence (ds : DataSet)
    (sequence subsequence tag : string) (index : Z) : option string :=
  d ← _findInGroupSequence ds sequence subsequence index;
  string_ d !! tag.

Definition _findStringInFrameGroupSequence (ds : DataSet)
    (subsequence tag : string) (index : Z) : option string :=
  jsOr (_findStringInGroupSequence ds "x52009229" subsequence tag 0)
       (_findStringInGroupSequence ds "x52009230" subsequence tag index).

Definition _findStringInSequence (ds : DataSet) (sequenceTag tag : string)
    : option string :=
  sequence ← elements ds !! sequenceTag;
  seqItems ← items sequence;
  d ← at_index seqItems 0 ≫= dataSet;
  string_ d !! tag.

Definition _findStringEverywhere (ds : DataSet) (subsequence tag : string)
    (index : Z) : option string :=
  let targetString := _findStringInFrameGroupSequence ds subsequence tag index in
  (* Check PET module *)
  let targetString :=
    if negb (toBoolean targetString)
    then let petModule := "x00540022" in _findStringInSequence ds petModule tag
    else targetString in
  (* Fallback to searching directly in _dataSet *)
  let targetString :=
    if negb (toBoolean targetString)
    then string_ ds !! tag
    else targetString in
  targetString.

Definition _findFloatStringInGroupSequence (ds : DataSet)
    (sequence subsequence tag : string) (index : Z) : option float :=
  let dataInGroupSequence := floatString ds !! tag in
  match dataInGroupSequence with
  | None =>
      (* Try to find in group sequence if undefined *)
      match _findInGroupSequence ds sequence subsequence index with
      | Some groupSequence => floatString groupSequence !! tag
      | None => dataInGroupSequence
      end
  | Some _ => dataInGroupSequence
  end.

Definition _findFloatStringInFrameGroupSequence (ds : DataSet)
    (subsequence tag : string) (index : Z) : option float :=
  jsOr (_findFloatStringInGroupSequence ds "x52009229" subsequence tag 0)
       (_findFloatStringInGroupSequence ds "x52009230" subsequence tag index).

(** *** Public accessors built on the resolver *)

Definition sopInstanceUID (ds : DataSet) (frameIndex : Z) : option string :=
  _findStringEverywhere ds "x2005140f" "x00080018" frameIndex.

Definition rescaleIntercept (ds : DataSet) (frameIndex : Z) : option float :=
  _findFloatStringInFrameGroupSequence ds "x00289145" "x00281052" frameIndex.

Definition rescaleSlope (ds : DataSet) (frameIndex : Z) : option float :=
  _findFloatStringInFrameGroupSequence ds "x00289145" "x00281053" frameIndex.

Definition windowCenter (ds : DataSet) (frameIndex : Z) : option float :=
  _findFloatStringInFrameGroupSequence ds "x00289132" "x00281050" frameIndex.

Definition windowWidth (ds : DataSet) (frameIndex : Z) : option float :=
  _findFloatStringInFrameGroupSequence ds "x00289132" "x00281051" frameIndex.

(** Returns [uint16('x0062000b')] of the referenced-segment item (possibly
    [undefined], [None]) or the number [-1]. *)
Definition referencedSegmentNumber (ds : DataSet) (frameIndex : Z) : option Z :=
  let referencedSegmentNumberElement :=
    _findInGroupSequence ds "x52009230" "x0062000a" frameIndex in
  match referencedSegmentNumberElement with
  | Some d => uint16 d !! "x0062000b"
  | None => Some (-1)
  end.

(** ** Pixel-format metadata *)

Definition transferSyntaxUID (ds : DataSet) : option string :=
  string_ ds !! "x00020010".

Definition photometricInterpretation (ds : DataSet) : option string :=
  string_ ds !! "x00280004".

Definition planarConfiguration (ds : DataSet) : option Z :=
  uint16 ds !! "x00280006".

Definition samplesPerPixel (ds : DataSet) : option Z :=
  uint16 ds !! "x00280002".

Definition numberOfFrames (ds : DataSet) : option float :=
  intString ds !! "x00280008".

Definition rows (ds : DataSet) : option Z := uint16 ds !! "x00280010".
Definition columns (ds : DataSet) : option Z := uint16 ds !! "x00280011".
Definition pixelRepresentation (ds : DataSet) : option Z :=
  uint16 ds !! "x00280103".
Definition bitsAllocated (ds : DataSet) : option Z := uint16 ds !! "x00280100".

(** [a !== 'literal'] for [string | null]. *)
Definition isNot (a : option string) (literal : string) : bool :=
  negb (bool_decide (a = Some literal)).

Definition numberOfChannels (ds : DataSet) : Z :=
  let numberOfChannels := 1 in
  let photometricInterpretation := photometricInterpretation ds in
  if negb (isNot photometricInterpretation "RGB" &&
           isNot photometricInterpretation "PALETTE COLOR" &&
           isNot photometricInterpretation "YBR_FULL" &&
           isNot photometricInterpretation "YBR_FULL_422" &&
           isNot photometricInterpretation "YBR_PARTIAL_422" &&
           isNot photometricInterpretation "YBR_PARTIAL_420" &&
           isNot photometricInterpretation "YBR_RCT")
  then 3
  else numberOfChannels.

(** ** Typed arrays

    The [TypedArray] union of the codec's declaration file. The integer
    classes hold integers in the range of the class; a store converts the
    assigned number to that range. *)

Inductive IntegerArray : Type :=
| Int8Array | Uint8Array | Uint8ClampedArray
| Int16Array | Uint16Array | Int32Array | Uint32Array.

Inductive TypedArray : Type :=
| Integers (cls : IntegerArray) (data : list Z)
| Float32Array (data : list float)
| Float64Array (data : list float).

Definition ToUint (bits z : Z) : Z := z mod 2 ^ bits.

Definition ToInt (bits z : Z) : Z :=
  let m := z mod 2 ^ bits in
  if m <? 2 ^ (bits - 1) then m else m - 2 ^ bits.

(** The element stored when an integral number [z] is assigned. *)
Definition toElement (cls : IntegerArray) (z : Z) : Z :=
  match cls with
  | Int8Array => ToInt 8 z
  | Uint8Array => ToUint 8 z
  | Uint8ClampedArray => Z.max 0 (Z.min 255 z)
  | Int16Array => ToInt 16 z
  | Uint16Array => ToUint 16 z
  | Int32Array => ToInt 32 z
  | Uint32Array => ToUint 32 z
  end.

(** The values an element of the class can hold. *)
Definition inRange (cls : IntegerArray) (z : Z) : Prop :=
  match cls with
  | Int8Array => -128 <= z < 128
  | Uint8Array | Uint8ClampedArray => 0 <= z < 256
  | Int16Array => -32768 <= z < 32768
  | Uint16Array => 0 <= z < 65536
  | Int32Array => -2147483648 <= z < 2147483648
  | Uint32Array => 0 <= z < 4294967296
  end.

(** [array[index]] for a number used as index: [undefined] unless the number
    is a non-negative integer below the length. Index arithmetic ([length / 3],
    its double and their successors) is kept exact in [Q]: on doubles it is
    exact when 3 divides the length, and yields no integer when it does not,
    for every length below 2^50. *)
Definition integerIndex (index : Q) : option nat :=
  if (Qnum index mod Z.pos (Qden index) =? 0) && (0 <=? Qnum index)
  then Some (Z.to_nat (Qnum index / Z.pos (Qden index)))
  else None.

Definition elementAt (data : list Z) (index : Q) : option Z :=
  n ← integerIndex index; data !! n.

(** [rgbData[index] = value], the value an element ([undefined] out of range)
    read from an integer array: [undefined] is stored as 0; a store out of
    range is ignored. *)
Definition assignElement (cls : IntegerArray) (rgbData : list Z) (index : nat)
    (value : option Z) : list Z :=
  <[index := toElement cls (default 0 value)]> rgbData.

(** [rgbData[index] = value], the value a computed number. *)
Definition assignNumber (cls : IntegerArray) (rgbData : list Z) (index : nat)
    (value : float) : list Z :=
  <[index := toElement cls (truncate value)]> rgbData.

(** An element read as operand of arithmetic: [undefined] becomes [NaN]. *)
Definition toNumber (value : option Z) : float :=
  match value with
  | Some z => Z2number z
  | None => nan
  end.

(** A [for] loop whose guard is re-tested before each pass. *)
Fixpoint forLoop {S : Type} (fuel : nat) (guard : S → bool) (body : S → S)
    (s : S) : S :=
  match fuel with
  | O => s
  | S fuel' => if guard s then forLoop fuel' guard body (body s) else s
  end.

(** ** Color normalizer *)

Definition _interpretAsRGB (photometricInterpretation : string) : bool :=
  let rgbLikeTypes := ["RGB"; "YBR_RCT"; "YBR_ICT"; "YBR_FULL_422"] in
  bool_decide (photometricInterpretation ∈ rgbLikeTypes).

(** [rgbData = new <Class>(uncompressedData.length)] by the [instanceof]
    chain: a zero-filled array of the class of the input, for four classes. *)
Definition newArrayOfSameClass (uncompressedData : TypedArray)
    : option (IntegerArray * list Z * list Z) :=
  match uncompressedData with
  | Integers Int8Array data => Some (Int8Array, data, replicate (length data) 0)
  | Integers Uint8Array data => Some (Uint8Array, data, replicate (length data) 0)
  | Integers Int16Array data => Some (Int16Array, data, replicate (length data) 0)
  | Integers Uint16Array data => Some (Uint16Array, data, replicate (length data) 0)
  | _ => None
  end.

(** The plane-to-pixel copy loop. *)
Record PlanarLoop : Type := MkPlanarLoop {
  planar_rgbData : list Z;
  planar_rgbaIndex : nat;
  rIndex : nat;
  gIndex : Q;
  bIndex : Q;
  planar_i : nat }.

Definition planarGuard (numPixels : Q) (s : PlanarLoop) : bool :=
  negb (Qle_bool numPixels (inject_Z (Z.of_nat (planar_i s)))).

Definition planarBody (cls : IntegerArray) (uncompressedData : list Z)
    (s : PlanarLoop) : PlanarLoop :=
  let rgbData := planar_rgbData s in
  let rgbaIndex := planar_rgbaIndex s in
  let rgbData := assignElement cls rgbData rgbaIndex
                   (uncompressedData !! rIndex s) in          (* red *)
  let rgbData := assignElement cls rgbData (rgbaIndex + 1)
                   (elementAt uncompressedData (gIndex s)) in  (* green *)
  let rgbData := assignElement cls rgbData (rgbaIndex + 2)
                   (elementAt uncompressedData (bIndex s)) in  (* blue *)
  {| planar_rgbData := rgbData;
     planar_rgbaIndex := rgbaIndex + 3;
     rIndex := rIndex s + 1;
     gIndex := (gIndex s + 1)%Q;
     bIndex := (bIndex s + 1)%Q;
     planar_i := planar_i s + 1 |}.

Definition planarToPixel (cls : IntegerArray) (uncompressedData rgbData : list Z)
    : list Z :=
  let numPixels := (inject_Z (Z.of_nat (length uncompressedData)) / 3)%Q in
  planar_rgbData
    (forLoop (S (length uncompressedData)) (planarGuard numPixels)
       (planarBody cls uncompressedData)
       {| planar_rgbData := rgbData;
          planar_rgbaIndex := 0;
          rIndex := 0;
          gIndex := numPixels;
          bIndex := (numPixels * 2)%Q;
          planar_i := 0 |}).

(** The YBR_FULL to RGB loop. *)
Record YbrLoop : Type := MkYbrLoop {
  ybr_rgbData : list Z;
  ybrIndex : nat;
  ybr_rgbaIndex : nat;
  ybr_i : nat }.

Definition ybrGuard (nPixels : Q) (s : YbrLoop) : bool :=
  negb (Qle_bool nPixels (inject_Z (Z.of_nat (ybr_i s)))).

Definition red (y cb cr : float) : float := (y + 1.402 * (cr - 128))%float.
Definition green (y cb cr : float) : float :=
  (y - 0.34414 * (cb - 128) - 0.71414 * (cr - 128))%float.
Definition blue (y cb cr : float) : float := (y + 1.772 * (cb - 128))%float.

Definition ybrBody (cls : IntegerArray) (uncompressedData : list Z)
    (s : YbrLoop) : YbrLoop :=
  let ybrIndex := ybrIndex s in
  let rgbaIndex := ybr_rgbaIndex s in
  let y := toNumber (uncompressedData !! ybrIndex) in
  let cb := toNumber (uncompressedData !! (ybrIndex + 1)%nat) in
  let cr := toNumber (uncompressedData !! (ybrIndex + 2)%nat) in
  let rgbData := ybr_rgbData s in
  let rgbData := assignNumber cls rgbData rgbaIndex (red y cb cr) in
  let rgbData := assignNumber cls rgbData (rgbaIndex + 1) (green y cb cr) in
  let rgbData := assignNumber cls rgbData (rgbaIndex + 2) (blue y cb cr) in
  {| ybr_rgbData := rgbData;
     ybrIndex := ybrIndex + 3;
     ybr_rgbaIndex := rgbaIndex + 3;
     ybr_i := ybr_i s + 1 |}.

Definition ybrFullToRgb (cls : IntegerArray) (uncompressedData rgbData : list Z)
    : list Z :=
  let nPixels := (inject_Z (Z.of_nat (length uncompressedData)) / 3)%Q in
  ybr_rgbData
    (forLoop (S (length uncompressedData)) (ybrGuard nPixels)
       (ybrBody cls uncompressedData)
       {| ybr_rgbData := rgbData; ybrIndex := 0; ybr_rgbaIndex := 0;
          ybr_i := 0 |}).

Definition _convertColorSpace (ds : DataSet) (uncompressedData : TypedArray)
    : Exec TypedArray :=
  (let photometricInterpretation := photometricInterpretation ds in
   let* planarConfiguration :=
     match planarConfiguration ds with
     | None =>
         let* _ := consoleLog
           "Planar Configuration was not set and was defaulted to  0" in
         ret 0
     | Some configuration => ret configuration
     end in
   let interpretAsRGB :=
     match photometricInterpretation with
     | Some name => truthy name && _interpretAsRGB name
     | None => false
     end in
   if interpretAsRGB && (planarConfiguration =? 0) then
     (* ALL GOOD, ALREADY ORDERED *)
     ret uncompressedData
   else if interpretAsRGB && (planarConfiguration =? 1) then
     match newArrayOfSameClass uncompressedData with
     | Some (cls, data, rgbData) =>
         ret (Integers cls (planarToPixel cls data rgbData))
     | None => throw UnsupportedTypedArray
     end
   else if bool_decide (photometricInterpretation = Some "YBR_FULL") then
     match newArrayOfSameClass uncompressedData with
     | Some (cls, data, rgbData) =>
         ret (Integers cls (ybrFullToRgb cls data rgbData))
     | None => throw UnsuportedTypedArray
     end
   else throw (PhotometricNotSupported photometricInterpretation))%exec.

(** ** Pixel decoder and end-to-end extraction *)

Record ImageInfo : Type := MkImageInfo {
  info_rows : option Z;
  info_columns : option Z;
  info_bitsAllocated : option Z;
  info_samplesPerPixel : option Z;
  info_signed : bool }.

(** [new Uint8Array(buffer, byteOffset, length)]: a view of the bytes
    [byteOffset .. byteOffset + length) of the buffer. *)
Definition newUint8Array (buffer : list Z) (byteOffset length : Z)
    : Result (list Z) :=
  if (0 <=? byteOffset) && (0 <=? length) &&
     (byteOffset + length <=? Z.of_nat (List.length buffer))
  then inr (take (Z.to_nat length) (drop (Z.to_nat byteOffset) buffer))
  else inl RangeError.

Section PixelDecoder.

(** The codec ([decode] of dicom-codec), yielding [imageFrame]. *)
Variable decode : list Z → ImageInfo → option string → Result TypedArray.

Definition _decodePixelData (ds : DataSet) (_frameIndex : Z)
    : Result TypedArray :=
  let transferSyntaxUID := transferSyntaxUID ds in
  match elements ds !! "x7fe00010" with
  | None => inl TypeError
  | Some pixelDataElement =>
      match newUint8Array (byteArray ds) (dataOffset pixelDataElement)
              (dataLength pixelDataElement) with
      | inl e => inl e
      | inr pixelData =>
          let bitsAllocated := bitsAllocated ds in
          let columns := columns ds in
          let rows := rows ds in
          let samplesPerPixel := samplesPerPixel ds in
          let signed := bool_decide (pixelRepresentation ds = Some 1) in
          decode pixelData
            {| info_rows := rows; info_columns := columns;
               info_bitsAllocated := bitsAllocated;
               info_samplesPerPixel := samplesPerPixel;
               info_signed := signed |}
            transferSyntaxUID
      end
  end.

Definition extractPixelData (ds : DataSet) (frameIndex : Z)
    : Exec TypedArray :=
  (* decompress *)
  (let* decompressedData := lift (_decodePixelData ds frameIndex) in
   let numberOfChannels := numberOfChannels ds in
   if 1 <? numberOfChannels
   then _convertColorSpace ds decompressedData
   else ret decompressedData)%exec.

End PixelDecoder.

(** The per-frame offset of native pixel data in the words of the
    specification, for comparison with [_decodePixelData] (the source has no
    such computation). *)
Definition specFrameOffset
    (frameIndex bitsAllocated rows columns samplesPerPixel : Z) : Z :=
  frameIndex * bitsAllocated * rows * columns * samplesPerPixel / 8.

(** The names for which [numberOfChannels] is 3. *)
Definition colorNames : list string :=
  ["RGB"; "PALETTE COLOR"; "YBR_FULL"; "YBR_FULL_422"; "YBR_PARTIAL_422";
   "YBR_PARTIAL_420"; "YBR_RCT"].

(** ** Pixel locator for encapsulated pixel data *)

Definition framesAreFragmented (ds : DataSet) : bool :=
  let numberOfFrames := intString ds !! "x00280008" in
  let pixelDataElement := elements ds !! "x7fe00010" in
  strictNotEqual numberOfFrames
    (fs ← pixelDataElement ≫= fragments;
     Some (Z2number (Z.of_nat (length fs)))).

(** [element && element.basicOffsetTable?.length]. *)
Definition basicOffsetTableIsNotEmpty (pixelDataElement : option Element)
    : bool :=
  match pixelDataElement ≫= basicOffsetTable with
  | Some table => negb (Nat.eqb (length table) 0)
  | None => false
  end.

Section EncapsulatedFrame.

(** The fragment readers of dicom-parser. The pixel data element is handed
    over as it is, [undefined] included. *)
Variable readEncapsulatedImageFrame :
  DataSet → option Element → Z → option (list Z) → Result (list Z).
Variable createJPEGBasicOffsetTable :
  DataSet → option Element → Result (list Z).
Variable readEncapsulatedPixelDataFromFragments :
  DataSet → option Element → Z → Result (list Z).

Definition getEncapsulatedImageFrame (ds : DataSet) (frameIndex : Z)
    : Result (list Z) :=
  if basicOffsetTableIsNotEmpty (elements ds !! "x7fe00010") then
    (* Basic Offset Table is not empty *)
    readEncapsulatedImageFrame ds (elements ds !! "x7fe00010") frameIndex
      None
  else if framesAreFragmented ds then
    (* Basic Offset Table is empty *)
    match createJPEGBasicOffsetTable ds (elements ds !! "x7fe00010") with
    | inl e => inl e
    | inr table =>
        readEncapsulatedImageFrame ds (elements ds !! "x7fe00010")
          frameIndex (Some table)
    end
  else
    readEncapsulatedPixelDataFromFragments ds (elements ds !! "x7fe00010")
      frameIndex.

End EncapsulatedFrame.

(** ** Series grouping and sorting ([preloader.ts]) *)

(** [Array.prototype.sort(comparefn)] is the engine's. The language fixes
    its result only for a comparator that is consistent on the values of the
    array: it is then the array in ascending order, with the elements that
    compare equal in their input order. For any other comparator the order
    of the result is left to the engine. *)
Section ArraySort.
Context {A : Type} (comparefn : A → A → float).

(** [a <CF b], [a =CF b] and [a >CF b]: [comparefn(a, b)] is below 0, is 0
    (of either sign), is above 0. *)
Definition less (a b : A) : bool := (comparefn a b <? 0)%float.
Definition tied (a b : A) : bool := (comparefn a b =? 0)%float.
Definition greater (a b : A) : bool := (0 <? comparefn a b)%float.

(** [comparefn] is a consistent comparator for the values of [l]: it never
    returns [NaN], [=CF] is reflexive, symmetric and transitive, and [<CF]
    and [>CF] are transitive. *)
Definition consistentComparator (l : list A) : bool :=
  forallb
    (λ a,
       tied a a &&
       forallb
         (λ b,
            negb (PrimFloat.is_nan (comparefn a b)) &&
            implb (tied a b) (tied b a) &&
            forallb
              (λ c,
                 implb (tied a b && tied b c) (tied a c) &&
                 implb (less a b && less b c) (less a c) &&
                 implb (greater a b && greater b c) (greater a c))
              l)
         l)
    l.

(** The order a consistent comparator puts on the values of [l]: [a >CF b]
    is [b <CF a], and "not greater" is transitive. *)
Definition ordered (l : list A) : Prop :=
  ∀ a b c, a ∈ l → b ∈ l → c ∈ l →
    greater a b = less b a ∧
    (greater a b = true → greater b a = false) ∧
    (greater a b = false → greater b c = false → greater a c = false) ∧
    (greater a b = true → greater b c = true → greater a c = true).

(** The stable sort, by insertion from the right: [a] passes the elements it
    compares greater than and stops in front of the first other one. *)
Fixpoint insertSorted (a : A) (sorted : list A) : list A :=
  match sorted with
  | [] => [a]
  | b :: rest =>
      if greater a b
      then b :: insertSorted a rest
      else a :: sorted
  end.

Definition stableSort (l : list A) : list A := foldr insertSorted [] l.
End ArraySort.

(** What the language requires of the [sort] of an engine: the result holds
    the elements of the array, and for a consistent comparator it is the
    stable sort. *)
Definition conformingSort {A : Type}
    (sort : (A → A → float) → list A → list A) : Prop :=
  ∀ comparefn l,
    sort comparefn l ≡ₚ l ∧
    (consistentComparator comparefn l = true →
     sort comparefn l = stableSort comparefn l).

Section Preloader.

Context {File : Type}.

Record DicomFile : Type := MkDicomFile {
  file : File;
  SOPInstanceUID : string;
  sliceLocation : option float;
  imagePositionZ : option float;
  instanceNumber : option float }.

Record Series : Type := MkSeries {
  seriesInstanceUID : string;
  dicomFiles : list DicomFile }.

(** [Array.prototype.sort] of the engine that runs the code. *)
Variable sort :
  (DicomFile → DicomFile → float) → list DicomFile → list DicomFile.

(** The comparator handed to [sort] in [sortDicomFiles]. *)
Definition compareDicomFiles (a b : DicomFile) : float :=
  match sliceLocation a, sliceLocation b with
  | Some sa, Some sb => (sa - sb)%float
  | _, _ =>
      match imagePositionZ a, imagePositionZ b with
      | Some za, Some zb => (za - zb)%float
      | _, _ =>
          match instanceNumber a, instanceNumber b with
          | Some na, Some nb => (na - nb)%float
          | _, _ => 0%float
          end
      end
  end.

Definition sortDicomFiles (dicomFiles : list DicomFile) : list DicomFile :=
  sort compareDicomFiles dicomFiles.

(** [seriesMap]: a [Map] keeps its keys in insertion order. *)
Fixpoint pushToSeries (seriesMap : list (string * list DicomFile))
    (seriesUID : string) (dicomFile : DicomFile)
    : list (string * list DicomFile) :=
  match seriesMap with
  | [] => [(seriesUID, [dicomFile])]
  | (uid, files) :: rest =>
      if decide (uid = seriesUID)
      then (uid, files ++ [dicomFile]) :: rest
      else (uid, files) :: pushToSeries rest seriesUID dicomFile
  end.

(** The final pass of [preloader] over [seriesMap]. *)
Definition seriesArray (seriesMap : list (string * list DicomFile))
    : list Series :=
  map (λ '(seriesInstanceUID, unsortedDicomFiles),
         {| seriesInstanceUID := seriesInstanceUID;
            dicomFiles := sortDicomFiles unsortedDicomFiles |})
      seriesMap.

(** [preloader] on files already read: [Some (seriesUID, dicomFile)] for a
    file that parsed, [None] for one whose parse threw (logged, skipped). *)
Definition preloader (parsed : list (option (string * DicomFile)))
    : list Series :=
  seriesArray
    (foldl (λ seriesMap entry,
              match entry with
              | Some (seriesUID, dicomFile) =>
                  pushToSeries seriesMap seriesUID dicomFile
              | None => seriesMap
              end)
           [] parsed).

End Preloader.

Arguments DicomFile : clear implicits.
Arguments Series : clear implicits.

(** ** Notions used in the statements *)

(** A tier is skipped when its value is missing or the empty string. *)
Definition absentOrEmpty (o : option string) : Prop := o = None ∨ o = Some "".

(** The classes the [instanceof] chains of [_convertColorSpace] accept. *)
Definition supportedClasses : list IntegerArray :=
  [Int8Array; Uint8Array; Int16Array; Uint16Array].

(** The typed arrays they reject. *)
Definition unsupported (uncompressedData : TypedArray) : Prop :=
  match uncompressedData with
  | Integers cls _ => cls ∈ [Uint8ClampedArray; Int32Array; Uint32Array]
  | Float32Array _ | Float64Array _ => True
  end.

(** The photometric interpretations read as RGB. *)
Definition rgbLikeTypes : list string :=
  ["RGB"; "YBR_RCT"; "YBR_ICT"; "YBR_FULL_422"].

(** Pixel [i] of YBR_FULL data converted and stored in an array of class
    [cls]: the three samples as numbers, the formulas in double precision, the
    results truncated toward zero and reduced to the range of the class. *)
Definition ybrPixel (cls : IntegerArray) (data : list Z) (i : nat)
    : Z * Z * Z :=
  let y := toNumber (data !! (3 * i)%nat) in
  let cb := toNumber (data !! (3 * i + 1)%nat) in
  let cr := toNumber (data !! (3 * i + 2)%nat) in
  (toElement cls (truncate (red y cb cr)),
   toElement cls (truncate (green y cb cr)),
   toElement cls (truncate (blue y cb cr))).

(** What the YBR_FULL loop leaves in [rgbData]. *)
Definition ybrInvariant (cls : IntegerArray) (data : list Z) (j : nat)
    (s : YbrLoop) : Prop :=
  ybr_i s = j ∧ ybrIndex s = (3 * j)%nat ∧ ybr_rgbaIndex s = (3 * j)%nat ∧
  length (ybr_rgbData s) = length data ∧
  ∀ p, (p < j)%nat →
    ((3 * p < length data)%nat →
       ybr_rgbData s !! (3 * p)%nat = Some (ybrPixel cls data p).1.1) ∧
    ((3 * p + 1 < length data)%nat →
       ybr_rgbData s !! (3 * p + 1)%nat = Some (ybrPixel cls data p).1.2) ∧
    ((3 * p + 2 < length data)%nat →
       ybr_rgbData s !! (3 * p + 2)%nat = Some (ybrPixel cls data p).2).

(** What the plane-to-pixel loop leaves in [rgbData], for data of [3 * n]
    samples. *)
Definition planarInvariant (cls : IntegerArray) (data : list Z) (n j : nat)
    (s : PlanarLoop) : Prop :=
  planar_i s = j ∧ planar_rgbaIndex s = (3 * j)%nat ∧ rIndex s = j ∧
  integerIndex (gIndex s) = Some (n + j)%nat ∧
  integerIndex (bIndex s) = Some (2 * n + j)%nat ∧
  length (planar_rgbData s) = length data ∧
  ∀ p, (p < j)%nat →
    planar_rgbData s !! (3 * p)%nat =
      Some (toElement cls (default 0 (data !! p))) ∧
    planar_rgbData s !! (3 * p + 1)%nat =
      Some (toElement cls (default 0 (data !! (n + p)%nat))) ∧
    planar_rgbData s !! (3 * p + 2)%nat =
      Some (toElement cls (default 0 (data !! (2 * n + p)%nat))).

(** ** Further accessors of [DicomParser] *)

(** [element?.items && element.items[index]?.dataSet]. *)
Definition itemDataSet (element : option Element) (index : Z)
    : option DataSet :=
  its ← element ≫= items; at_index its index ≫= dataSet.

Module DicomParser.

Definition instanceNumber (ds : DataSet) (frameIndex : Z) : option float :=
  (* Check for the per-frame functional group sequence *)
  let perFrameFunctionnalGroupSequence := elements ds !! "x52009230" in
  match itemDataSet perFrameFunctionnalGroupSequence frameIndex with
  | Some frameDataSet =>
      let frameElement := elements frameDataSet !! "x2005140f" in
      match itemDataSet frameElement 0 with
      | Some planeOrientationSequence =>
          intString planeOrientationSequence !! "x00200013"
      | None =>
          (* Fall back to the default instance number in the dataset *)
          intString ds !! "x00200013"
      end
  | None =>
      (* Default instance number if no functional group sequence is
         available *)
      intString ds !! "x00200013"
  end.

End DicomParser.

(** ** Notions used in the further statements *)

(** Two typed arrays of one class and one length. *)
Definition sameClassAndLength (a b : TypedArray) : Prop :=
  match a, b with
  | Integers cls data, Integers cls' data' =>
      cls = cls' ∧ length data = length data'
  | Float32Array data, Float32Array data' => length data = length data'
  | Float64Array data, Float64Array data' => length data = length data'
  | _, _ => False
  end.

(** A number that is not an integer. *)
Definition fractional (q : Q) : Prop := Qnum q mod Z.pos (Qden q) ≠ 0.

(** What the plane-to-pixel loop leaves in [rgbData] when 3 does not divide
    the length: the green and blue reads are at fractional indices. *)
Definition planarFractionInvariant (cls : IntegerArray) (data : list Z)
    (j : nat) (s : PlanarLoop) : Prop :=
  planar_i s = j ∧ planar_rgbaIndex s = (3 * j)%nat ∧ rIndex s = j ∧
  fractional (gIndex s) ∧ fractional (bIndex s) ∧
  length (planar_rgbData s) = length data ∧
  ∀ p, (p < j)%nat →
    ((3 * p < length data)%nat →
       planar_rgbData s !! (3 * p)%nat =
         Some (toElement cls (default 0 (data !! p)))) ∧
    ((3 * p + 1 < length data)%nat →
       planar_rgbData s !! (3 * p + 1)%nat = Some 0) ∧
    ((3 * p + 2 < length data)%nat →
       planar_rgbData s !! (3 * p + 2)%nat = Some 0).

(** ** Segmentation *)

#[global] Instance integer_truthy : Truthy Z := λ z, negb (z =? 0).

(** [value || fallback] and [value || null]. *)
Definition orElse {A} `{Truthy A} (value : option A) (fallback : A) : A :=
  match value with
  | Some a => if truthy a then a else fallback
  | None => fallback
  end.

Definition orNull {A} `{Truthy A} (value : option A) : option A :=
  if toBoolean value then value else None.

(** [typedArray.slice(start, end)]: negative positions count from the end,
    and both are clamped to the array. *)
Definition slice {A} (l : list A) (start final : Z) : list A :=
  let len := Z.of_nat (length l) in
  let k := if start <? 0 then Z.max (len + start) 0 else Z.min start len in
  let final := if final <? 0 then Z.max (len + final) 0 else Z.min final len in
  take (Z.to_nat (final - k)) (drop (Z.to_nat k) l).

(** [value << bits] on 32-bit integers; [undefined] counts as 0. *)
Definition shiftLeft (value : option Z) (bits : Z) : Z :=
  ToInt 32 (Z.shiftl (ToInt 32 (default 0 value)) (bits mod 32)).

Record CIELabLoop : Type := MkCIELabLoop {
  CIELabScaled : list Z;
  cielab_i : nat }.

Definition cielabGuard (half : Q) (s : CIELabLoop) : bool :=
  negb (Qle_bool half (inject_Z (Z.of_nat (cielab_i s)))).

Definition cielabBody (byteArray : list Z) (s : CIELabLoop) : CIELabLoop :=
  let i := cielab_i s in
  let high := shiftLeft (byteArray !! (2 * i + 1)%nat) 8 in
  (* adding [undefined] gives NaN, stored as 0 *)
  let value := low ← byteArray !! (2 * i)%nat; Some (high + low) in
  {| CIELabScaled := assignElement Uint16Array (CIELabScaled s) i value;
     cielab_i := i + 1 |}.

(** [_recommendedDisplayCIELab(segment)], on [segment.dataSet]. The
    allocation [new Uint16Array(length / 2)] truncates its argument and throws
    a RangeError when that is negative. *)
Definition _recommendedDisplayCIELab (segment : DataSet)
    : Result (option (list float)) :=
  match elements segment !! "x0062000d" with
  | None => inr None
  | Some element =>
      let offset := dataOffset element in
      let length := dataLength element in
      let byteArray := slice (byteArray segment) offset (offset + length) in
      if Z.quot length 2 <? 0 then inl RangeError
      else
        let scaled :=
          CIELabScaled
            (forLoop (S (Z.to_nat length))
               (cielabGuard (inject_Z length / 2)) (cielabBody byteArray)
               {| CIELabScaled := replicate (Z.to_nat (Z.quot length 2)) 0;
                  cielab_i := 0 |}) in
        let CIELabNormalized :=
          [ (toNumber (scaled !! 0%nat) / 65535 * 100)%float;
            (toNumber (scaled !! 1%nat) / 65535 * 255 - 128)%float;
            (toNumber (scaled !! 2%nat) / 65535 * 255 - 128)%float ] in
        inr (Some CIELabNormalized)
  end.

Record SegmentationCode : Type := MkSegmentationCode {
  codeDesignator : string;
  codeValue : string;
  codeMeaning : string }.

Record SegmentationSegment : Type := MkSegmentationSegment {
  recommendedDisplayCIELab : option (list float);
  segmentationCodeDesignator : string;
  segmentationCodeValue : string;
  segmentationCodeMeaning : string;
  segmentNumber : option Z;
  segmentLabel : option string;
  segmentAlgorithmType : option string }.

(** [_segmentationCode(segment)], on [segment.dataSet]. *)
Definition _segmentationCode (segment : DataSet) : SegmentationCode :=
  let unknown :=
    {| codeDesignator := "unknown"; codeValue := "unknown";
       codeMeaning := "unknown" |} in
  match elements segment !! "x00082218" with
  | Some element =>
      match items element with
      | Some (first :: _) =>
          match dataSet first with
          | Some d =>
              {| codeDesignator := orElse (string_ d !! "x00080102") "unknown";
                 codeValue := orElse (string_ d !! "x00080100") "unknown";
                 codeMeaning := orElse (string_ d !! "x00080104") "unknown" |}
          | None => unknown
          end
      | _ => unknown
      end
  | None => unknown
  end.

(** The loop of [segmentationSegments] over the items of the sequence. *)
Fixpoint segmentsOfItems (sequenceItems : list Element)
    : Result (list SegmentationSegment) :=
  match sequenceItems with
  | [] => inr []
  | item :: rest =>
      match dataSet item with
      | None => segmentsOfItems rest
      | Some d =>
          match _recommendedDisplayCIELab d with
          | inl e => inl e
          | inr recommendedDisplayCIELab =>
              let segmentationCode := _segmentationCode d in
              let segmentNumber := uint16 d !! "x00620004" in
              let segmentLabel := string_ d !! "x00620005" in
              let segmentAlgorithmType := string_ d !! "x00620008" in
              match segmentsOfItems rest with
              | inl e => inl e
              | inr segments =>
                  inr ({| recommendedDisplayCIELab := recommendedDisplayCIELab;
                          segmentationCodeDesignator :=
                            codeDesignator segmentationCode;
                          segmentationCodeValue := codeValue segmentationCode;
                          segmentationCodeMeaning :=
                            codeMeaning segmentationCode;
                          segmentNumber := orNull segmentNumber;
                          segmentLabel := orNull segmentLabel;
                          segmentAlgorithmType := orNull segmentAlgorithmType |}
                       :: segments)
              end
          end
      end
  end.

Definition segmentationSegments (ds : DataSet)
    : Result (list SegmentationSegment) :=
  match elements ds !! "x00620002" ≫= items with
  | None => inr []
  | Some sequenceItems => segmentsOfItems sequenceItems
  end.

(** Element [i] of the 16-bit little-endian values held by [bytes]. *)
Definition littleEndian16 (bytes : list Z) (i : nat) : option Z :=
  low ← bytes !! (2 * i)%nat;
  high ← bytes !! (2 * i + 1)%nat;
  Some (low + 256 * high).

(** What the loop of [_recommendedDisplayCIELab] leaves in [CIELabScaled]. *)
Definition cielabInvariant (byteArray : list Z) (n j : nat)
    (s : CIELabLoop) : Prop :=
  cielab_i s = j ∧ length (CIELabScaled s) = n ∧
  ∀ p, (p < j)%nat → (p < n)%nat →
    CIELabScaled s !! p =
      Some (toElement Uint16Array
              (default 0 (low ← byteArray !! (2 * p)%nat;
                          Some (shiftLeft (byteArray !! (2 * p + 1)%nat) 8
                                + low)))).

(** What every reported segment satisfies. *)
Definition wellFormedSegment (segment : SegmentationSegment) : Prop :=
  segmentationCodeDesignator segment ≠ "" ∧
  segmentationCodeValue segment ≠ "" ∧
  segmentationCodeMeaning segment ≠ "" ∧
  segmentNumber segment ≠ Some 0 ∧
  segmentLabel segment ≠ Some "" ∧
  segmentAlgorithmType segment ≠ Some "".

(** ** Ultrasound regions and dimension index values *)

Definition unitNames : list string :=
  ["none"; "percent"; "dB"; "cm"; "seconds"; "hertz"; "dB/seconds"; "cm/sec";
   "cm2"; "cm2/sec"; "cm3"; "cm3/sec"; "degrees"].

(** [units[value] ?? 'none'], the table [units] having the keys 0 to 12. *)
Definition _getUnitsName (value : Z) : string :=
  default "none" (at_index unitNames value).

Record UltrasoundRegion : Type := MkUltrasoundRegion {
  x0 : option Z;
  y0 : option Z;
  x1 : option Z;
  y1 : option Z;
  axisX : option Z;
  axisY : option Z;
  unitsX : string;
  unitsY : string;
  deltaX : option float;
  deltaY : option float }.

Record DimensionLoop : Type := MkDimensionLoop {
  dimensionValues : list Z;
  dimension_i : nat }.

Definition dimensionGuard (nbValues : Q) (s : DimensionLoop) : bool :=
  negb (Qle_bool nbValues (inject_Z (Z.of_nat (dimension_i s)))).

(** A [for] loop whose body may throw: the loop ends at the first pass that
    throws. *)
Fixpoint forLoopThrowing {S : Type} (fuel : nat) (guard : S → bool)
    (body : S → Result S) (s : S) : Result S :=
  match fuel with
  | O => inr s
  | S fuel' =>
      if guard s then
        match body s with
        | inl e => inl e
        | inr s' => forLoopThrowing fuel' guard body s'
        end
      else inr s
  end.

Section BinaryReaders.

(** The binary readers of the data set that the tables of [DataSet] do not
    hold: [uint32(tag)], [uint32(tag, index)], [int32(tag)] and
    [double(tag)]. The indexed reader reads the 4 bytes at the offset of the
    element plus [4 * index], and throws when they do not lie in the
    buffer. *)
Variable uint32 : DataSet → string → option Z.
Variable uint32At : DataSet → string → nat → Result (option Z).
Variable int32 : DataSet → string → option Z.
Variable double : DataSet → string → option float.

Definition ultrasoundRegions (ds : DataSet) (_frameIndex : Z)
    : list UltrasoundRegion :=
  match elements ds !! "x00186011" ≫= items with
  | None => []
  | Some sequenceItems =>
      omap (λ item,
              d ← dataSet item;
              Some {| x0 := uint32 d "x00186018";
                      y0 := uint32 d "x0018601a";
                      x1 := uint32 d "x0018601c";
                      y1 := uint32 d "x0018601e";
                      axisX := int32 d "x00186020";
                      axisY := int32 d "x00186022";
                      unitsX :=
                        _getUnitsName (default 0 (uint16 d !! "x00186024"));
                      unitsY :=
                        _getUnitsName (default 0 (uint16 d !! "x00186026"));
                      deltaX := double d "x0018602c";
                      deltaY := double d "x0018602e" |})
           sequenceItems
  end.

Definition dimensionBody (frameContent : DataSet) (s : DimensionLoop)
    : Result DimensionLoop :=
  match uint32At frameContent "x00209157" (dimension_i s) with
  | inl e => inl e
  | inr value =>
      inr {| dimensionValues := dimensionValues s ++ [default 0 value];
             dimension_i := dimension_i s + 1 |}
  end.

Definition dimensionIndexValues (ds : DataSet) (frameIndex : Z)
    : Result (option (list Z)) :=
  (* Check for per-frame functional group sequence *)
  match itemDataSet (elements ds !! "x52009230") frameIndex with
  | Some frameDataSet =>
      match itemDataSet (elements frameDataSet !! "x00209111") 0 with
      | Some frameContent =>
          match elements frameContent !! "x00209157" with
          | Some dimensionIndexValuesElt =>
              (* 4 bytes for UL (unsigned long) *)
              let nbValues :=
                (inject_Z (dataLength dimensionIndexValuesElt) / 4)%Q in
              match
                forLoopThrowing
                  (S (Z.to_nat (dataLength dimensionIndexValuesElt)))
                  (dimensionGuard nbValues)
                  (dimensionBody frameContent)
                  {| dimensionValues := []; dimension_i := 0 |}
              with
              | inl e => inl e
              | inr s => inr (Some (dimensionValues s))
              end
          | None => inr None
          end
      | None => inr None
      end
  | None => inr None
  end.

Definition inStackPositionNumber (ds : DataSet) (frameIndex : Z)
    : option Z :=
  match itemDataSet (elements ds !! "x52009230") frameIndex with
  | Some frameDataSet =>
      match itemDataSet (elements frameDataSet !! "x00209111") 0 with
      | Some philipsPrivateSequence =>
          uint32 philipsPrivateSequence "x00209057"
      | None => None
      end
  | None => None
  end.

End BinaryReaders.

(** ** Strings split on a character, and the per-file part of [preloader] *)

(** [s.split(separator)] for a separator of one character. *)
Fixpoint split (separator : Ascii.ascii) (s : string) : list string :=
  match s with
  | EmptyString => [EmptyString]
  | String c rest =>
      if Ascii.eqb c separator then EmptyString :: split separator rest
      else
        match split separator rest with
        | piece :: pieces => String c piece :: pieces
        | [] => [String c EmptyString]
        end
  end.

(** The number of occurrences of a character. *)
Fixpoint occurrences (c : Ascii.ascii) (s : string) : nat :=
  match s with
  | EmptyString => 0
  | String c' rest =>
      (if Ascii.eqb c' c then 1 else 0) + occurrences c rest
  end.

(** The character of code 92. *)
Definition backslash : Ascii.ascii := Ascii.ascii_of_nat 92.

Section PreloaderFiles.

Context {File : Type}.

(** [Array.prototype.sort] of the engine; reading and parsing a file
    ([file.arrayBuffer()] and [parseDicom]), which may throw; and
    [parseFloat]. *)
Variable sort :
  (DicomFile File → DicomFile File → float) →
  list (DicomFile File) → list (DicomFile File).
Variable parseDicom : File → Result DataSet.
Variable parseFloat : string → float.

(** The series UID and the record made from a parsed file. *)
Definition dicomFileOf (file : File) (dataSet : DataSet)
    : string * DicomFile File :=
  let seriesUID := orElse (string_ dataSet !! "x0020000e") "unknown" in
  let sopInstanceUID := orElse (string_ dataSet !! "x00080018") "unknown" in
  let sliceLocation := floatString dataSet !! "x00201041" in
  let imagePositionZ :=
    position ← string_ dataSet !! "x00200032";
    (parseFloat <$> split backslash position) !! 2%nat in
  let instanceNumber := intString dataSet !! "x00200013" in
  (seriesUID,
   {| file := file;
      sliceLocation := sliceLocation;
      SOPInstanceUID := sopInstanceUID;
      imagePositionZ := imagePositionZ;
      instanceNumber := instanceNumber |}).

(** The [try]/[catch] around each file: a file that throws is skipped. *)
Definition readFiles (files : list File)
    : list (option (string * DicomFile File)) :=
  (λ file,
     match parseDicom file with
     | inr dataSet => Some (dicomFileOf file dataSet)
     | inl _ => None
     end) <$> files.

Definition preloaderFromFiles (files : list File) : list (Series File) :=
  preloader sort (readFiles files).

End PreloaderFiles.

(** The records of one series UID among the parsed entries, in input
    order. *)
Definition filesOf {File : Type} (seriesUID : string)
    (parsed : list (option (string * DicomFile File)))
    : list (DicomFile File) :=
  omap (λ entry,
          '(uid, dicomFile) ← entry;
          if decide (uid = seriesUID) then Some dicomFile else None)
       parsed.

(** The records of all parsed entries. *)
Definition allFiles {File : Type}
    (parsed : list (option (string * DicomFile File)))
    : list (DicomFile File) :=
  omap (λ entry, snd <$> entry) parsed.

(** [seriesMap] after the entries [processed]: one key per series UID met,
    holding the records of that UID in input order. *)
Definition groupedBySeries {File : Type}
    (seriesMap : list (string * list (DicomFile File)))
    (processed : list (option (string * DicomFile File))) : Prop :=
  NoDup seriesMap.*1 ∧
  ∀ uid,
    (list_to_map seriesMap : gmap string (list (DicomFile File))) !! uid =
      match filesOf uid processed with
      | [] => None
      | files => Some files
      end.

(** ** Geometry accessors *)

(** The character of code 34, and the text logged by [pixelSpacing]. *)
Definition doubleQuote : string := String (Ascii.ascii_of_nat 34) EmptyString.

Definition spacingNotSupported (pixelSpacing : string) : string :=
  "DICOM spacing format is not supported (could not split string on "
  +:+ doubleQuote +:+ String backslash EmptyString +:+ doubleQuote +:+ "): "
  +:+ pixelSpacing.

Section Geometry.

Variable parseFloat : string → float.

Definition imageOrientation (ds : DataSet) (frameIndex : Z)
    : option (list float) :=
  (* expect frame index to start at 0! *)
  let imageOrientation :=
    _findStringEverywhere ds "x00209116" "x00200037" frameIndex in
  match imageOrientation with
  | Some value =>
      if truthy value then Some (parseFloat <$> split backslash value)
      else None
  | None => None
  end.

Definition imagePosition (ds : DataSet) (frameIndex : Z)
    : option (list float) :=
  let imagePosition :=
    _findStringEverywhere ds "x00209113" "x00200032" frameIndex in
  match imagePosition with
  | Some value =>
      if truthy value then Some (parseFloat <$> split backslash value)
      else None
  | None => None
  end.

(** [pixelSpacing(frameIndex)] with what it writes with [console.error]. *)
Definition pixelSpacing (ds : DataSet) (frameIndex : Z)
    : list string * option (list float) :=
  let value1 := _findStringEverywhere ds "x00289110" "x00280030" frameIndex in
  let value2 := string_ ds !! "x00181164" in
  let pixelSpacing :=
    if toBoolean value1 then value1
    else if toBoolean value2 then value2
    else None in
  match pixelSpacing with
  | Some value =>
      if truthy value then
        let splittedSpacing := split backslash value in
        if negb (Nat.eqb (length splittedSpacing) 2)
        then ([spacingNotSupported value], None)
        else ([], Some (parseFloat <$> splittedSpacing))
      else ([], None)
  | None => ([], None)
  end.

End Geometry.

(** ** Sample data sets *)

Definition emptyDataSet : DataSet := MkDataSet [] ∅ ∅ ∅ ∅ ∅.

(** A sequence item holding [d], and a sequence element of such items. *)
Definition itemOf (d : DataSet) : Element :=
  MkElement 0 0 None (Some d) None None.

Definition sequenceOf (ds : list DataSet) : Element :=
  MkElement 0 0 (Some (itemOf <$> ds)) None None None.

Definition withStrings (table : gmap string string) : DataSet :=
  MkDataSet [] table ∅ ∅ ∅ ∅.

Definition withFloatStrings (table : gmap string float) : DataSet :=
  MkDataSet [] ∅ table ∅ ∅ ∅.

Definition withElements (table : gmap string Element) : DataSet :=
  MkDataSet [] ∅ ∅ ∅ ∅ table.

(** The functional group item [subsequence -> [leaf]]. *)
Definition groupItem (subsequence : string) (leaf : DataSet) : DataSet :=
  withElements {[ subsequence := sequenceOf [leaf] ]}.

(** SOP instance UID in the shared functional group only. *)
Definition sharedOnly : DataSet :=
  withElements
    {[ "x52009229" :=
         sequenceOf [groupItem "x2005140f"
                       (withStrings {[ "x00080018" := "1.2.840.1" ]})] ]}.

(** SOP instance UID per frame only (two frames). *)
Definition perFrameOnly : DataSet :=
  withElements
    {[ "x52009230" :=
         sequenceOf
           [groupItem "x2005140f" (withStrings {[ "x00080018" := "1.2.840.10" ]});
            groupItem "x2005140f" (withStrings {[ "x00080018" := "1.2.840.11" ]})] ]}.

(** SOP instance UID in the PET module sequence only. *)
Definition petOnly : DataSet :=
  withElements
    {[ "x00540022" :=
         sequenceOf [withStrings {[ "x00080018" := "1.2.840.2" ]}] ]}.

(** SOP instance UID on the root only. *)
Definition rootOnly : DataSet := withStrings {[ "x00080018" := "1.2.840.3" ]}.

(** The shared functional group encodes the empty string; the root has a
    UID. *)
Definition emptyInShared : DataSet :=
  MkDataSet [] {[ "x00080018" := "1.2.840.3" ]} ∅ ∅ ∅
    {[ "x52009229" :=
         sequenceOf [groupItem "x2005140f"
                       (withStrings {[ "x00080018" := "" ]})] ]}.

(** Rescale intercept both on the root (-1024) and in the shared and
    per-frame groups (5 and 7). *)
Definition interceptEverywhere : DataSet :=
  MkDataSet [] ∅ {[ "x00281052" := (-1024)%float ]} ∅ ∅
    {[ "x52009229" :=
         sequenceOf [groupItem "x00289145"
                       (withFloatStrings {[ "x00281052" := 5%float ]})];
       "x52009230" :=
         sequenceOf [groupItem "x00289145"
                       (withFloatStrings {[ "x00281052" := 7%float ]})] ]}.

(** Rescale intercept in the per-frame group only. *)
Definition interceptPerFrame : DataSet :=
  withElements
    {[ "x52009230" :=
         sequenceOf [groupItem "x00289145"
                       (withFloatStrings {[ "x00281052" := 7%float ]})] ]}.

(** A per-frame group whose only frame has no referenced-segment sequence. *)
Definition noReferencedSegment : DataSet :=
  withElements
    {[ "x52009230" :=
         sequenceOf [groupItem "x00209111" emptyDataSet] ]}.

(** A decoder for native pixel data: the bytes as they are. *)
Definition nativeDecode (pixelData : list Z) (_ : ImageInfo)
    (_ : option string) : Result TypedArray :=
  inr (Integers Uint8Array pixelData).

(** Two frames of 1 x 2 pixels, 8 bits, one sample per pixel: the pixel data
    element is the last four bytes of the buffer. *)
Definition twoFrames : DataSet :=
  MkDataSet [0; 0; 10; 20; 30; 40]
    {[ "x00280004" := "MONOCHROME2" ]} ∅ {[ "x00280008" := 2%float ]}
    {[ "x00280002" := 1; "x00280010" := 1; "x00280011" := 2;
       "x00280100" := 8; "x00280103" := 0 ]}
    {[ "x7fe00010" := MkElement 2 4 None None None None ]}.

(** One sample per pixel with a color palette. *)
Definition paletteColor : DataSet :=
  MkDataSet [7; 8; 9; 6]
    {[ "x00280004" := "PALETTE COLOR" ]} ∅ ∅
    {[ "x00280002" := 1; "x00280010" := 2; "x00280011" := 2;
       "x00280100" := 8; "x00280103" := 0 ]}
    {[ "x7fe00010" := MkElement 0 4 None None None None ]}.

(** Stand-ins for the fragment readers that tell the calls apart. *)
Definition readFrameStub (_ : DataSet) (_ : option Element) (frameIndex : Z)
    (offsetTable : option (list Z)) : Result (list Z) :=
  match offsetTable with
  | None => inr [1; frameIndex]
  | Some table => inr (2 :: frameIndex :: table)
  end.

Definition createTableStub (_ : DataSet) (_ : option Element)
    : Result (list Z) := inr [0; 100].

Definition readFragmentStub (_ : DataSet) (_ : option Element)
    (frameIndex : Z) : Result (list Z) := inr [3; frameIndex].

Definition twoFragments : list Fragment :=
  [MkFragment 0 0 100; MkFragment 108 108 100].

Definition encapsulated (declaredFrames : float) (table : list Z) : DataSet :=
  MkDataSet [] ∅ ∅ {[ "x00280008" := declaredFrames ]} ∅
    {[ "x7fe00010" :=
         MkElement 0 216 None None (Some twoFragments) (Some table) ]}.

(** Color data sets: photometric interpretation and planar configuration. *)
Definition colorDataSet (photometric : string) (planar : Z) : DataSet :=
  MkDataSet [] {[ "x00280004" := photometric ]} ∅ ∅
    {[ "x00280006" := planar; "x00280002" := 3 ]} ∅.

(** Sort records, named by their file. *)
Definition record (name : string)
    (sliceLocation imagePositionZ instanceNumber : option float)
    : DicomFile string :=
  MkDicomFile name name sliceLocation imagePositionZ instanceNumber.

Definition slice3 : DicomFile string := record "slice3" (Some 3%float) None None.
Definition slice1 : DicomFile string := record "slice1" (Some 1%float) None None.
Definition slice2 : DicomFile string := record "slice2" (Some 2%float) None None.

(** No slice location and no image position, instance numbers 2 and 1. *)
Definition instance2 : DicomFile string :=
  record "instance2" None None (Some 2%float).
Definition instance1 : DicomFile string :=
  record "instance1" None None (Some 1%float).

(** No slice location; image positions 5 and 3, instance numbers 1 and 2. *)
Definition positioned5 : DicomFile string :=
  record "positioned5" None (Some 5%float) (Some 1%float).
Definition positioned3 : DicomFile string :=
  record "positioned3" None (Some 3%float) (Some 2%float).



(** A second way to sort: the elements are taken from the left, and each is
    put in front of the first element of the sorted part that it compares
    less than (the place a binary insertion finds in a sorted part). *)
Section LeftInsertion.
Context {A : Type} (comparefn : A → A → float).

Fixpoint insertLast (pivot : A) (sorted : list A) : list A :=
  match sorted with
  | [] => [pivot]
  | x :: rest =>
      if less comparefn pivot x
      then pivot :: sorted
      else x :: insertLast pivot rest
  end.

Definition leftInsertionSort (l : list A) : list A :=
  foldl (λ sorted pivot, insertLast pivot sorted) [] l.
End LeftInsertion.

(** Rescale intercept 0 in the shared functional group only. *)
Definition interceptZeroShared : DataSet :=
  withElements
    {[ "x52009229" :=
         sequenceOf [groupItem "x00289145"
                       (withFloatStrings {[ "x00281052" := 0%float ]})] ]}.

(** Instance number 9 on the root; one frame whose private sequence
    (x2005140f) has an item without instance number. *)
Definition instanceNumberShadowed : DataSet :=
  MkDataSet [] ∅ ∅ {[ "x00200013" := 9%float ]} ∅
    {[ "x52009230" := sequenceOf [groupItem "x2005140f" emptyDataSet] ]}.

(** A decoder that rejects everything. *)
Definition failingDecode (_ : list Z) (_ : ImageInfo) (_ : option string)
    : Result TypedArray :=
  inl (ExternalError "unsupported transfer syntax").

(** YBR_ICT samples in three planes. *)
Definition ybrIctPlanar : DataSet :=
  MkDataSet [1; 2; 3; 4; 5; 6]
    {[ "x00280004" := "YBR_ICT" ]} ∅ ∅
    {[ "x00280002" := 3; "x00280006" := 1; "x00280010" := 1;
       "x00280011" := 2; "x00280100" := 8 ]}
    {[ "x7fe00010" := MkElement 0 6 None None None None ]}.

(** A pixel data element that runs past the end of the buffer. *)
Definition truncatedPixelData : DataSet :=
  MkDataSet [1; 2; 3] ∅ ∅ ∅ ∅
    {[ "x7fe00010" := MkElement 2 4 None None None None ]}.

(** A segment item: recommended display color (65535, 0, 65535) in bytes 2
    to 7 of its buffer, segment number 0, no label, an empty code meaning. *)
Definition segmentItem : DataSet :=
  MkDataSet [9; 9; 255; 255; 0; 0; 255; 255]
    {[ "x00620008" := "MANUAL" ]} ∅ ∅ {[ "x00620004" := 0 ]}
    {[ "x0062000d" := MkElement 2 6 None None None None;
       "x00082218" :=
         sequenceOf [withStrings {[ "x00080102" := "SCT";
                                    "x00080100" := "85756007";
                                    "x00080104" := "" ]}] ]}.

(** A segment sequence of one item with a data set and one without. *)
Definition segmentation : DataSet :=
  withElements
    {[ "x00620002" :=
         MkElement 0 0
           (Some [itemOf segmentItem; MkElement 0 0 None None None None])
           None None None ]}.

(** Stand-ins for the binary readers. *)
Definition noUint32 (_ : DataSet) (_ : string) : option Z := None.
Definition noInt32 (_ : DataSet) (_ : string) : option Z := None.
Definition noDouble (_ : DataSet) (_ : string) : option float := None.

(** A reader in the manner of dicom-parser: [undefined] for an element that
    is missing or empty; otherwise the little-endian value of the 4 bytes at
    [dataOffset + 4 * index], to whatever element they belong, and an error
    when they do not lie in the buffer. *)
Definition readUint32At (ds : DataSet) (tag : string) (index : nat)
    : Result (option Z) :=
  match elements ds !! tag with
  | Some element =>
      if dataLength element =? 0 then inr None
      else
        let position := (Z.to_nat (dataOffset element) + 4 * index)%nat in
        match take 4 (drop position (byteArray ds)) with
        | [b0; b1; b2; b3] =>
            inr (Some (b0 + 256 * b1 + 65536 * b2 + 16777216 * b3))
        | _ =>
            inl (ExternalError
                   "dicomParser.readUint32: attempt to read past end of buffer")
        end
  | None => inr None
  end.

(** Two ultrasound regions, with units code 3 (cm) and 99, and an item
    without data set. *)
Definition ultrasound : DataSet :=
  withElements
    {[ "x00186011" :=
         MkElement 0 0
           (Some [itemOf (MkDataSet [] ∅ ∅ ∅
                            {[ "x00186024" := 3; "x00186026" := 99 ]} ∅);
                  MkElement 0 0 None None None None;
                  itemOf emptyDataSet])
           None None None ]}.

(** One frame whose frame content sequence has a dimension index element of
    [elementLength] bytes at the start of the bytes given. *)
Definition dimensionFrame (bytes : list Z) (elementLength : Z) : DataSet :=
  withElements
    {[ "x52009230" :=
         sequenceOf
           [groupItem "x00209111"
              (MkDataSet bytes ∅ ∅ ∅ ∅
                 {[ "x00209157" :=
                      MkElement 0 elementLength None None None None ]})] ]}.

(** The values 10 and 20, and two bytes more. *)
Definition tenBytes : list Z := [10; 0; 0; 0; 20; 0; 0; 0; 30; 0].

(** The same, followed by the bytes of another element. *)
Definition tenBytesAndMore : list Z := tenBytes ++ [7; 1; 0; 0].

(** Files named by a string; [parseFloat] is not needed by the samples. *)
Definition parseSample (file : string) : Result DataSet :=
  if decide (file = "broken") then inl (ExternalError "not a DICOM file")
  else if decide (file = "a1") then inr (withStrings {[ "x0020000e" := "A" ]})
  else if decide (file = "empty") then inr (withStrings {[ "x0020000e" := "" ]})
  else inr emptyDataSet.

Definition parseFloatStub (_ : string) : float := nan.

(** * Properties *)

(** ** JavaScript helpers *)

Lemma toBoolean_string (v : string) : v ≠ "" → toBoolean (Some v) = true.
Proof. by destruct v. Qed.

(** ** Attribute resolver *)

(** The path walked by [_findInGroupSequence], link by link. *)
Lemma _findInGroupSequence_path ds sequence subsequence index found :
  _findInGroupSequence ds sequence subsequence index = Some found ↔
  ∃ functionalGroupSequence groupItems frameItem frameDataSet
    inSequence inItems firstItem,
    elements ds !! sequence = Some functionalGroupSequence ∧
    items functionalGroupSequence = Some groupItems ∧
    at_index groupItems index = Some frameItem ∧
    dataSet frameItem = Some frameDataSet ∧
    elements frameDataSet !! subsequence = Some inSequence ∧
    items inSequence = Some inItems ∧
    at_index inItems 0 = Some firstItem ∧
    dataSet firstItem = Some found.
Proof.
  unfold _findInGroupSequence. split.
  - intros Hfound.
    destruct (elements ds !! sequence) as [fgs|] eqn:Hfgs; [|done].
    simpl in Hfound.
    destruct (items fgs) as [gi|] eqn:Hgi; [|done]. simpl in Hfound.
    destruct (at_index gi index) as [fi|] eqn:Hfi; [|done]. simpl in Hfound.
    destruct (dataSet fi) as [fd|] eqn:Hfd; [|done]. simpl in Hfound.
    destruct (elements fd !! subsequence) as [ins|] eqn:Hins; [|done].
    simpl in Hfound.
    destruct (items ins) as [ii|] eqn:Hii; [|done]. simpl in Hfound.
    destruct (at_index ii 0) as [first|] eqn:Hfirst; [|done].
    simpl in Hfound.
    by exists fgs, gi, fi, fd, ins, ii, first.
  - intros (fgs & gi & fi & fd & ins & ii & first &
            Hfgs & Hgi & Hfi & Hfd & Hins & Hii & Hfirst & Hfound).
    rewrite Hfgs. simpl. rewrite Hgi. simpl. rewrite Hfi. simpl.
    rewrite Hfd. simpl. rewrite Hins. simpl. rewrite Hii. simpl.
    rewrite Hfirst. simpl. done.
Qed.

Lemma _findInGroupSequence_no_sequence ds sequence subsequence index :
  elements ds !! sequence = None →
  _findInGroupSequence ds sequence subsequence index = None.
Proof. intros Hnone. unfold _findInGroupSequence. by rewrite Hnone. Qed.

(** The value of [_findStringEverywhere], tier by tier. *)
Lemma _findStringEverywhere_tiers ds subsequence tag index :
  let shared := _findStringInGroupSequence ds "x52009229" subsequence tag 0 in
  let perFrame :=
    _findStringInGroupSequence ds "x52009230" subsequence tag index in
  let pet := _findStringInSequence ds "x00540022" tag in
  let direct := string_ ds !! tag in
  _findStringEverywhere ds subsequence tag index =
    if toBoolean shared then shared
    else if toBoolean perFrame then perFrame
    else if toBoolean pet then pet
    else direct.
Proof.
  intros shared perFrame pet direct.
  unfold _findStringEverywhere, _findStringInFrameGroupSequence, jsOr.
  fold shared perFrame pet direct.
  destruct (toBoolean shared) eqn:Hs; rewrite ?Hs; simpl; rewrite ?Hs.
  - done.
  - destruct (toBoolean perFrame) eqn:Hp; rewrite ?Hp; simpl; rewrite ?Hp.
    + done.
    + by destruct (toBoolean pet) eqn:Hpet; rewrite ?Hpet; simpl; rewrite ?Hpet.
Qed.

(** The value of [_findFloatStringInGroupSequence]. *)
Lemma _findFloatStringInGroupSequence_direct ds sequence subsequence tag index v :
  floatString ds !! tag = Some v →
  _findFloatStringInGroupSequence ds sequence subsequence tag index = Some v.
Proof.
  intros Hdirect. unfold _findFloatStringInGroupSequence. by rewrite Hdirect.
Qed.

Lemma _findFloatStringInGroupSequence_group ds sequence subsequence tag index :
  floatString ds !! tag = None →
  _findFloatStringInGroupSequence ds sequence subsequence tag index =
    (groupSequence ← _findInGroupSequence ds sequence subsequence index;
     floatString groupSequence !! tag).
Proof.
  intros Hdirect. unfold _findFloatStringInGroupSequence. rewrite Hdirect.
  by destruct (_findInGroupSequence ds sequence subsequence index).
Qed.

Lemma _findFloatStringInFrameGroupSequence_direct ds subsequence tag index v :
  floatString ds !! tag = Some v →
  _findFloatStringInFrameGroupSequence ds subsequence tag index = Some v.
Proof.
  intros Hdirect. unfold _findFloatStringInFrameGroupSequence, jsOr.
  rewrite !(_findFloatStringInGroupSequence_direct _ _ _ _ _ v Hdirect).
  by destruct (toBoolean (Some v)).
Qed.

Lemma absentOrEmpty_falsy (o : option string) :
  absentOrEmpty o → toBoolean o = false.
Proof. by intros [-> | ->]. Qed.

(** C1 (as amended). For every subsequence tag, primary tag and frame index,
    [_findStringEverywhere] returns the first value that is present and not
    the empty string along the chain: shared functional group (x52009229,
    item 0), per-frame functional group (x52009230, item [index]), PET
    sequence (x00540022, item 0); when none of the three has one, the primary
    tag of the root is returned as it is. A non-empty value of an earlier tier
    is returned whatever the later tiers hold, so a non-empty shared value is
    returned for every frame index. *)
Theorem findStringEverywhere_first_nonempty ds subsequence tag index :
  let shared := _findStringInGroupSequence ds "x52009229" subsequence tag 0 in
  let perFrame :=
    _findStringInGroupSequence ds "x52009230" subsequence tag index in
  let pet := _findStringInSequence ds "x00540022" tag in
  let direct := string_ ds !! tag in
  (∀ sharedSequence sharedItems sharedItem sharedDataSet
     inSequence inItems firstItem found v,
     elements ds !! "x52009229" = Some sharedSequence →
     items sharedSequence = Some sharedItems →
     at_index sharedItems 0 = Some sharedItem →
     dataSet sharedItem = Some sharedDataSet →
     elements sharedDataSet !! subsequence = Some inSequence →
     items inSequence = Some inItems →
     at_index inItems 0 = Some firstItem →
     dataSet firstItem = Some found →
     string_ found !! tag = Some v → v ≠ "" →
     ∀ k, _findStringEverywhere ds subsequence tag k = Some v) ∧
  (∀ v, shared = Some v → v ≠ "" →
        ∀ k, _findStringEverywhere ds subsequence tag k = Some v) ∧
  (absentOrEmpty shared → ∀ v, perFrame = Some v → v ≠ "" →
        _findStringEverywhere ds subsequence tag index = Some v) ∧
  (absentOrEmpty shared → absentOrEmpty perFrame →
        ∀ v, pet = Some v → v ≠ "" →
        _findStringEverywhere ds subsequence tag index = Some v) ∧
  (absentOrEmpty shared → absentOrEmpty perFrame → absentOrEmpty pet →
        _findStringEverywhere ds subsequence tag index = direct).
Proof.
  intros shared perFrame pet direct.
  assert (∀ v, shared = Some v → v ≠ "" →
               ∀ k, _findStringEverywhere ds subsequence tag k = Some v)
    as Hfirst.
  { intros v Hshared Hv k. rewrite _findStringEverywhere_tiers.
    fold shared. rewrite Hshared. by rewrite (toBoolean_string v Hv). }
  split; [|split; [|split; [|split]]].
  - intros fgs gi fi fd ins ii first found v
      Hfgs Hgi Hfi Hfd Hins Hii Hfirstitem Hfound Hv Hne.
    apply Hfirst; [|done].
    subst shared. unfold _findStringInGroupSequence.
    assert (_findInGroupSequence ds "x52009229" subsequence 0 = Some found)
      as ->; [|done].
    apply _findInGroupSequence_path.
    by exists fgs, gi, fi, fd, ins, ii, first.
  - exact Hfirst.
  - intros Hs v Hp Hv. rewrite _findStringEverywhere_tiers.
    fold shared perFrame. rewrite (absentOrEmpty_falsy _ Hs), Hp.
    by rewrite (toBoolean_string v Hv).
  - intros Hs Hp v Hpet Hv. rewrite _findStringEverywhere_tiers.
    fold shared perFrame pet.
    rewrite (absentOrEmpty_falsy _ Hs), (absentOrEmpty_falsy _ Hp), Hpet.
    by rewrite (toBoolean_string v Hv).
  - intros Hs Hp Hpet. rewrite _findStringEverywhere_tiers.
    fold shared perFrame pet direct.
    by rewrite (absentOrEmpty_falsy _ Hs), (absentOrEmpty_falsy _ Hp),
         (absentOrEmpty_falsy _ Hpet).
Qed.

Lemma findStringEverywhere_first_nonempty_witness :
  sopInstanceUID sharedOnly 7 = Some "1.2.840.1" ∧
  sopInstanceUID sharedOnly 0 = Some "1.2.840.1" ∧
  sopInstanceUID perFrameOnly 1 = Some "1.2.840.11" ∧
  sopInstanceUID petOnly 0 = Some "1.2.840.2" ∧
  sopInstanceUID rootOnly 0 = Some "1.2.840.3".
Proof.
  split; [|split; [|split; [|split]]].
  - apply (proj1 (findStringEverywhere_first_nonempty
                    sharedOnly "x2005140f" "x00080018" 0)
             (sequenceOf [groupItem "x2005140f"
                            (withStrings {[ "x00080018" := "1.2.840.1" ]})])
             [itemOf (groupItem "x2005140f"
                        (withStrings {[ "x00080018" := "1.2.840.1" ]}))]
             (itemOf (groupItem "x2005140f"
                        (withStrings {[ "x00080018" := "1.2.840.1" ]})))
             (groupItem "x2005140f"
                (withStrings {[ "x00080018" := "1.2.840.1" ]}))
             (sequenceOf [withStrings {[ "x00080018" := "1.2.840.1" ]}])
             [itemOf (withStrings {[ "x00080018" := "1.2.840.1" ]})]
             (itemOf (withStrings {[ "x00080018" := "1.2.840.1" ]}))
             (withStrings {[ "x00080018" := "1.2.840.1" ]})
             "1.2.840.1");
      try reflexivity; discriminate.
  - apply (proj1 (proj2 (findStringEverywhere_first_nonempty
                           sharedOnly "x2005140f" "x00080018" 0)));
      [reflexivity | discriminate].
  - apply (proj1 (proj2 (proj2 (findStringEverywhere_first_nonempty
                                  perFrameOnly "x2005140f" "x00080018" 1))));
      [left; reflexivity | reflexivity | discriminate].
  - apply (proj1 (proj2 (proj2 (proj2
             (findStringEverywhere_first_nonempty
                petOnly "x2005140f" "x00080018" 0)))));
      [left; reflexivity | left; reflexivity | reflexivity | discriminate].
  - apply (proj2 (proj2 (proj2 (proj2
             (findStringEverywhere_first_nonempty
                rootOnly "x2005140f" "x00080018" 0)))));
      left; reflexivity.
Defined.

(** C1 as stated fails: in [emptyInShared] the shared functional group holds
    a value for the SOP instance UID (the empty string), the earliest tier of
    the chain, and yet the resolver goes on to the later tiers and returns the
    value of the root. *)
Lemma first_present_value_counterexample :
  _findStringInGroupSequence emptyInShared
    "x52009229" "x2005140f" "x00080018" 0 = Some "" ∧
  sopInstanceUID emptyInShared 0 = Some "1.2.840.3" ∧
  ¬ (∀ ds subsequence tag k v,
       _findStringInGroupSequence ds "x52009229" subsequence tag 0 = Some v →
       _findStringEverywhere ds subsequence tag k = Some v).
Proof.
  split; [reflexivity|]. split; [reflexivity|].
  intros Hclaim.
  specialize (Hclaim emptyInShared "x2005140f" "x00080018" 0 "" eq_refl).
  vm_compute in Hclaim. discriminate.
Qed.

(** C5. When no tier yields a value, both resolver variants return the
    absence marker [null] ([None]): not a number, in particular not zero. The
    resolvers are total functions: no input makes them throw. *)
Theorem absent_at_every_tier_is_null ds subsequence tag index :
  (_findStringInGroupSequence ds "x52009229" subsequence tag 0 = None →
   _findStringInGroupSequence ds "x52009230" subsequence tag index = None →
   _findStringInSequence ds "x00540022" tag = None →
   string_ ds !! tag = None →
   _findStringEverywhere ds subsequence tag index = None) ∧
  (floatString ds !! tag = None →
   (groupSequence ← _findInGroupSequence ds "x52009229" subsequence 0;
    floatString groupSequence !! tag) = None →
   (groupSequence ← _findInGroupSequence ds "x52009230" subsequence index;
    floatString groupSequence !! tag) = None →
   _findFloatStringInFrameGroupSequence ds subsequence tag index = None ∧
   _findFloatStringInFrameGroupSequence ds subsequence tag index
     ≠ Some 0%float).
Proof.
  split.
  - intros Hs Hp Hpet Hd. rewrite _findStringEverywhere_tiers.
    by rewrite Hs, Hp, Hpet.
  - intros Hd Hs Hp.
    assert (_findFloatStringInFrameGroupSequence ds subsequence tag index
            = None) as Hnone.
    { unfold _findFloatStringInFrameGroupSequence.
      rewrite !_findFloatStringInGroupSequence_group by done.
      by rewrite Hs, Hp. }
    by rewrite Hnone.
Qed.

Lemma absent_at_every_tier_is_null_witness :
  sopInstanceUID emptyDataSet 3 = None ∧
  rescaleIntercept emptyDataSet 3 = None.
Proof.
  split.
  - apply (proj1 (absent_at_every_tier_is_null
                    emptyDataSet "x2005140f" "x00080018" 3)); reflexivity.
  - apply (proj2 (absent_at_every_tier_is_null
                    emptyDataSet "x00289145" "x00281052" 3)); reflexivity.
Defined.

(** C6. At every frame index, a rescale intercept, rescale slope, window
    center or window width held by the flat root tag is the value returned,
    whatever the shared and per-frame functional groups hold; the groups
    decide the result only when the direct read is absent, and then the
    result is the shared group's value or else the per-frame group's. *)
Theorem direct_numeric_read_first ds frameIndex :
  (∀ v, floatString ds !! "x00281052" = Some v →
        rescaleIntercept ds frameIndex = Some v) ∧
  (∀ v, floatString ds !! "x00281053" = Some v →
        rescaleSlope ds frameIndex = Some v) ∧
  (∀ v, floatString ds !! "x00281050" = Some v →
        windowCenter ds frameIndex = Some v) ∧
  (∀ v, floatString ds !! "x00281051" = Some v →
        windowWidth ds frameIndex = Some v) ∧
  (∀ subsequence tag,
     floatString ds !! tag = None →
     _findFloatStringInFrameGroupSequence ds subsequence tag frameIndex =
       jsOr (groupSequence ← _findInGroupSequence ds "x52009229" subsequence 0;
             floatString groupSequence !! tag)
            (groupSequence ←
               _findInGroupSequence ds "x52009230" subsequence frameIndex;
             floatString groupSequence !! tag)).
Proof.
  split; [|split; [|split; [|split]]];
    try (intros v Hdirect;
         by apply _findFloatStringInFrameGroupSequence_direct).
  intros subsequence tag Hdirect.
  unfold _findFloatStringInFrameGroupSequence.
  by rewrite !_findFloatStringInGroupSequence_group.
Qed.

Lemma direct_numeric_read_first_witness :
  rescaleIntercept interceptEverywhere 0 = Some (-1024)%float ∧
  rescaleIntercept interceptPerFrame 0 = Some 7%float.
Proof.
  split.
  - apply (proj1 (direct_numeric_read_first interceptEverywhere 0)).
    reflexivity.
  - unfold rescaleIntercept.
    rewrite (proj2 (proj2 (proj2 (proj2
               (direct_numeric_read_first interceptPerFrame 0))))
               "x00289145" "x00281052" eq_refl).
    reflexivity.
Defined.

(** C10. [referencedSegmentNumber] returns the number -1, not [null], when
    the per-frame functional group sequence (x52009230), its item at the
    frame index, or the referenced-segment sequence (x0062000a) of that item
    is missing. On a data set where the resolver-based accessors find nothing
    and return [null], it still returns -1. *)
Theorem referencedSegmentNumber_sentinel ds frameIndex :
  (_findInGroupSequence ds "x52009230" "x0062000a" frameIndex = None →
   referencedSegmentNumber ds frameIndex = Some (-1)) ∧
  (elements ds !! "x52009230" = None →
   referencedSegmentNumber ds frameIndex = Some (-1)) ∧
  (∀ perFrameSequence frameItems,
     elements ds !! "x52009230" = Some perFrameSequence →
     items perFrameSequence = Some frameItems →
     at_index frameItems frameIndex = None →
     referencedSegmentNumber ds frameIndex = Some (-1)) ∧
  (∀ perFrameSequence frameItems frameItem frameDataSet,
     elements ds !! "x52009230" = Some perFrameSequence →
     items perFrameSequence = Some frameItems →
     at_index frameItems frameIndex = Some frameItem →
     dataSet frameItem = Some frameDataSet →
     elements frameDataSet !! "x0062000a" = None →
     referencedSegmentNumber ds frameIndex = Some (-1)) ∧
  (elements ds !! "x52009229" = None →
   elements ds !! "x52009230" = None →
   elements ds !! "x00540022" = None →
   string_ ds !! "x00080018" = None →
   floatString ds !! "x00281052" = None →
   sopInstanceUID ds frameIndex = None ∧
   rescaleIntercept ds frameIndex = None ∧
   referencedSegmentNumber ds frameIndex = Some (-1)).
Proof.
  assert (∀ d k, _findInGroupSequence d "x52009230" "x0062000a" k = None →
                 referencedSegmentNumber d k = Some (-1)) as Hsentinel.
  { intros d k Hnone. unfold referencedSegmentNumber. by rewrite Hnone. }
  split; [apply Hsentinel|].
  split.
  { intros Hnone. apply Hsentinel.
    by apply _findInGroupSequence_no_sequence. }
  split.
  { intros fgs gi Hfgs Hgi Hfi. apply Hsentinel.
    unfold _findInGroupSequence. rewrite Hfgs. simpl. rewrite Hgi. simpl.
    by rewrite Hfi. }
  split.
  { intros fgs gi fi fd Hfgs Hgi Hfi Hfd Hsub. apply Hsentinel.
    unfold _findInGroupSequence. rewrite Hfgs. simpl. rewrite Hgi. simpl.
    rewrite Hfi. simpl. rewrite Hfd. simpl. by rewrite Hsub. }
  intros Hshared HperFrame Hpet Hstring Hfloat.
  split; [|split].
  - unfold sopInstanceUID. rewrite _findStringEverywhere_tiers.
    unfold _findStringInGroupSequence, _findStringInSequence.
    rewrite !_findInGroupSequence_no_sequence by done.
    rewrite Hpet. simpl. done.
  - unfold rescaleIntercept, _findFloatStringInFrameGroupSequence.
    rewrite !_findFloatStringInGroupSequence_group by done.
    by rewrite !_findInGroupSequence_no_sequence.
  - apply Hsentinel. by apply _findInGroupSequence_no_sequence.
Qed.

Lemma referencedSegmentNumber_sentinel_witness :
  referencedSegmentNumber emptyDataSet 2 = Some (-1) ∧
  referencedSegmentNumber noReferencedSegment 0 = Some (-1) ∧
  referencedSegmentNumber noReferencedSegment 1 = Some (-1) ∧
  sopInstanceUID emptyDataSet 2 = None.
Proof.
  split; [|split; [|split]].
  - apply (proj1 (proj2 (referencedSegmentNumber_sentinel emptyDataSet 2))).
    reflexivity.
  - apply (proj1 (proj2 (proj2 (proj2
             (referencedSegmentNumber_sentinel noReferencedSegment 0))))
             (sequenceOf [groupItem "x00209111" emptyDataSet])
             [itemOf (groupItem "x00209111" emptyDataSet)]
             (itemOf (groupItem "x00209111" emptyDataSet))
             (groupItem "x00209111" emptyDataSet)); reflexivity.
  - apply (proj1 (proj2 (proj2
             (referencedSegmentNumber_sentinel noReferencedSegment 1)))
             (sequenceOf [groupItem "x00209111" emptyDataSet])
             [itemOf (groupItem "x00209111" emptyDataSet)]); reflexivity.
  - apply (proj2 (proj2 (proj2 (proj2
             (referencedSegmentNumber_sentinel emptyDataSet 2)))));
      reflexivity.
Defined.

(** ** Pixel locator *)

(** C4. [getEncapsulatedImageFrame] takes one of three ways: with a non-empty
    basic offset table the frame is read through that table; otherwise, when
    the declared number of frames (x00280008) differs from the number of
    fragments, a JPEG basic offset table is created first and the frame is
    read through it; otherwise the frame is read from the fragments by the
    frame index. *)
Theorem getEncapsulatedImageFrame_decision
    (readEncapsulatedImageFrame :
       DataSet → option Element → Z → option (list Z) → Result (list Z))
    (createJPEGBasicOffsetTable : DataSet → option Element → Result (list Z))
    (readEncapsulatedPixelDataFromFragments :
       DataSet → option Element → Z → Result (list Z))
    ds frameIndex :
  let pixelDataElement := elements ds !! "x7fe00010" in
  let declaredFrames := intString ds !! "x00280008" in
  let fragmentCount :=
    fs ← pixelDataElement ≫= fragments;
    Some (Z2number (Z.of_nat (length fs))) in
  let frame :=
    getEncapsulatedImageFrame readEncapsulatedImageFrame
      createJPEGBasicOffsetTable readEncapsulatedPixelDataFromFragments
      ds frameIndex in
  (∀ table, pixelDataElement ≫= basicOffsetTable = Some table → table ≠ [] →
     frame = readEncapsulatedImageFrame ds pixelDataElement frameIndex None) ∧
  (pixelDataElement ≫= basicOffsetTable = None ∨
   pixelDataElement ≫= basicOffsetTable = Some [] →
   strictNotEqual declaredFrames fragmentCount = true →
     frame =
       match createJPEGBasicOffsetTable ds pixelDataElement with
       | inl e => inl e
       | inr table =>
           readEncapsulatedImageFrame ds pixelDataElement frameIndex
             (Some table)
       end) ∧
  (pixelDataElement ≫= basicOffsetTable = None ∨
   pixelDataElement ≫= basicOffsetTable = Some [] →
   strictNotEqual declaredFrames fragmentCount = false →
     frame =
       readEncapsulatedPixelDataFromFragments ds pixelDataElement frameIndex).
Proof.
  intros pixelDataElement declaredFrames fragmentCount frame.
  assert (∀ table, pixelDataElement ≫= basicOffsetTable = Some table →
                   table ≠ [] →
                   basicOffsetTableIsNotEmpty pixelDataElement = true)
    as Hfull.
  { intros table Htable Hne. unfold basicOffsetTableIsNotEmpty.
    rewrite Htable. by destruct table. }
  assert (pixelDataElement ≫= basicOffsetTable = None ∨
          pixelDataElement ≫= basicOffsetTable = Some [] →
          basicOffsetTableIsNotEmpty pixelDataElement = false) as Hempty.
  { unfold basicOffsetTableIsNotEmpty. by intros [-> | ->]. }
  subst frame. unfold getEncapsulatedImageFrame, framesAreFragmented.
  fold pixelDataElement declaredFrames fragmentCount.
  split; [|split].
  - intros table Htable Hne. by rewrite (Hfull table Htable Hne).
  - intros Htable Hdiffer. by rewrite (Hempty Htable), Hdiffer.
  - intros Htable Hsame. by rewrite (Hempty Htable), Hsame.
Qed.

Lemma getEncapsulatedImageFrame_decision_witness :
  getEncapsulatedImageFrame readFrameStub createTableStub readFragmentStub
    (encapsulated 2 [0; 108]) 1 = inr [1; 1] ∧
  getEncapsulatedImageFrame readFrameStub createTableStub readFragmentStub
    (encapsulated 1 []) 0 = inr [2; 0; 0; 100] ∧
  getEncapsulatedImageFrame readFrameStub createTableStub readFragmentStub
    (encapsulated 2 []) 1 = inr [3; 1].
Proof.
  split; [|split].
  - apply (proj1 (getEncapsulatedImageFrame_decision
                    readFrameStub createTableStub readFragmentStub
                    (encapsulated 2 [0; 108]) 1) [0; 108]);
      [reflexivity | discriminate].
  - apply (proj1 (proj2 (getEncapsulatedImageFrame_decision
                           readFrameStub createTableStub readFragmentStub
                           (encapsulated 1 []) 0)));
      [right; reflexivity | reflexivity].
  - apply (proj2 (proj2 (getEncapsulatedImageFrame_decision
                           readFrameStub createTableStub readFragmentStub
                           (encapsulated 2 []) 1)));
      [right; reflexivity | reflexivity].
Defined.

(** ** Pixel decoder and extraction *)

(** C2 (as amended). [_decodePixelData] does not use the frame index: for
    every frame index the decoder is handed the whole pixel data element,
    bytes [dataOffset .. dataOffset + length) of the buffer, so
    [extractPixelData] gives the same result for every frame index. *)
Theorem decode_takes_whole_element_for_every_frame
    (decode : list Z → ImageInfo → option string → Result TypedArray)
    ds frameIndex :
  _decodePixelData decode ds frameIndex = _decodePixelData decode ds 0 ∧
  extractPixelData decode ds frameIndex = extractPixelData decode ds 0 ∧
  (∀ pixelDataElement,
     elements ds !! "x7fe00010" = Some pixelDataElement →
     0 <= dataOffset pixelDataElement →
     0 <= dataLength pixelDataElement →
     dataOffset pixelDataElement + dataLength pixelDataElement
       <= Z.of_nat (length (byteArray ds)) →
     _decodePixelData decode ds frameIndex =
       decode
         (take (Z.to_nat (dataLength pixelDataElement))
            (drop (Z.to_nat (dataOffset pixelDataElement)) (byteArray ds)))
         {| info_rows := rows ds; info_columns := columns ds;
            info_bitsAllocated := bitsAllocated ds;
            info_samplesPerPixel := samplesPerPixel ds;
            info_signed := bool_decide (pixelRepresentation ds = Some 1) |}
         (transferSyntaxUID ds)).
Proof.
  split; [reflexivity|]. split; [reflexivity|].
  intros pixelDataElement Helement Hoffset Hlength Hend.
  unfold _decodePixelData, newUint8Array. rewrite Helement.
  assert ((0 <=? dataOffset pixelDataElement) &&
          (0 <=? dataLength pixelDataElement) &&
          (dataOffset pixelDataElement + dataLength pixelDataElement
             <=? Z.of_nat (length (byteArray ds))) = true) as ->; [|done].
  rewrite !andb_true_iff, !Z.leb_le. done.
Qed.

Lemma decode_takes_whole_element_for_every_frame_witness :
  _decodePixelData nativeDecode twoFrames 1 =
    inr (Integers Uint8Array [10; 20; 30; 40]).
Proof.
  rewrite (proj2 (proj2 (decode_takes_whole_element_for_every_frame
                           nativeDecode twoFrames 1))
             (MkElement 2 4 None None None None));
    [reflexivity | reflexivity | simpl; lia | simpl; lia | simpl; lia].
Defined.

(** C2 as stated fails: [twoFrames] holds two native frames of two bytes
    each, so the byte range of frame 1 would begin at offset
    1 * 8 * 1 * 2 * 1 / 8 = 2 of the pixel data element, bytes [30; 40]; the
    decoder is handed the range that begins at offset 0, bytes
    [10; 20; 30; 40], the same as for frame 0. *)
Lemma frame_offset_counterexample :
  specFrameOffset 1 8 1 2 1 = 2 ∧
  outcome (extractPixelData nativeDecode twoFrames 1) =
    inr (Integers Uint8Array [10; 20; 30; 40]) ∧
  outcome (extractPixelData nativeDecode twoFrames 1) ≠
    inr (Integers Uint8Array [30; 40]) ∧
  extractPixelData nativeDecode twoFrames 0 =
    extractPixelData nativeDecode twoFrames 1.
Proof.
  split; [reflexivity|]. split; [reflexivity|]. split; [|reflexivity].
  vm_compute. discriminate.
Qed.

Lemma numberOfChannels_one ds :
  (∀ name, photometricInterpretation ds = Some name → name ∉ colorNames) →
  numberOfChannels ds = 1.
Proof.
  intros Hother. unfold numberOfChannels, isNot.
  destruct (photometricInterpretation ds) as [name|]; [|done].
  specialize (Hother name eq_refl).
  rewrite !bool_decide_eq_false_2; [done|..];
    intros [= ->]; apply Hother; unfold colorNames; set_solver.
Qed.

Lemma numberOfChannels_three ds name :
  photometricInterpretation ds = Some name → name ∈ colorNames →
  numberOfChannels ds = 3.
Proof.
  intros Hname Hcolor. unfold numberOfChannels. rewrite Hname.
  unfold colorNames in Hcolor.
  repeat (apply elem_of_cons in Hcolor as [-> | Hcolor]; [reflexivity|]).
  by apply elem_of_nil in Hcolor.
Qed.

(** C3 (as amended). The gate of [extractPixelData] is the photometric
    interpretation, not [samplesPerPixel]: when the photometric interpretation
    is absent or none of RGB, PALETTE COLOR, YBR_FULL, YBR_FULL_422,
    YBR_PARTIAL_422, YBR_PARTIAL_420, YBR_RCT, the decoded samples are
    returned unchanged, with no conversion and no color-space error, whatever
    [samplesPerPixel] is; when it is one of these names, the decoded samples
    go through [_convertColorSpace], whatever [samplesPerPixel] is. *)
Theorem extractPixelData_gate_is_photometric
    (decode : list Z → ImageInfo → option string → Result TypedArray)
    ds frameIndex :
  ((∀ name, photometricInterpretation ds = Some name → name ∉ colorNames) →
   extractPixelData decode ds frameIndex =
     lift (_decodePixelData decode ds frameIndex)) ∧
  (∀ name, photometricInterpretation ds = Some name → name ∈ colorNames →
   extractPixelData decode ds frameIndex =
     bind (lift (_decodePixelData decode ds frameIndex))
          (_convertColorSpace ds)).
Proof.
  split.
  - intros Hother. unfold extractPixelData.
    rewrite (numberOfChannels_one ds Hother). simpl.
    unfold bind, lift, ret.
    by destruct (_decodePixelData decode ds frameIndex).
  - intros name Hname Hcolor. unfold extractPixelData.
    by rewrite (numberOfChannels_three ds name Hname Hcolor).
Qed.

Lemma extractPixelData_gate_is_photometric_witness :
  extractPixelData nativeDecode twoFrames 0 =
    lift (_decodePixelData nativeDecode twoFrames 0) ∧
  extractPixelData nativeDecode paletteColor 0 =
    bind (lift (_decodePixelData nativeDecode paletteColor 0))
         (_convertColorSpace paletteColor).
Proof.
  split.
  - apply (proj1 (extractPixelData_gate_is_photometric
                    nativeDecode twoFrames 0)).
    intros name [= <-]. apply (bool_decide_unpack _). vm_compute. exact I.
  - apply (proj2 (extractPixelData_gate_is_photometric
                    nativeDecode paletteColor 0) "PALETTE COLOR");
      [reflexivity | unfold colorNames; set_solver].
Defined.

(** C3 as stated fails: [paletteColor] has [samplesPerPixel] = 1 and decodes
    to four samples, yet [extractPixelData] raises the color-space error. *)
Lemma single_sample_passthrough_counterexample :
  samplesPerPixel paletteColor = Some 1 ∧
  _decodePixelData nativeDecode paletteColor 0 =
    inr (Integers Uint8Array [7; 8; 9; 6]) ∧
  outcome (extractPixelData nativeDecode paletteColor 0) =
    inl (PhotometricNotSupported (Some "PALETTE COLOR")).
Proof. split; [reflexivity|]. split; reflexivity. Qed.

(** ** Color normalizer *)

(** A loop that keeps an invariant indexed by the pass count, and whose guard
    fails before [bound] passes, ends with the guard false within
    [bound] passes. *)
Lemma forLoop_invariant {S : Type} (I : nat → S → Prop)
    (guard : S → bool) (body : S → S) (bound : nat) :
  (∀ j s, I j s → guard s = true → (j < bound)%nat ∧ I (Datatypes.S j) (body s)) →
  ∀ fuel j s, I j s → (bound ≤ j + fuel)%nat →
    ∃ j', I j' (forLoop fuel guard body s) ∧
          guard (forLoop fuel guard body s) = false.
Proof.
  intros Hstep fuel. induction fuel as [|fuel IH]; intros j s Hinv Hfuel; simpl.
  - exists j. split; [done|].
    destruct (guard s) eqn:Hguard; [|done].
    destruct (Hstep j s Hinv Hguard) as [Hlt _]. lia.
  - destruct (guard s) eqn:Hguard.
    + destruct (Hstep j s Hinv Hguard) as [_ Hnext].
      apply (IH (Datatypes.S j) (body s) Hnext). lia.
    + by exists j.
Qed.

(** The guard [i < length / 3]. *)
Lemma guard_pixels (len i : nat) :
  negb (Qle_bool (inject_Z (Z.of_nat len) / 3) (inject_Z (Z.of_nat i))) = true
  ↔ (3 * i < len)%nat.
Proof.
  rewrite negb_true_iff. unfold Qle_bool. simpl.
  rewrite Z.leb_gt. lia.
Qed.

Lemma ybrGuard_spec (len : nat) (s : YbrLoop) :
  ybrGuard (inject_Z (Z.of_nat len) / 3) s = true ↔ (3 * ybr_i s < len)%nat.
Proof. apply guard_pixels. Qed.

Lemma planarGuard_spec (len : nat) (s : PlanarLoop) :
  planarGuard (inject_Z (Z.of_nat len) / 3) s = true
  ↔ (3 * planar_i s < len)%nat.
Proof. apply guard_pixels. Qed.

Lemma newArrayOfSameClass_supported cls data :
  cls ∈ supportedClasses →
  newArrayOfSameClass (Integers cls data) =
    Some (cls, data, replicate (length data) 0).
Proof.
  unfold supportedClasses. intros Hcls.
  repeat (apply elem_of_cons in Hcls as [-> | Hcls]; [reflexivity|]).
  by apply elem_of_nil in Hcls.
Qed.

Lemma newArrayOfSameClass_unsupported uncompressedData :
  unsupported uncompressedData → newArrayOfSameClass uncompressedData = None.
Proof.
  destruct uncompressedData as [cls data| |]; [|done..].
  simpl. intros Hcls.
  repeat (apply elem_of_cons in Hcls as [-> | Hcls]; [reflexivity|]).
  by apply elem_of_nil in Hcls.
Qed.

Lemma ybrBody_invariant cls data j s :
  ybrInvariant cls data j s →
  ybrGuard (inject_Z (Z.of_nat (length data)) / 3) s = true →
  (j < length data)%nat ∧ ybrInvariant cls data (S j) (ybrBody cls data s).
Proof.
  intros (Hi & Hybr & Hrgba & Hlen & Hdone) Hguard.
  apply ybrGuard_spec in Hguard. rewrite Hi in Hguard.
  split; [lia|].
  unfold ybrInvariant, ybrBody, assignNumber. simpl.
  rewrite Hybr, Hrgba, !length_insert.
  split; [lia|]. split; [lia|]. split; [lia|]. split; [done|].
  intros p Hp.
  destruct (decide (p = j)) as [-> | Hne].
  - unfold ybrPixel. simpl. split; [|split]; intros Hin.
    + rewrite !list_lookup_insert_ne by lia.
      by rewrite list_lookup_insert_eq by lia.
    + rewrite list_lookup_insert_ne by lia.
      by rewrite list_lookup_insert_eq by (rewrite length_insert; lia).
    + by rewrite list_lookup_insert_eq by (rewrite !length_insert; lia).
  - assert (p < j)%nat as Hlt by lia.
    destruct (Hdone p Hlt) as (Hr & Hg & Hb).
    split; [|split]; intros Hin;
      rewrite !list_lookup_insert_ne by lia; auto.
Qed.

Lemma ybrFullToRgb_pixels cls data :
  length (ybrFullToRgb cls data (replicate (length data) 0)) = length data ∧
  ∀ i, (3 * i + 2 < length data)%nat →
    let rgbData := ybrFullToRgb cls data (replicate (length data) 0) in
    rgbData !! (3 * i)%nat = Some (ybrPixel cls data i).1.1 ∧
    rgbData !! (3 * i + 1)%nat = Some (ybrPixel cls data i).1.2 ∧
    rgbData !! (3 * i + 2)%nat = Some (ybrPixel cls data i).2.
Proof.
  unfold ybrFullToRgb.
  destruct (forLoop_invariant (ybrInvariant cls data)
              (ybrGuard (inject_Z (Z.of_nat (length data)) / 3))
              (ybrBody cls data) (length data)
              (ybrBody_invariant cls data)
              (S (length data)) 0%nat
              {| ybr_rgbData := replicate (length data) 0; ybrIndex := 0;
                 ybr_rgbaIndex := 0; ybr_i := 0 |})
    as (j & (Hi & _ & _ & Hlen & Hdone) & Hguard).
  { unfold ybrInvariant. simpl. rewrite length_replicate.
    repeat split; try done; lia. }
  { lia. }
  split; [done|].
  intros i Hin. simpl.
  assert (¬ (3 * j < length data)%nat) as Hend.
  { intros Hlt. rewrite <- Hi in Hlt. apply ybrGuard_spec in Hlt.
    congruence. }
  destruct (Hdone i ltac:(lia)) as (Hr & Hg & Hb).
  split; [|split]; [apply Hr | apply Hg | apply Hb]; lia.
Qed.

Lemma _convertColorSpace_ybr_full ds uncompressedData :
  photometricInterpretation ds = Some "YBR_FULL" →
  outcome (_convertColorSpace ds uncompressedData) =
    match newArrayOfSameClass uncompressedData with
    | Some (cls, data, rgbData) =>
        inr (Integers cls (ybrFullToRgb cls data rgbData))
    | None => inl UnsuportedTypedArray
    end.
Proof.
  intros Hybr. unfold _convertColorSpace. rewrite Hybr.
  change (truthy "YBR_FULL" && _interpretAsRGB "YBR_FULL") with false.
  destruct (planarConfiguration ds) as [configuration|]; simpl;
    by destruct (newArrayOfSameClass uncompressedData) as [[[cls data] rgb]|].
Qed.

Lemma neutral_gray cls :
  cls ∈ [Uint8Array; Int16Array; Uint16Array] →
  toElement cls (truncate
    (red (Z2number 128) (Z2number 128) (Z2number 128))) = 128 ∧
  toElement cls (truncate
    (green (Z2number 128) (Z2number 128) (Z2number 128))) = 128 ∧
  toElement cls (truncate
    (blue (Z2number 128) (Z2number 128) (Z2number 128))) = 128.
Proof.
  intros Hcls.
  repeat (apply elem_of_cons in Hcls as [-> | Hcls];
          [by vm_compute|]).
  by apply elem_of_nil in Hcls.
Qed.

(** C7 (as amended). With photometric interpretation exactly YBR_FULL and
    samples in an Int8Array, Uint8Array, Int16Array or Uint16Array,
    [_convertColorSpace] returns an array of the same class and length in
    which the three samples (Y, Cb, Cr) of each pixel are replaced by
    R = Y + 1.402 (Cr - 128), G = Y - 0.34414 (Cb - 128) - 0.71414 (Cr - 128),
    B = Y + 1.772 (Cb - 128), computed in double precision and then stored in
    the integer array: truncated toward zero and wrapped to the range of the
    class, not clamped. A pixel (128, 128, 128) of an array that can hold 128
    yields (128, 128, 128). Any other typed array raises the error
    'unsuported typed array'. *)
Theorem ybr_full_conversion ds uncompressedData :
  photometricInterpretation ds = Some "YBR_FULL" →
  (∀ cls data,
     uncompressedData = Integers cls data → cls ∈ supportedClasses →
     ∃ rgbData,
       outcome (_convertColorSpace ds uncompressedData)
         = inr (Integers cls rgbData) ∧
       length rgbData = length data ∧
       (∀ i y cb cr,
          data !! (3 * i)%nat = Some y →
          data !! (3 * i + 1)%nat = Some cb →
          data !! (3 * i + 2)%nat = Some cr →
          rgbData !! (3 * i)%nat =
            Some (toElement cls (truncate
                    (Z2number y + 1.402 * (Z2number cr - 128))%float)) ∧
          rgbData !! (3 * i + 1)%nat =
            Some (toElement cls (truncate
                    (Z2number y - 0.34414 * (Z2number cb - 128)
                       - 0.71414 * (Z2number cr - 128))%float)) ∧
          rgbData !! (3 * i + 2)%nat =
            Some (toElement cls (truncate
                    (Z2number y + 1.772 * (Z2number cb - 128))%float))) ∧
       (∀ i,
          cls ≠ Int8Array →
          data !! (3 * i)%nat = Some 128 →
          data !! (3 * i + 1)%nat = Some 128 →
          data !! (3 * i + 2)%nat = Some 128 →
          rgbData !! (3 * i)%nat = Some 128 ∧
          rgbData !! (3 * i + 1)%nat = Some 128 ∧
          rgbData !! (3 * i + 2)%nat = Some 128)) ∧
  (unsupported uncompressedData →
   outcome (_convertColorSpace ds uncompressedData)
     = inl UnsuportedTypedArray).
Proof.
  intros Hybr. split.
  - intros cls data -> Hcls.
    exists (ybrFullToRgb cls data (replicate (length data) 0)).
    rewrite (_convertColorSpace_ybr_full ds _ Hybr),
      (newArrayOfSameClass_supported cls data Hcls).
    destruct (ybrFullToRgb_pixels cls data) as [Hlen Hpixels].
    split; [done|]. split; [done|].
    assert (∀ i y cb cr,
              data !! (3 * i)%nat = Some y →
              data !! (3 * i + 1)%nat = Some cb →
              data !! (3 * i + 2)%nat = Some cr →
              (3 * i + 2 < length data)%nat ∧
              ybrPixel cls data i =
                (toElement cls (truncate
                   (red (Z2number y) (Z2number cb) (Z2number cr))),
                 toElement cls (truncate
                   (green (Z2number y) (Z2number cb) (Z2number cr))),
                 toElement cls (truncate
                   (blue (Z2number y) (Z2number cb) (Z2number cr)))))
      as Hpixel.
    { intros i y cb cr Hy Hcb Hcr. split.
      - by apply lookup_lt_Some in Hcr.
      - unfold ybrPixel. by rewrite Hy, Hcb, Hcr. }
    split.
    + intros i y cb cr Hy Hcb Hcr.
      destruct (Hpixel i y cb cr Hy Hcb Hcr) as [Hin Heq].
      destruct (Hpixels i Hin) as (Hr & Hg & Hb).
      rewrite Heq in Hr, Hg, Hb. done.
    + intros i Hint8 Hy Hcb Hcr.
      destruct (Hpixel i 128 128 128 Hy Hcb Hcr) as [Hin Heq].
      destruct (Hpixels i Hin) as (Hr & Hg & Hb).
      rewrite Heq in Hr, Hg, Hb. cbn [fst snd] in Hr, Hg, Hb.
      assert (cls ∈ [Uint8Array; Int16Array; Uint16Array]) as Hwide.
      { unfold supportedClasses in Hcls.
        apply elem_of_cons in Hcls as [-> | Hcls]; done. }
      destruct (neutral_gray cls Hwide) as (Hred & Hgreen & Hblue).
      by rewrite Hr, Hg, Hb, Hred, Hgreen, Hblue.
  - intros Hunsupported.
    rewrite (_convertColorSpace_ybr_full ds _ Hybr).
    by rewrite (newArrayOfSameClass_unsupported _ Hunsupported).
Qed.

Lemma ybr_full_conversion_witness :
  ∃ rgbData,
    outcome (_convertColorSpace (colorDataSet "YBR_FULL" 0)
               (Integers Uint8Array [128; 128; 128]))
      = inr (Integers Uint8Array rgbData) ∧
    length rgbData = 3%nat ∧
    rgbData !! 0%nat = Some 128 ∧
    rgbData !! 1%nat = Some 128 ∧
    rgbData !! 2%nat = Some 128.
Proof.
  destruct (proj1 (ybr_full_conversion (colorDataSet "YBR_FULL" 0)
                     (Integers Uint8Array [128; 128; 128]) eq_refl)
              Uint8Array [128; 128; 128] eq_refl)
    as (rgbData & Hout & Hlen & _ & Hgray).
  { unfold supportedClasses. repeat constructor. }
  exists rgbData. split; [exact Hout|]. split; [exact Hlen|].
  apply (Hgray 0%nat); [discriminate | reflexivity..].
Defined.

(** C7 as stated fails: for the Uint8Array pixel (Y, Cb, Cr) = (255, 128,
    255) the formula gives R = 433.054 and G = 164.30422; the array returned
    holds R = 177 (433 wrapped to 8 bits) and G = 164. *)
Lemma ybr_formula_counterexample :
  truncate (red (Z2number 255) (Z2number 128) (Z2number 255)) = 433 ∧
  outcome (_convertColorSpace (colorDataSet "YBR_FULL" 0)
             (Integers Uint8Array [255; 128; 255]))
    = inr (Integers Uint8Array [177; 164; 255]).
Proof. split; by vm_compute. Qed.

(** Index arithmetic of the plane-to-pixel loop. *)
Lemma integerIndex_quotient (a : Z) (d : positive) (m : nat) :
  a = Z.of_nat m * Z.pos d → integerIndex (a # d) = Some m.
Proof.
  intros ->. unfold integerIndex. simpl.
  rewrite Z.mod_mul by lia. rewrite Z.div_mul by lia.
  rewrite Z.eqb_refl. simpl.
  assert ((0 <=? Z.of_nat m * Z.pos d) = true) as -> by (apply Z.leb_le; lia).
  by rewrite Nat2Z.id.
Qed.

Lemma integerIndex_inv (q : Q) (m : nat) :
  integerIndex q = Some m → Qnum q = Z.of_nat m * Z.pos (Qden q).
Proof.
  unfold integerIndex.
  destruct (Qnum q mod Z.pos (Qden q) =? 0) eqn:Hmod; [|done].
  destruct (0 <=? Qnum q) eqn:Hpos; [|done]. simpl. intros [= <-].
  apply Z.eqb_eq in Hmod. apply Z.leb_le in Hpos.
  rewrite Z2Nat.id by (apply Z.div_pos; lia).
  pose proof (Z.div_mod (Qnum q) (Z.pos (Qden q)) ltac:(lia)). lia.
Qed.

Lemma integerIndex_numPixels (n : nat) :
  integerIndex (inject_Z (Z.of_nat (3 * n)) / 3) = Some n.
Proof. apply integerIndex_quotient. simpl. lia. Qed.

Lemma integerIndex_twice_numPixels (n : nat) :
  integerIndex (inject_Z (Z.of_nat (3 * n)) / 3 * 2) = Some (2 * n)%nat.
Proof. apply integerIndex_quotient. simpl. lia. Qed.

Lemma integerIndex_succ (q : Q) (m : nat) :
  integerIndex q = Some m → integerIndex (q + 1) = Some (S m).
Proof.
  intros Hq%integerIndex_inv. destruct q as [a d]. simpl in Hq.
  apply integerIndex_quotient. simpl. lia.
Qed.

Lemma toElement_inRange cls z : inRange cls z → toElement cls z = z.
Proof.
  assert (∀ bits, 0 < bits → -2 ^ (bits - 1) <= z < 2 ^ (bits - 1) →
                  ToInt bits z = z) as Hsigned.
  { intros bits Hbits Hrange. unfold ToInt.
    assert (2 ^ bits = 2 * 2 ^ (bits - 1)) as Hpow.
    { rewrite <- Z.pow_succ_r by lia. f_equal. lia. }
    destruct (Z.neg_nonneg_cases z) as [Hneg | Hpos].
    - rewrite <- (Z.mod_add z 1 (2 ^ bits)) by lia.
      rewrite Z.mod_small by lia.
      destruct (z + 1 * 2 ^ bits <? 2 ^ (bits - 1)) eqn:Hlt; [|lia].
      apply Z.ltb_lt in Hlt. lia.
    - rewrite Z.mod_small by lia.
      destruct (z <? 2 ^ (bits - 1)) eqn:Hlt; [done|].
      apply Z.ltb_ge in Hlt. lia. }
  destruct cls; simpl; intros Hrange;
    try (apply Hsigned; simpl; lia);
    try (unfold ToUint; apply Z.mod_small; simpl; lia).
  lia.
Qed.

Lemma planarBody_invariant cls data n j s :
  length data = (3 * n)%nat →
  planarInvariant cls data n j s →
  planarGuard (inject_Z (Z.of_nat (length data)) / 3) s = true →
  (j < length data)%nat ∧
  planarInvariant cls data n (S j) (planarBody cls data s).
Proof.
  intros Hdata (Hi & Hrgba & Hr & Hg & Hb & Hlen & Hdone) Hguard.
  apply planarGuard_spec in Hguard. rewrite Hi in Hguard.
  split; [lia|].
  unfold planarInvariant, planarBody, assignElement, elementAt. simpl.
  rewrite Hrgba, Hr, Hg, Hb, !length_insert. simpl.
  split; [lia|]. split; [lia|]. split; [lia|].
  split; [rewrite (integerIndex_succ _ _ Hg); f_equal; lia|].
  split; [rewrite (integerIndex_succ _ _ Hb); f_equal; lia|].
  split; [done|].
  intros p Hp.
  destruct (decide (p = j)) as [-> | Hne].
  - split; [|split].
    + rewrite !list_lookup_insert_ne by lia.
      by rewrite list_lookup_insert_eq by lia.
    + rewrite list_lookup_insert_ne by lia.
      by rewrite list_lookup_insert_eq by (rewrite length_insert; lia).
    + by rewrite list_lookup_insert_eq by (rewrite !length_insert; lia).
  - assert (p < j)%nat as Hlt by lia.
    destruct (Hdone p Hlt) as (Hred & Hgreen & Hblue).
    split; [|split]; rewrite !list_lookup_insert_ne by lia; auto.
Qed.

Lemma planarToPixel_pixels cls data n :
  length data = (3 * n)%nat →
  let rgbData := planarToPixel cls data (replicate (length data) 0) in
  length rgbData = length data ∧
  ∀ i, (i < n)%nat →
    rgbData !! (3 * i)%nat = Some (toElement cls (default 0 (data !! i))) ∧
    rgbData !! (3 * i + 1)%nat =
      Some (toElement cls (default 0 (data !! (n + i)%nat))) ∧
    rgbData !! (3 * i + 2)%nat =
      Some (toElement cls (default 0 (data !! (2 * n + i)%nat))).
Proof.
  intros Hdata. unfold planarToPixel.
  destruct (forLoop_invariant (planarInvariant cls data n)
              (planarGuard (inject_Z (Z.of_nat (length data)) / 3))
              (planarBody cls data) (length data)
              (λ j s, planarBody_invariant cls data n j s Hdata)
              (S (length data)) 0%nat
              {| planar_rgbData := replicate (length data) 0;
                 planar_rgbaIndex := 0;
                 rIndex := 0;
                 gIndex := inject_Z (Z.of_nat (length data)) / 3;
                 bIndex := inject_Z (Z.of_nat (length data)) / 3 * 2;
                 planar_i := 0 |})
    as (j & (Hi & _ & _ & _ & _ & Hlen & Hdone) & Hguard).
  { unfold planarInvariant. simpl. rewrite length_replicate, Hdata.
    rewrite integerIndex_numPixels, integerIndex_twice_numPixels.
    repeat split; try done; try (f_equal; lia). }
  { lia. }
  split; [done|].
  intros i Hin.
  assert (¬ (3 * j < length data)%nat) as Hend.
  { intros Hlt. rewrite <- Hi in Hlt. apply planarGuard_spec in Hlt.
    congruence. }
  apply Hdone. lia.
Qed.

Lemma _convertColorSpace_planar ds name uncompressedData :
  photometricInterpretation ds = Some name → name ∈ rgbLikeTypes →
  planarConfiguration ds = Some 1 →
  _convertColorSpace ds uncompressedData =
    match newArrayOfSameClass uncompressedData with
    | Some (cls, data, rgbData) =>
        ret (Integers cls (planarToPixel cls data rgbData))
    | None => throw UnsupportedTypedArray
    end.
Proof.
  intros Hname Hrgb Hplanar.
  assert (truthy name && _interpretAsRGB name = true) as HasRGB.
  { unfold rgbLikeTypes in Hrgb.
    repeat (apply elem_of_cons in Hrgb as [-> | Hrgb]; [reflexivity|]).
    by apply elem_of_nil in Hrgb. }
  unfold _convertColorSpace. rewrite Hname, Hplanar, HasRGB. simpl.
  by destruct (newArrayOfSameClass uncompressedData) as [[[cls data] rgb]|].
Qed.

(** C8 (as amended). For RGB-like data (photometric interpretation RGB,
    YBR_RCT, YBR_ICT or YBR_FULL_422) with planar configuration 1, held in an
    Int8Array, Uint8Array, Int16Array or Uint16Array of length 3n as three
    planes, [_convertColorSpace] returns the pixel-interleaved array of the
    same class and length: elements 3i, 3i+1, 3i+2 of the output are elements
    i, n+i, 2n+i of the input. Any other typed array raises the error
    'Unsupported typed array'. *)
Theorem planar_to_interleaved ds name uncompressedData :
  photometricInterpretation ds = Some name → name ∈ rgbLikeTypes →
  planarConfiguration ds = Some 1 →
  (∀ cls data n,
     uncompressedData = Integers cls data → cls ∈ supportedClasses →
     Forall (inRange cls) data → length data = (3 * n)%nat →
     ∃ rgbData,
       _convertColorSpace ds uncompressedData = ret (Integers cls rgbData) ∧
       length rgbData = length data ∧
       ∀ i, (i < n)%nat →
         rgbData !! (3 * i)%nat = data !! i ∧
         rgbData !! (3 * i + 1)%nat = data !! (n + i)%nat ∧
         rgbData !! (3 * i + 2)%nat = data !! (2 * n + i)%nat) ∧
  (unsupported uncompressedData →
   _convertColorSpace ds uncompressedData = throw UnsupportedTypedArray).
Proof.
  intros Hname Hrgb Hplanar. split.
  - intros cls data n -> Hcls Hrange Hdata.
    exists (planarToPixel cls data (replicate (length data) 0)).
    rewrite (_convertColorSpace_planar ds name _ Hname Hrgb Hplanar),
      (newArrayOfSameClass_supported cls data Hcls).
    destruct (planarToPixel_pixels cls data n Hdata) as [Hlen Hpixels].
    split; [done|]. split; [done|].
    assert (∀ k, (k < length data)%nat →
                 Some (toElement cls (default 0 (data !! k))) = data !! k)
      as Hsame.
    { intros k Hk. destruct (lookup_lt_is_Some_2 data k Hk) as [z Hz].
      rewrite Hz. simpl. f_equal. apply toElement_inRange.
      by apply (Forall_lookup_1 _ _ _ _ Hrange Hz). }
    intros i Hi. destruct (Hpixels i Hi) as (Hr & Hg & Hb).
    rewrite Hr, Hg, Hb.
    split; [|split]; apply Hsame; lia.
  - intros Hunsupported.
    rewrite (_convertColorSpace_planar ds name _ Hname Hrgb Hplanar).
    by rewrite (newArrayOfSameClass_unsupported _ Hunsupported).
Qed.

Lemma planar_to_interleaved_witness :
  ∃ rgbData,
    _convertColorSpace (colorDataSet "RGB" 1)
      (Integers Uint8Array [1; 2; 3; 4; 5; 6])
      = ret (Integers Uint8Array rgbData) ∧
    length rgbData = 6%nat ∧
    rgbData !! 0%nat = Some 1 ∧ rgbData !! 1%nat = Some 3 ∧
    rgbData !! 2%nat = Some 5 ∧
    rgbData !! 3%nat = Some 2 ∧ rgbData !! 4%nat = Some 4 ∧
    rgbData !! 5%nat = Some 6.
Proof.
  destruct (proj1 (planar_to_interleaved (colorDataSet "RGB" 1) "RGB"
                     (Integers Uint8Array [1; 2; 3; 4; 5; 6])
                     eq_refl ltac:(repeat constructor) eq_refl)
              Uint8Array [1; 2; 3; 4; 5; 6] 2%nat eq_refl)
    as (rgbData & Hout & Hlen & Hpixels).
  { repeat constructor. }
  { repeat constructor; simpl; lia. }
  { reflexivity. }
  exists rgbData. split; [exact Hout|]. split; [exact Hlen|].
  destruct (Hpixels 0%nat ltac:(lia)) as (H0 & H1 & H2).
  destruct (Hpixels 1%nat ltac:(lia)) as (H3 & H4 & H5).
  repeat split; assumption.
Defined.

(** C8 as stated fails: RGB samples in three planes held in an Int32Array
    (or a Float32Array) are not returned interleaved; the conversion throws. *)
Lemma planar_any_buffer_counterexample :
  outcome (_convertColorSpace (colorDataSet "RGB" 1)
             (Integers Int32Array [1; 2; 3; 4; 5; 6]))
    = inl UnsupportedTypedArray ∧
  outcome (_convertColorSpace (colorDataSet "RGB" 1)
             (Float32Array [1; 2; 3; 4; 5; 6]%float))
    = inl UnsupportedTypedArray.
Proof. split; reflexivity. Qed.

(** ** Series sorter *)

(** A number that is not [NaN] is below 0, 0 or above 0, and only one of
    them. *)
Lemma number_sign (v : float) :
  PrimFloat.is_nan v = false →
  ((v <? 0)%float = true ∧ (v =? 0)%float = false ∧ (0 <? v)%float = false) ∨
  ((v <? 0)%float = false ∧ (v =? 0)%float = true ∧ (0 <? v)%float = false) ∨
  ((v <? 0)%float = false ∧ (v =? 0)%float = false ∧ (0 <? v)%float = true).
Proof.
  unfold PrimFloat.is_nan.
  rewrite !FloatAxioms.ltb_spec, !FloatAxioms.eqb_spec.
  change (Prim2SF 0) with (SpecFloat.S754_zero false).
  destruct (Prim2SF v) as [s | s | | s m e]; simpl.
  - intros _. right. left. by destruct s.
  - intros _. destruct s; [left | right; right]; done.
  - done.
  - intros _. destruct s; [left | right; right]; done.
Qed.

Section ArraySortFacts.
Context {A : Type} (comparefn : A → A → float).
Implicit Types (a b c p x y z : A) (l sorted : list A).

Local Ltac membership :=
  simpl in *; repeat rewrite ?elem_of_cons, ?elem_of_app in *; tauto.

(** The rules of a consistent comparator, for the values of the list. *)
Lemma consistentComparator_rules l :
  consistentComparator comparefn l = true →
  ∀ a b c, a ∈ l → b ∈ l → c ∈ l →
    tied comparefn a a = true ∧
    PrimFloat.is_nan (comparefn a b) = false ∧
    (tied comparefn a b = true → tied comparefn b a = true) ∧
    (tied comparefn a b = true → tied comparefn b c = true →
     tied comparefn a c = true) ∧
    (less comparefn a b = true → less comparefn b c = true →
     less comparefn a c = true) ∧
    (greater comparefn a b = true → greater comparefn b c = true →
     greater comparefn a c = true).
Proof.
  intros Hconsistent a b c
    Ha%list_elem_of_In Hb%list_elem_of_In Hc%list_elem_of_In.
  unfold consistentComparator in Hconsistent.
  rewrite forallb_forall in Hconsistent.
  specialize (Hconsistent a Ha).
  apply andb_true_iff in Hconsistent as [Hrefl Hconsistent].
  rewrite forallb_forall in Hconsistent.
  specialize (Hconsistent b Hb).
  apply andb_true_iff in Hconsistent as [Hpair Hconsistent].
  apply andb_true_iff in Hpair as [Hnan Hsym].
  rewrite forallb_forall in Hconsistent.
  specialize (Hconsistent c Hc).
  apply andb_true_iff in Hconsistent as [Htrans Hgreater].
  apply andb_true_iff in Htrans as [Htied Hless].
  apply negb_true_iff in Hnan.
  split; [done|]. split; [done|].
  split; [by intros H; rewrite H in Hsym|].
  split; [by intros H1 H2; rewrite H1, H2 in Htied|].
  split; [by intros H1 H2; rewrite H1, H2 in Hless|].
  by intros H1 H2; rewrite H1, H2 in Hgreater.
Qed.

(** A consistent comparator orders the values of the list. *)
Lemma consistentComparator_ordered l :
  consistentComparator comparefn l = true → ordered comparefn l.
Proof.
  intros Hconsistent.
  pose proof (consistentComparator_rules l Hconsistent) as Hrules.
  assert (∀ a b, a ∈ l → b ∈ l →
            (less comparefn a b = true ∧ tied comparefn a b = false ∧
             greater comparefn a b = false) ∨
            (less comparefn a b = false ∧ tied comparefn a b = true ∧
             greater comparefn a b = false) ∨
            (less comparefn a b = false ∧ tied comparefn a b = false ∧
             greater comparefn a b = true)) as Hsign.
  { intros a b Ha Hb. apply number_sign.
    by destruct (Hrules a b b Ha Hb Hb) as (_ & Hnan & _). }
  assert (∀ a b, a ∈ l → b ∈ l →
            greater comparefn a b = true → less comparefn b a = true)
    as Hgreater_less.
  { intros a b Ha Hb Hgreater.
    destruct (Hsign a b Ha Hb) as [(_ & _ & H) | [(_ & _ & H) | (_ & Hab & _)]];
      [congruence.. |].
    destruct (Hsign b a Hb Ha) as [(H & _) | [(_ & Hba & _) | (_ & _ & Hba)]];
      [done | |].
    - destruct (Hrules b a a Hb Ha Ha) as (_ & _ & Hsym & _).
      specialize (Hsym Hba). congruence.
    - destruct (Hrules a b a Ha Hb Ha) as (Hrefl & _ & _ & _ & _ & Htrans).
      specialize (Htrans Hgreater Hba).
      destruct (Hsign a a Ha Ha)
        as [(_ & H & _) | [(_ & _ & H) | (_ & H & _)]]; congruence. }
  assert (∀ a b, a ∈ l → b ∈ l →
            less comparefn a b = true → greater comparefn b a = true)
    as Hless_greater.
  { intros a b Ha Hb Hless.
    destruct (Hsign a b Ha Hb) as [(_ & Hab & _) | [(H & _) | (H & _)]];
      [|congruence..].
    destruct (Hsign b a Hb Ha) as [(Hba & _) | [(_ & Hba & _) | (_ & _ & H)]];
      [| |done].
    - destruct (Hrules a b a Ha Hb Ha) as (Hrefl & _ & _ & _ & Htrans & _).
      specialize (Htrans Hless Hba).
      destruct (Hsign a a Ha Ha)
        as [(_ & H & _) | [(H & _) | (_ & H & _)]]; congruence.
    - destruct (Hrules b a a Hb Ha Ha) as (_ & _ & Hsym & _).
      specialize (Hsym Hba). congruence. }
  intros a b c Ha Hb Hc.
  split; [|split; [|split]].
  - destruct (greater comparefn a b) eqn:Hab.
    + symmetry. by apply Hgreater_less.
    + destruct (less comparefn b a) eqn:Hba; [|done].
      apply Hless_greater in Hba; [congruence | done..].
  - intros Hab. apply Hgreater_less in Hab; [|done..].
    destruct (Hsign b a Hb Ha) as [(_ & _ & H) | [(H & _) | (H & _)]];
      congruence.
  - intros Hab Hbc.
    destruct (greater comparefn a c) eqn:Hac; [|done]. exfalso.
    destruct (Hsign a b Ha Hb) as [(Hlt & _) | [(_ & Heq & _) | (_ & _ & H)]];
      [| |congruence];
      destruct (Hsign b c Hb Hc)
        as [(Hlt' & _) | [(_ & Heq' & _) | (_ & _ & H)]];
      try congruence.
    + destruct (Hrules a b c Ha Hb Hc) as (_ & _ & _ & _ & Htrans & _).
      specialize (Htrans Hlt Hlt').
      destruct (Hsign a c Ha Hc) as [(_ & _ & H) | [(H & _) | (H & _)]];
        congruence.
    + apply Hless_greater in Hlt; [|done..].
      destruct (Hrules b a c Hb Ha Hc) as (_ & _ & _ & _ & _ & Htrans).
      specialize (Htrans Hlt Hac).
      destruct (Hsign b c Hb Hc) as [(_ & H & _) | [(_ & _ & H) | (_ & H & _)]];
        congruence.
    + apply Hless_greater in Hlt'; [|done..].
      destruct (Hrules a c b Ha Hc Hb) as (_ & _ & _ & _ & _ & Htrans).
      specialize (Htrans Hac Hlt').
      destruct (Hsign a b Ha Hb) as [(_ & H & _) | [(_ & _ & H) | (_ & H & _)]];
        congruence.
    + destruct (Hrules a b c Ha Hb Hc) as (_ & _ & _ & Htrans & _).
      specialize (Htrans Heq Heq').
      destruct (Hsign a c Ha Hc) as [(_ & H & _) | [(_ & _ & H) | (_ & H & _)]];
        congruence.
  - intros Hab Hbc.
    by destruct (Hrules a b c Ha Hb Hc) as (_ & _ & _ & _ & _ & Htrans);
      apply Htrans.
Qed.

Lemma ordered_subseteq l l' :
  l' ⊆ l → ordered comparefn l → ordered comparefn l'.
Proof. intros Hsub Hordered a b c Ha Hb Hc. apply Hordered; by apply Hsub. Qed.


Lemma insertSorted_Permutation a sorted :
  insertSorted comparefn a sorted ≡ₚ a :: sorted.
Proof.
  induction sorted as [|b rest IH]; simpl; [done|].
  destruct (greater comparefn a b); [|done].
  rewrite IH. apply Permutation_swap.
Qed.

Lemma stableSort_Permutation l : stableSort comparefn l ≡ₚ l.
Proof.
  induction l as [|a l IH]; simpl; [done|].
  by rewrite insertSorted_Permutation, IH.
Qed.





(** The insertion from the left. *)
Lemma insertLast_Permutation p sorted :
  insertLast comparefn p sorted ≡ₚ p :: sorted.
Proof.
  induction sorted as [|x rest IH]; simpl; [done|].
  destruct (less comparefn p x); [done|].
  rewrite IH. apply Permutation_swap.
Qed.

Lemma leftInsertionSort_snoc l p :
  leftInsertionSort comparefn (l ++ [p]) =
    insertLast comparefn p (leftInsertionSort comparefn l).
Proof. unfold leftInsertionSort. by rewrite foldl_app. Qed.

Lemma leftInsertionSort_Permutation l : leftInsertionSort comparefn l ≡ₚ l.
Proof.
  induction l as [|p l IH] using rev_ind; [done|].
  rewrite leftInsertionSort_snoc, insertLast_Permutation, IH.
  apply Permutation_cons_append.
Qed.

(** On an ordered list the two insertions can be made in either order. *)
Lemma insertSorted_insertLast a p sorted :
  ordered comparefn (a :: p :: sorted) →
  insertSorted comparefn a (insertLast comparefn p sorted) =
    insertLast comparefn p (insertSorted comparefn a sorted).
Proof.
  intros Hordered.
  assert (greater comparefn a p = less comparefn p a) as Hap.
  { apply (Hordered a p p); membership. }
  induction sorted as [|x rest IH]; simpl.
  - rewrite Hap. by destruct (less comparefn p a).
  - assert (greater comparefn x p = less comparefn p x) as Hxp.
    { apply (Hordered x p p); membership. }
    destruct (less comparefn p x) eqn:Hpx;
      destruct (greater comparefn a x) eqn:Hax; simpl;
      rewrite ?Hpx, ?Hax.
    + assert (greater comparefn a p = true) as Hgreater.
      { apply (Hordered a x p); [membership.. | done | by rewrite Hxp]. }
      by rewrite Hgreater.
    + rewrite Hap. by destruct (less comparefn p a).
    + f_equal. apply IH. revert Hordered. apply ordered_subseteq.
      intros y Hy. membership.
    + assert (greater comparefn a p = false) as Hnot.
      { apply (Hordered a x p); [membership.. | done | by rewrite Hxp]. }
      by rewrite <- Hap, Hnot.
Qed.

Lemma stableSort_snoc l p :
  ordered comparefn (l ++ [p]) →
  stableSort comparefn (l ++ [p]) =
    insertLast comparefn p (stableSort comparefn l).
Proof.
  induction l as [|a l IH]; intros Hordered; simpl; [done|].
  rewrite IH.
  - apply insertSorted_insertLast. revert Hordered. apply ordered_subseteq.
    intros x Hx. rewrite !elem_of_cons in Hx.
    rewrite stableSort_Permutation in Hx. membership.
  - revert Hordered. apply ordered_subseteq. intros x Hx. membership.
Qed.

Lemma leftInsertionSort_stableSort l :
  ordered comparefn l →
  leftInsertionSort comparefn l = stableSort comparefn l.
Proof.
  induction l as [|p l IH] using rev_ind; intros Hordered; [done|].
  rewrite leftInsertionSort_snoc, stableSort_snoc by done.
  rewrite IH; [done|]. revert Hordered. apply ordered_subseteq.
  intros x Hx. membership.
Qed.

End ArraySortFacts.


Lemma leftInsertionSort_conforming {A : Type} :
  conformingSort (@leftInsertionSort A).
Proof.
  intros comparefn l. split; [apply leftInsertionSort_Permutation|].
  intros Hconsistent. apply leftInsertionSort_stableSort.
  by apply consistentComparator_ordered.
Qed.




(** For every engine: slice locations [3; 1; 2] sort to [1; 2; 3], and
    records without slice location are ordered by image position, or by
    instance number. *)
Example sortDicomFiles_examples
    (sort : (DicomFile string → DicomFile string → float) →
            list (DicomFile string) → list (DicomFile string)) :
  conformingSort sort →
  sortDicomFiles sort [slice3; slice1; slice2] = [slice1; slice2; slice3] ∧
  sortDicomFiles sort [instance2; instance1] = [instance1; instance2] ∧
  sortDicomFiles sort [positioned5; positioned3] = [positioned3; positioned5].
Proof.
  intros Hconforming. unfold sortDicomFiles.
  rewrite (proj2 (Hconforming compareDicomFiles [slice3; slice1; slice2]))
    by reflexivity.
  rewrite (proj2 (Hconforming compareDicomFiles [instance2; instance1]))
    by reflexivity.
  rewrite (proj2 (Hconforming compareDicomFiles [positioned5; positioned3]))
    by reflexivity.
  split; [|split]; reflexivity.
Qed.

(** Two files of series A and one of series B, with one file that failed to
    parse, give two series, each sorted. *)
Example preloader_groups_by_series
    (sort : (DicomFile string → DicomFile string → float) →
            list (DicomFile string) → list (DicomFile string)) :
  conformingSort sort →
  preloader sort
    [Some ("A", slice3); None; Some ("B", slice2); Some ("A", slice1)]
  = [MkSeries "A" [slice1; slice3]; MkSeries "B" [slice2]].
Proof.
  intros Hconforming.
  change (preloader sort _)
    with (seriesArray sort [("A", [slice3; slice1]); ("B", [slice2])]).
  unfold seriesArray, sortDicomFiles. cbn [map].
  rewrite (proj2 (Hconforming compareDicomFiles [slice3; slice1]))
    by reflexivity.
  rewrite (proj2 (Hconforming compareDicomFiles [slice2])) by reflexivity.
  reflexivity.
Qed.

(** A missing planar configuration is read as 0, with a line on the
    console. *)
Example missing_planar_configuration_defaults_to_0 :
  let converted :=
    _convertColorSpace (withStrings {[ "x00280004" := "RGB" ]})
      (Integers Uint8Array [1; 2; 3]) in
  console converted =
    ["Planar Configuration was not set and was defaulted to  0"] ∧
  outcome converted = inr (Integers Uint8Array [1; 2; 3]).
Proof. split; reflexivity. Qed.

(** * Further properties *)

(** ** Attribute resolver: bounds, empty strings, zero *)

Lemma _findInGroupSequence_out_of_range ds sequence subsequence index
    frameItems :
  elements ds !! sequence ≫= items = Some frameItems →
  index < 0 ∨ Z.of_nat (length frameItems) <= index →
  _findInGroupSequence ds sequence subsequence index = None.
Proof.
  intros Hitems Hrange. unfold _findInGroupSequence.
  destruct (elements ds !! sequence) as [fgs|]; [|done]. simpl in *.
  rewrite Hitems. simpl.
  assert (at_index frameItems index = None) as ->; [|done].
  unfold at_index. destruct (index <? 0) eqn:Hneg; [done|].
  apply Z.ltb_ge in Hneg. apply lookup_ge_None. lia.
Qed.

(** X1. A frame index that is negative or not below the number of items of
    the per-frame functional group sequence raises nothing: the per-frame
    tier yields no value, so the string resolver answers from the shared
    group, the PET sequence or the root, the numeric resolver from the root or
    the shared group, and [referencedSegmentNumber] is -1. *)
Theorem frame_index_out_of_range ds subsequence tag frameIndex frameItems :
  elements ds !! "x52009230" ≫= items = Some frameItems →
  frameIndex < 0 ∨ Z.of_nat (length frameItems) <= frameIndex →
  let shared := _findStringInGroupSequence ds "x52009229" subsequence tag 0 in
  let pet := _findStringInSequence ds "x00540022" tag in
  _findStringEverywhere ds subsequence tag frameIndex =
    (if toBoolean shared then shared
     else if toBoolean pet then pet
     else string_ ds !! tag) ∧
  _findFloatStringInFrameGroupSequence ds subsequence tag frameIndex =
    match floatString ds !! tag with
    | Some v => Some v
    | None =>
        let sharedNumber :=
          groupSequence ← _findInGroupSequence ds "x52009229" subsequence 0;
          floatString groupSequence !! tag in
        if toBoolean sharedNumber then sharedNumber else None
    end ∧
  referencedSegmentNumber ds frameIndex = Some (-1).
Proof.
  intros Hitems Hrange shared pet.
  pose proof (λ sub, _findInGroupSequence_out_of_range
                       ds "x52009230" sub frameIndex frameItems Hitems Hrange)
    as Hnone.
  split; [|split].
  - assert (_findStringInGroupSequence ds "x52009230" subsequence tag
              frameIndex = None) as HperFrame.
    { unfold _findStringInGroupSequence. by rewrite Hnone. }
    rewrite _findStringEverywhere_tiers. cbv zeta. by rewrite HperFrame.
  - destruct (floatString ds !! tag) as [v|] eqn:Hdirect.
    + by apply _findFloatStringInFrameGroupSequence_direct.
    + unfold _findFloatStringInFrameGroupSequence.
      rewrite !_findFloatStringInGroupSequence_group by done.
      rewrite Hnone. simpl. unfold jsOr. by case_match.
  - unfold referencedSegmentNumber. by rewrite Hnone.
Qed.

Lemma frame_index_out_of_range_witness :
  sopInstanceUID perFrameOnly 2 = None ∧
  sopInstanceUID perFrameOnly (-1) = None ∧
  rescaleIntercept interceptPerFrame 1 = None.
Proof.
  pose proof (frame_index_out_of_range perFrameOnly "x2005140f" "x00080018" 2
                _ eq_refl ltac:(right; simpl; lia)) as (H2 & _ & _).
  pose proof (frame_index_out_of_range perFrameOnly "x2005140f" "x00080018"
                (-1) _ eq_refl ltac:(left; lia)) as (Hm & _ & _).
  pose proof (frame_index_out_of_range interceptPerFrame "x00289145"
                "x00281052" 1 _ eq_refl ltac:(right; simpl; lia))
    as (_ & Hf & _).
  split; [exact H2|]. split; [exact Hm | exact Hf].
Defined.

(** X2. The string resolver returns the empty string only from the root: if
    the result is the empty string, the primary tag of the root data set reads
    as the empty string and none of the three sequence tiers holds a non-empty
    value. *)
Theorem empty_result_comes_from_root ds subsequence tag index :
  _findStringEverywhere ds subsequence tag index = Some "" →
  string_ ds !! tag = Some "" ∧
  absentOrEmpty (_findStringInGroupSequence ds "x52009229" subsequence tag 0) ∧
  absentOrEmpty
    (_findStringInGroupSequence ds "x52009230" subsequence tag index) ∧
  absentOrEmpty (_findStringInSequence ds "x00540022" tag).
Proof.
  assert (∀ o : option string, toBoolean o = false → absentOrEmpty o)
    as Hfalsy.
  { intros [[|c s]|]; simpl; try done; [by right | by left]. }
  assert (∀ o : option string, toBoolean o = true → o ≠ Some "") as Htruthy.
  { by intros [[|c s]|]. }
  rewrite _findStringEverywhere_tiers. simpl.
  destruct (toBoolean (_findStringInGroupSequence ds "x52009229" _ _ _))
    eqn:Hs; [by intros ?%(Htruthy _ Hs)|].
  destruct (toBoolean (_findStringInGroupSequence ds "x52009230" _ _ _))
    eqn:Hp; [by intros ?%(Htruthy _ Hp)|].
  destruct (toBoolean (_findStringInSequence ds "x00540022" tag))
    eqn:Hpet; [by intros ?%(Htruthy _ Hpet)|].
  intros Hdirect. repeat split; auto.
Qed.

Lemma empty_result_comes_from_root_witness :
  string_ (withStrings {[ "x00080018" := "" ]}) !! "x00080018" = Some "".
Proof.
  apply (empty_result_comes_from_root
           (withStrings {[ "x00080018" := "" ]}) "x2005140f" "x00080018" 0).
  reflexivity.
Defined.

(** X3. The numeric resolver joins its two reads with [||], which skips 0
    and NaN: when the root has no value and the shared functional group holds
    0 (or -0 or NaN), the result is what the per-frame group holds, and
    [null] when it holds nothing. A rescale intercept 0 stored in the shared
    group alone is reported as [null]. *)
Theorem shared_zero_is_skipped ds subsequence tag frameIndex v :
  floatString ds !! tag = None →
  (groupSequence ← _findInGroupSequence ds "x52009229" subsequence 0;
   floatString groupSequence !! tag) = Some v →
  PrimFloat.is_zero v = true ∨ PrimFloat.is_nan v = true →
  _findFloatStringInFrameGroupSequence ds subsequence tag frameIndex =
    (groupSequence ←
       _findInGroupSequence ds "x52009230" subsequence frameIndex;
     floatString groupSequence !! tag).
Proof.
  intros Hdirect Hshared Hfalsy.
  unfold _findFloatStringInFrameGroupSequence.
  rewrite !_findFloatStringInGroupSequence_group by done.
  rewrite Hshared. unfold jsOr. simpl. unfold truthy, number_truthy.
  by destruct Hfalsy as [-> | ->]; rewrite ?orb_true_r.
Qed.

Lemma shared_zero_is_skipped_witness :
  rescaleIntercept interceptZeroShared 0 = None.
Proof.
  apply (shared_zero_is_skipped interceptZeroShared "x00289145" "x00281052"
           0 0%float); [reflexivity | reflexivity | left; reflexivity].
Defined.

(** X4. [instanceNumber] reads the private sequence x2005140f of the frame's
    item, the path of [_findInGroupSequence]: when that sequence has a first
    item, its instance number is the result, [null] if it has none, whatever
    the root holds; only when the path is missing is the root's instance
    number the result. *)
Theorem instanceNumber_private_sequence_first ds frameIndex :
  DicomParser.instanceNumber ds frameIndex =
    match _findInGroupSequence ds "x52009230" "x2005140f" frameIndex with
    | Some planeOrientationSequence =>
        intString planeOrientationSequence !! "x00200013"
    | None => intString ds !! "x00200013"
    end.
Proof.
  unfold DicomParser.instanceNumber, _findInGroupSequence, itemDataSet.
  destruct (elements ds !! "x52009230") as [fgs|]; [|done]. simpl.
  destruct (items fgs) as [gi|]; [|done]. simpl.
  destruct (at_index gi frameIndex ≫= dataSet) as [fd|]; [|done]. simpl.
  destruct (elements fd !! "x2005140f") as [ins|]; [|done]. simpl.
  destruct (items ins) as [ii|]; [|done]. simpl.
  by destruct (at_index ii 0 ≫= dataSet).
Qed.

(** What X4 means for a root instance number shadowed by an empty private
    item. *)
Example instanceNumber_shadowed :
  intString instanceNumberShadowed !! "x00200013" = Some 9%float ∧
  DicomParser.instanceNumber instanceNumberShadowed 0 = None ∧
  DicomParser.instanceNumber instanceNumberShadowed 1 = Some 9%float.
Proof. split; [|split]; reflexivity. Qed.

(** ** Color normalizer: what it keeps, when it fails *)

Lemma interpretAsRGB_rgbLike name :
  truthy name && _interpretAsRGB name = bool_decide (name ∈ rgbLikeTypes).
Proof.
  destruct name as [|c name]; [reflexivity|]. reflexivity.
Qed.

Lemma outcome_bind {A B} (m : Exec A) (k : A → Exec B) :
  outcome (bind m k) =
    match outcome m with
    | inl e => inl e
    | inr a => outcome (k a)
    end.
Proof.
  destruct m as [out [e|a]]; simpl; [done|]. by destruct (k a).
Qed.

(** The outcome of [_convertColorSpace], branch by branch, with the planar
    configuration defaulted. *)
Lemma _convertColorSpace_outcome ds uncompressedData :
  outcome (_convertColorSpace ds uncompressedData) =
    let planar := default 0 (planarConfiguration ds) in
    let interpretAsRGB :=
      match photometricInterpretation ds with
      | Some name => bool_decide (name ∈ rgbLikeTypes)
      | None => false
      end in
    if interpretAsRGB && (planar =? 0) then inr uncompressedData
    else if interpretAsRGB && (planar =? 1) then
      match newArrayOfSameClass uncompressedData with
      | Some (cls, data, rgbData) =>
          inr (Integers cls (planarToPixel cls data rgbData))
      | None => inl UnsupportedTypedArray
      end
    else if bool_decide (photometricInterpretation ds = Some "YBR_FULL") then
      match newArrayOfSameClass uncompressedData with
      | Some (cls, data, rgbData) =>
          inr (Integers cls (ybrFullToRgb cls data rgbData))
      | None => inl UnsuportedTypedArray
      end
    else inl (PhotometricNotSupported (photometricInterpretation ds)).
Proof.
  unfold _convertColorSpace.
  assert (match photometricInterpretation ds with
          | Some name => truthy name && _interpretAsRGB name
          | None => false
          end =
          match photometricInterpretation ds with
          | Some name => bool_decide (name ∈ rgbLikeTypes)
          | None => false
          end) as ->.
  { destruct (photometricInterpretation ds); [|done].
    apply interpretAsRGB_rgbLike. }
  cbv zeta. rewrite outcome_bind.
  destruct (planarConfiguration ds) as [planar|]; simpl.
  - destruct (_ && (planar =? 0)); [done|].
    destruct (_ && (planar =? 1)).
    { by destruct (newArrayOfSameClass uncompressedData) as [[[? ?] ?]|]. }
    destruct (bool_decide _); [|done].
    by destruct (newArrayOfSameClass uncompressedData) as [[[? ?] ?]|].
  - destruct (_ && true); [done|]. rewrite andb_false_r.
    destruct (bool_decide _); [|done].
    by destruct (newArrayOfSameClass uncompressedData) as [[[? ?] ?]|].
Qed.

Lemma forLoop_preserves {S : Type} (P : S → Prop) (guard : S → bool)
    (body : S → S) :
  (∀ s, P s → P (body s)) →
  ∀ fuel s, P s → P (forLoop fuel guard body s).
Proof.
  intros Hbody fuel. induction fuel as [|fuel IH]; intros s Hs; simpl; [done|].
  destruct (guard s); auto.
Qed.

Lemma length_planarToPixel cls data rgbData :
  length (planarToPixel cls data rgbData) = length rgbData.
Proof.
  unfold planarToPixel.
  apply (forLoop_preserves (λ s, length (planar_rgbData s) = length rgbData));
    [|done].
  intros s Hs. unfold planarBody, assignElement. simpl.
  by rewrite !length_insert.
Qed.

Lemma length_ybrFullToRgb cls data rgbData :
  length (ybrFullToRgb cls data rgbData) = length rgbData.
Proof.
  unfold ybrFullToRgb.
  apply (forLoop_preserves (λ s, length (ybr_rgbData s) = length rgbData));
    [|done].
  intros s Hs. unfold ybrBody, assignNumber. simpl.
  by rewrite !length_insert.
Qed.

Lemma newArrayOfSameClass_Some uncompressedData cls data rgbData :
  newArrayOfSameClass uncompressedData = Some (cls, data, rgbData) →
  uncompressedData = Integers cls data ∧
  rgbData = replicate (length data) 0.
Proof.
  destruct uncompressedData as [c d| |]; [|done..].
  destruct c; simpl; intros [= <- <- <-]; done.
Qed.

(** X5. Whatever the photometric interpretation, the planar configuration
    and the length of the data (a multiple of 3 or not), a conversion that
    succeeds returns an array of the class and the length of its input. *)
Theorem conversion_keeps_class_and_length ds uncompressedData rgbData :
  outcome (_convertColorSpace ds uncompressedData) = inr rgbData →
  sameClassAndLength uncompressedData rgbData.
Proof.
  assert (sameClassAndLength uncompressedData uncompressedData) as Hrefl.
  { destruct uncompressedData; simpl; auto. }
  rewrite _convertColorSpace_outcome. cbv zeta.
  repeat case_match; try discriminate; intros [= <-]; try done.
  - match goal with
    | H : newArrayOfSameClass _ = Some _ |- _ =>
        apply newArrayOfSameClass_Some in H as [-> ->]
    end.
    simpl. split; [done|].
    by rewrite length_planarToPixel, length_replicate.
  - match goal with
    | H : newArrayOfSameClass _ = Some _ |- _ =>
        apply newArrayOfSameClass_Some in H as [-> ->]
    end.
    simpl. split; [done|].
    by rewrite length_ybrFullToRgb, length_replicate.
Qed.

Lemma conversion_keeps_class_and_length_witness :
  sameClassAndLength (Integers Int16Array [1; 2; 3; 4; 5; 6; 7])
    (Integers Int16Array [1; 0; 0; 2; 0; 0; 3]).
Proof.
  apply (conversion_keeps_class_and_length (colorDataSet "RGB" 1)).
  reflexivity.
Defined.

(** X6. For data read as RGB (photometric interpretation RGB, YBR_RCT,
    YBR_ICT or YBR_FULL_422) with planar configuration 0 or absent, the
    conversion returns its input as it is, for every class of typed array,
    the floating-point ones included; the console receives a line exactly when
    the planar configuration is absent. Converting twice is converting
    once. *)
Theorem interleaved_rgb_is_returned_as_is ds name uncompressedData :
  photometricInterpretation ds = Some name → name ∈ rgbLikeTypes →
  planarConfiguration ds = Some 0 ∨ planarConfiguration ds = None →
  outcome (_convertColorSpace ds uncompressedData) = inr uncompressedData ∧
  (console (_convertColorSpace ds uncompressedData) = []
     ↔ planarConfiguration ds = Some 0) ∧
  outcome (let* once := _convertColorSpace ds uncompressedData in
           _convertColorSpace ds once)%exec
    = outcome (_convertColorSpace ds uncompressedData).
Proof.
  intros Hname Hrgb Hplanar.
  assert (truthy name && _interpretAsRGB name = true) as HasRGB.
  { rewrite interpretAsRGB_rgbLike. by apply bool_decide_eq_true. }
  assert (∀ u, _convertColorSpace ds u =
               (match planarConfiguration ds with
                | None =>
                    ["Planar Configuration was not set and was defaulted to  0"]
                | Some _ => []
                end, inr u)) as Hconvert.
  { intros u. unfold _convertColorSpace. rewrite Hname, HasRGB.
    by destruct Hplanar as [-> | ->]. }
  rewrite !Hconvert. simpl. split; [done|]. split.
  - destruct Hplanar as [-> | ->]; split; done.
  - by rewrite Hconvert.
Qed.

Lemma interleaved_rgb_is_returned_as_is_witness :
  outcome (_convertColorSpace (colorDataSet "YBR_RCT" 0)
             (Float32Array [1; 2; 3]%float))
    = inr (Float32Array [1; 2; 3]%float).
Proof.
  apply (interleaved_rgb_is_returned_as_is (colorDataSet "YBR_RCT" 0)
           "YBR_RCT" (Float32Array [1; 2; 3]%float) eq_refl);
    [repeat constructor | left; reflexivity].
Defined.

(** X7. The conversion fails with the color-space error exactly when the
    photometric interpretation is not YBR_FULL and the data is not RGB-like
    with planar configuration 0 or 1 (an absent configuration counting as 0);
    the error carries the photometric interpretation. In particular RGB data
    with a planar configuration other than 0 and 1 is reported as an
    unsupported photometric interpretation. *)
Theorem color_space_error_iff ds uncompressedData reported :
  outcome (_convertColorSpace ds uncompressedData)
    = inl (PhotometricNotSupported reported)
  ↔ reported = photometricInterpretation ds ∧
    photometricInterpretation ds ≠ Some "YBR_FULL" ∧
    ¬ ((∃ name, photometricInterpretation ds = Some name ∧
                name ∈ rgbLikeTypes) ∧
       (default 0 (planarConfiguration ds) = 0 ∨
        default 0 (planarConfiguration ds) = 1)).
Proof.
  rewrite _convertColorSpace_outcome. cbv zeta.
  set (planar := default 0 (planarConfiguration ds)).
  assert (match photometricInterpretation ds with
          | Some name => bool_decide (name ∈ rgbLikeTypes)
          | None => false
          end = true
          ↔ ∃ name, photometricInterpretation ds = Some name ∧
                    name ∈ rgbLikeTypes) as Hrgb.
  { destruct (photometricInterpretation ds) as [name|].
    - rewrite bool_decide_eq_true. split; [by exists name|].
      by intros (name' & [= <-] & Hin).
    - split; [done|]. by intros (name' & Hname & _). }
  destruct (match photometricInterpretation ds with
            | Some name => bool_decide (name ∈ rgbLikeTypes)
            | None => false
            end) eqn:HisRGB; simpl.
  - destruct (planar =? 0) eqn:H0.
    { apply Z.eqb_eq in H0. split; [done|].
      intros (_ & _ & Hnot). destruct Hnot. split; [by apply Hrgb | by left]. }
    destruct (planar =? 1) eqn:H1.
    { apply Z.eqb_eq in H1. split.
      - by destruct (newArrayOfSameClass uncompressedData) as [[[? ?] ?]|].
      - intros (_ & _ & Hnot). destruct Hnot.
        split; [by apply Hrgb | by right]. }
    apply Z.eqb_neq in H0, H1.
    case_bool_decide as Hybr.
    { split.
      - by destruct (newArrayOfSameClass uncompressedData) as [[[? ?] ?]|].
      - by intros (_ & Hne & _). }
    split.
    + intros [= <-]. split; [done|]. split; [done|]. intros [_ [? | ?]]; lia.
    + by intros (-> & _ & _).
  - case_bool_decide as Hybr.
    { split.
      - by destruct (newArrayOfSameClass uncompressedData) as [[[? ?] ?]|].
      - by intros (_ & Hne & _). }
    split.
    + intros [= <-]. split; [done|]. split; [done|].
      intros [Hname _]. apply Hrgb in Hname. done.
    + by intros (-> & _ & _).
Qed.

Lemma color_space_error_iff_witness :
  outcome (_convertColorSpace (colorDataSet "RGB" 2)
             (Integers Uint8Array [1; 2; 3]))
    = inl (PhotometricNotSupported (Some "RGB")).
Proof.
  apply (color_space_error_iff (colorDataSet "RGB" 2)
           (Integers Uint8Array [1; 2; 3]) (Some "RGB")).
  split; [reflexivity|]. split; [discriminate|].
  intros [_ [Hplanar | Hplanar]]; vm_compute in Hplanar; discriminate.
Defined.

Lemma _convertColorSpace_not_supported ds uncompressedData name :
  photometricInterpretation ds = Some name →
  name ∉ rgbLikeTypes → name ≠ "YBR_FULL" →
  outcome (_convertColorSpace ds uncompressedData)
    = inl (PhotometricNotSupported (Some name)).
Proof.
  intros Hname Hrgb Hybr. rewrite _convertColorSpace_outcome, Hname.
  cbv zeta. rewrite (bool_decide_eq_false_2 _ Hrgb). simpl.
  rewrite bool_decide_eq_false_2; [done|]. by intros [= ->].
Qed.

(** ** Extraction: the channel gate against the conversion *)

(** X8. The names for which [numberOfChannels] is 3 and the names the
    conversion accepts differ. With PALETTE COLOR, YBR_PARTIAL_422 or
    YBR_PARTIAL_420, [extractPixelData] never returns samples: whenever the
    decoder succeeds the conversion is entered and fails with the color-space
    error. With YBR_ICT the conversion is never entered: the decoded samples
    are returned as decoded, also with planar configuration 1. *)
Theorem channel_gate_against_conversion
    (decode : list Z → ImageInfo → option string → Result TypedArray)
    ds frameIndex :
  (∀ name,
     photometricInterpretation ds = Some name →
     name ∈ ["PALETTE COLOR"; "YBR_PARTIAL_422"; "YBR_PARTIAL_420"] →
     outcome (extractPixelData decode ds frameIndex) =
       match _decodePixelData decode ds frameIndex with
       | inl e => inl e
       | inr _ => inl (PhotometricNotSupported (Some name))
       end) ∧
  (photometricInterpretation ds = Some "YBR_ICT" →
   extractPixelData decode ds frameIndex =
     lift (_decodePixelData decode ds frameIndex)).
Proof.
  split.
  - intros name Hname Hin. unfold extractPixelData.
    assert ((name ∈ colorNames) ∧ (name ∉ rgbLikeTypes) ∧
            (name ≠ "YBR_FULL")) as (Hcolor & Hrgb & Hybr).
    { repeat (apply elem_of_cons in Hin as [-> | Hin];
              [split; [|split];
               [apply (bool_decide_unpack _); by vm_compute
               |apply (bool_decide_unpack _); by vm_compute
               |discriminate]|]).
      by apply elem_of_nil in Hin. }
    rewrite (numberOfChannels_three ds name Hname Hcolor).
    rewrite outcome_bind. unfold lift, outcome at 1. simpl.
    destruct (_decodePixelData decode ds frameIndex) as [e|decoded]; [done|].
    by apply _convertColorSpace_not_supported.
  - intros Hname. unfold extractPixelData.
    rewrite (numberOfChannels_one ds).
    + simpl. unfold bind, lift, ret.
      by destruct (_decodePixelData decode ds frameIndex).
    + intros name. rewrite Hname. intros [= <-].
      apply (bool_decide_unpack _). by vm_compute.
Qed.

Lemma channel_gate_against_conversion_witness :
  outcome (extractPixelData nativeDecode paletteColor 0) =
    inl (PhotometricNotSupported (Some "PALETTE COLOR")) ∧
  extractPixelData nativeDecode ybrIctPlanar 0 =
    ret (Integers Uint8Array [1; 2; 3; 4; 5; 6]).
Proof.
  split.
  - apply (proj1 (channel_gate_against_conversion nativeDecode paletteColor 0)
             "PALETTE COLOR"); [reflexivity | repeat constructor].
  - apply (proj2 (channel_gate_against_conversion nativeDecode ybrIctPlanar
                    0)).
    reflexivity.
Defined.

(** X9. [extractPixelData] fails before the decoder is reached when the
    pixel data element (x7fe00010) is missing (a TypeError) or does not lie
    within the buffer (a RangeError), whatever the decoder is; and an error of
    the decoder is passed on as it is, with no conversion and nothing on the
    console. *)
Theorem extraction_errors
    (decode : list Z → ImageInfo → option string → Result TypedArray)
    ds frameIndex :
  (elements ds !! "x7fe00010" = None →
   extractPixelData decode ds frameIndex = throw TypeError) ∧
  (∀ pixelDataElement,
     elements ds !! "x7fe00010" = Some pixelDataElement →
     dataOffset pixelDataElement < 0 ∨ dataLength pixelDataElement < 0 ∨
     Z.of_nat (length (byteArray ds))
       < dataOffset pixelDataElement + dataLength pixelDataElement →
     extractPixelData decode ds frameIndex = throw RangeError) ∧
  (∀ e, _decodePixelData decode ds frameIndex = inl e →
        extractPixelData decode ds frameIndex = throw e).
Proof.
  assert (∀ e, _decodePixelData decode ds frameIndex = inl e →
               extractPixelData decode ds frameIndex = throw e) as Hfail.
  { intros e He. unfold extractPixelData. by rewrite He. }
  split; [|split; [|done]].
  - intros Hnone. apply Hfail. unfold _decodePixelData. by rewrite Hnone.
  - intros pixelDataElement Helement Hrange. apply Hfail.
    unfold _decodePixelData, newUint8Array. rewrite Helement.
    assert ((0 <=? dataOffset pixelDataElement) &&
            (0 <=? dataLength pixelDataElement) &&
            (dataOffset pixelDataElement + dataLength pixelDataElement
               <=? Z.of_nat (length (byteArray ds))) = false) as ->; [|done].
    rewrite !andb_false_iff, !Z.leb_gt. tauto.
Qed.

Lemma extraction_errors_witness :
  extractPixelData nativeDecode emptyDataSet 0 = throw TypeError ∧
  extractPixelData nativeDecode truncatedPixelData 0 = throw RangeError ∧
  extractPixelData failingDecode twoFrames 1 =
    throw (ExternalError "unsupported transfer syntax").
Proof.
  split; [|split].
  - apply (proj1 (extraction_errors nativeDecode emptyDataSet 0)).
    reflexivity.
  - apply (proj1 (proj2 (extraction_errors nativeDecode truncatedPixelData 0))
             (MkElement 2 4 None None None None)); [reflexivity|].
    right. right. simpl. lia.
  - apply (proj2 (proj2 (extraction_errors failingDecode twoFrames 1))).
    reflexivity.
Defined.

(** ** Plane-to-pixel copy of data whose length is not a multiple of 3 *)

Lemma fractional_integerIndex q : fractional q → integerIndex q = None.
Proof.
  unfold fractional, integerIndex. intros Hq.
  by rewrite (proj2 (Z.eqb_neq _ _) Hq).
Qed.

Lemma fractional_succ q : fractional q → fractional (q + 1).
Proof.
  unfold fractional. destruct q as [a d]. simpl.
  rewrite Pos.mul_1_r.
  replace (a * 1 + Z.pos d) with (a + 1 * Z.pos d) by lia.
  rewrite Z.mod_add by lia. by rewrite ?Z.mul_1_r.
Qed.

Lemma fractional_numPixels (len : nat) :
  (len mod 3 ≠ 0)%nat →
  fractional (inject_Z (Z.of_nat len) / 3) ∧
  fractional (inject_Z (Z.of_nat len) / 3 * 2).
Proof.
  intros Hlen. unfold fractional.
  change (Qden (inject_Z (Z.of_nat len) / 3)) with 3%positive.
  change (Qnum (inject_Z (Z.of_nat len) / 3)) with (Z.of_nat len * 1).
  change (Qden (inject_Z (Z.of_nat len) / 3 * 2)) with 3%positive.
  change (Qnum (inject_Z (Z.of_nat len) / 3 * 2))
    with (Z.of_nat len * 1 * 2).
  rewrite !Z.mul_1_r.
  assert (Z.of_nat len mod 3 ≠ 0) as Hz.
  { intros Hmod. apply Hlen.
    apply Nat2Z.inj. rewrite Nat2Z.inj_mod. exact Hmod. }
  split; [done|].
  intros Hmod. apply Hz.
  pose proof (Z.div_mod (Z.of_nat len) 3 ltac:(lia)) as Hdiv.
  pose proof (Z.mod_pos_bound (Z.of_nat len) 3 ltac:(lia)) as Hbound.
  pose proof (Z.div_mod (Z.of_nat len * 2) 3 ltac:(lia)) as Hdiv2.
  rewrite Hmod in Hdiv2. lia.
Qed.

Lemma planarBody_fractionInvariant cls data j s :
  planarFractionInvariant cls data j s →
  planarGuard (inject_Z (Z.of_nat (length data)) / 3) s = true →
  (j < length data)%nat ∧
  planarFractionInvariant cls data (S j) (planarBody cls data s).
Proof.
  intros (Hi & Hrgba & Hr & Hg & Hb & Hlen & Hdone) Hguard.
  apply planarGuard_spec in Hguard. rewrite Hi in Hguard.
  split; [lia|].
  assert (toElement cls 0 = 0) as Hzero by by destruct cls.
  unfold planarFractionInvariant, planarBody, assignElement, elementAt. simpl.
  rewrite Hrgba, Hr, (fractional_integerIndex _ Hg),
    (fractional_integerIndex _ Hb), !length_insert. simpl. rewrite Hzero.
  split; [lia|]. split; [lia|]. split; [lia|].
  split; [by apply fractional_succ|]. split; [by apply fractional_succ|].
  split; [done|].
  intros p Hp.
  destruct (decide (p = j)) as [-> | Hne].
  - split; [|split]; intros Hin.
    + rewrite !list_lookup_insert_ne by lia.
      by rewrite list_lookup_insert_eq by lia.
    + rewrite list_lookup_insert_ne by lia.
      by rewrite list_lookup_insert_eq by (rewrite length_insert; lia).
    + by rewrite list_lookup_insert_eq by (rewrite !length_insert; lia).
  - assert (p < j)%nat as Hlt by lia.
    destruct (Hdone p Hlt) as (Hred & Hgreen & Hblue).
    split; [|split]; intros Hin;
      rewrite !list_lookup_insert_ne by lia; auto.
Qed.

(** X10. When planar RGB-like data has a length that is not a multiple of 3,
    the conversion does not fail: each pixel [i] that starts within the array
    gets [data[i]] as its red sample, and every green and blue sample of the
    result is 0, because the green and blue planes are read at fractional
    indices. *)
Theorem planar_length_not_multiple_of_3 ds name cls data :
  photometricInterpretation ds = Some name → name ∈ rgbLikeTypes →
  planarConfiguration ds = Some 1 →
  cls ∈ supportedClasses → Forall (inRange cls) data →
  (length data mod 3 ≠ 0)%nat →
  ∃ rgbData,
    _convertColorSpace ds (Integers cls data) = ret (Integers cls rgbData) ∧
    length rgbData = length data ∧
    ∀ i, (3 * i < length data)%nat →
      rgbData !! (3 * i)%nat = data !! i ∧
      ((3 * i + 1 < length data)%nat →
         rgbData !! (3 * i + 1)%nat = Some 0) ∧
      ((3 * i + 2 < length data)%nat →
         rgbData !! (3 * i + 2)%nat = Some 0).
Proof.
  intros Hname Hrgb Hplanar Hcls Hrange Hlen.
  exists (planarToPixel cls data (replicate (length data) 0)).
  rewrite (_convertColorSpace_planar ds name _ Hname Hrgb Hplanar),
    (newArrayOfSameClass_supported cls data Hcls).
  split; [done|].
  split; [by rewrite length_planarToPixel, length_replicate|].
  unfold planarToPixel.
  destruct (fractional_numPixels (length data) Hlen) as [Hg Hb].
  destruct (forLoop_invariant (planarFractionInvariant cls data)
              (planarGuard (inject_Z (Z.of_nat (length data)) / 3))
              (planarBody cls data) (length data)
              (planarBody_fractionInvariant cls data)
              (S (length data)) 0%nat
              {| planar_rgbData := replicate (length data) 0;
                 planar_rgbaIndex := 0;
                 rIndex := 0;
                 gIndex := inject_Z (Z.of_nat (length data)) / 3;
                 bIndex := inject_Z (Z.of_nat (length data)) / 3 * 2;
                 planar_i := 0 |})
    as (j & (Hi & _ & _ & _ & _ & _ & Hdone) & Hguard).
  { unfold planarFractionInvariant. simpl. rewrite length_replicate.
    repeat split; try done; lia. }
  { lia. }
  intros i Hin.
  assert (¬ (3 * j < length data)%nat) as Hend.
  { intros Hlt. rewrite <- Hi in Hlt. apply planarGuard_spec in Hlt.
    congruence. }
  destruct (Hdone i ltac:(lia)) as (Hred & Hgreen & Hblue).
  split; [|split; [exact Hgreen | exact Hblue]].
  rewrite (Hred Hin).
  destruct (lookup_lt_is_Some_2 data i ltac:(lia)) as [z Hz].
  rewrite Hz. simpl. f_equal. apply toElement_inRange.
  by apply (Forall_lookup_1 _ _ _ _ Hrange Hz).
Qed.

Lemma planar_length_not_multiple_of_3_witness :
  ∃ rgbData,
    _convertColorSpace (colorDataSet "RGB" 1)
      (Integers Uint8Array [1; 2; 3; 4; 5; 6; 7])
      = ret (Integers Uint8Array rgbData) ∧
    length rgbData = 7%nat ∧
    rgbData !! 3%nat = Some 2 ∧ rgbData !! 4%nat = Some 0 ∧
    rgbData !! 5%nat = Some 0.
Proof.
  destruct (planar_length_not_multiple_of_3 (colorDataSet "RGB" 1) "RGB"
              Uint8Array [1; 2; 3; 4; 5; 6; 7] eq_refl
              ltac:(repeat constructor) eq_refl ltac:(repeat constructor))
    as (rgbData & Hout & Hlen & Hpixels).
  { repeat constructor; simpl; lia. }
  { simpl. lia. }
  exists rgbData. split; [exact Hout|]. split; [exact Hlen|].
  destruct (Hpixels 1%nat ltac:(simpl; lia)) as (Hred & Hgreen & Hblue).
  split; [exact Hred|].
  split; [apply Hgreen | apply Hblue]; simpl; lia.
Defined.

(** ** Segmentation *)

Lemma cielabGuard_spec (len : Z) (s : CIELabLoop) :
  cielabGuard (inject_Z len / 2) s = true ↔ 2 * Z.of_nat (cielab_i s) < len.
Proof.
  unfold cielabGuard. rewrite negb_true_iff. unfold Qle_bool. simpl.
  rewrite Z.leb_gt. lia.
Qed.

Lemma cielabBody_invariant byteArray len n j s :
  cielabInvariant byteArray n j s →
  cielabGuard (inject_Z len / 2) s = true →
  (j < Z.to_nat len)%nat ∧
  cielabInvariant byteArray n (S j) (cielabBody byteArray s).
Proof.
  intros (Hi & Hlen & Hdone) Hguard.
  apply cielabGuard_spec in Hguard. rewrite Hi in Hguard.
  split; [lia|].
  unfold cielabInvariant, cielabBody, assignElement. simpl.
  rewrite Hi, length_insert.
  split; [lia|]. split; [done|].
  intros p Hp Hn.
  destruct (decide (p = j)) as [-> | Hne].
  - by rewrite list_lookup_insert_eq by lia.
  - rewrite list_lookup_insert_ne by lia. apply Hdone; lia.
Qed.

Lemma slice_lookup {A} (l : list A) (start len : Z) (k : nat) :
  0 <= start → (Z.of_nat k < len) →
  slice l start (start + len) !! k = l !! (Z.to_nat start + k)%nat.
Proof.
  intros Hstart Hk. unfold slice.
  destruct (start <? 0) eqn:Hneg; [apply Z.ltb_lt in Hneg; lia|].
  destruct (start + len <? 0) eqn:Hneg'; [apply Z.ltb_lt in Hneg'; lia|].
  destruct (decide (Z.to_nat start + k < length l)%nat) as [Hin | Hout].
  - rewrite lookup_take_lt by lia. rewrite lookup_drop. f_equal. lia.
  - rewrite (lookup_ge_None_2 l) by lia.
    apply lookup_ge_None. rewrite length_take, length_drop. lia.
Qed.

Lemma ToInt32_inRange (z : Z) :
  -2147483648 <= z < 2147483648 → ToInt 32 z = z.
Proof. intros Hz. by apply (toElement_inRange Int32Array). Qed.

Lemma shiftLeft_byte (high : Z) :
  0 <= high < 256 → shiftLeft (Some high) 8 = 256 * high.
Proof.
  intros Hbyte. unfold shiftLeft. simpl default.
  change (8 mod 32) with 8.
  rewrite (ToInt32_inRange high) by lia.
  rewrite Z.shiftl_mul_pow2 by lia.
  rewrite ToInt32_inRange by lia. lia.
Qed.

(** X11. [_recommendedDisplayCIELab] returns [null] when the element
    x0062000d is missing. Otherwise it returns exactly three numbers, whatever
    the length of the element is (it throws only for a length of -2 or less).
    For an element of six bytes or more that lies in the buffer, the numbers
    are the first three 16-bit little-endian values v0, v1, v2 of the element
    scaled as v0 / 65535 * 100, v1 / 65535 * 255 - 128 and
    v2 / 65535 * 255 - 128. *)
Theorem recommendedDisplayCIELab_decodes segment :
  (elements segment !! "x0062000d" = None →
   _recommendedDisplayCIELab segment = inr None) ∧
  (∀ element,
     elements segment !! "x0062000d" = Some element →
     -2 < dataLength element →
     ∃ L a b, _recommendedDisplayCIELab segment = inr (Some [L; a; b])) ∧
  (∀ element v0 v1 v2,
     elements segment !! "x0062000d" = Some element →
     0 <= dataOffset element → 6 <= dataLength element →
     Forall (λ byte, 0 <= byte < 256) (byteArray segment) →
     let bytes := drop (Z.to_nat (dataOffset element)) (byteArray segment) in
     littleEndian16 bytes 0 = Some v0 →
     littleEndian16 bytes 1 = Some v1 →
     littleEndian16 bytes 2 = Some v2 →
     _recommendedDisplayCIELab segment =
       inr (Some [ (Z2number v0 / 65535 * 100)%float;
                   (Z2number v1 / 65535 * 255 - 128)%float;
                   (Z2number v2 / 65535 * 255 - 128)%float ])).
Proof.
  split; [|split].
  - intros Hnone. unfold _recommendedDisplayCIELab. by rewrite Hnone.
  - intros element Helement Hlen. unfold _recommendedDisplayCIELab.
    rewrite Helement.
    assert ((dataLength element ÷ 2 <? 0) = false) as ->.
    { apply Z.ltb_ge.
      destruct (Z.le_gt_cases 0 (dataLength element)) as [Hpos | Hneg].
      - by apply Z.quot_pos.
      - assert (dataLength element = -1) as -> by lia. done. }
    by eexists _, _, _.
  - intros element v0 v1 v2 Helement Hoffset Hlen Hbytes bytes Hv0 Hv1 Hv2.
    unfold _recommendedDisplayCIELab. rewrite Helement.
    assert (0 <= dataLength element ÷ 2) as Hquot by (apply Z.quot_pos; lia).
    rewrite (proj2 (Z.ltb_ge _ _) Hquot).
    set (sliced := slice (byteArray segment) (dataOffset element)
                     (dataOffset element + dataLength element)).
    set (n := Z.to_nat (dataLength element ÷ 2)).
    destruct (forLoop_invariant (cielabInvariant sliced n)
                (cielabGuard (inject_Z (dataLength element) / 2))
                (cielabBody sliced) (Z.to_nat (dataLength element))
                (cielabBody_invariant sliced (dataLength element) n)
                (S (Z.to_nat (dataLength element))) 0%nat
                {| CIELabScaled := replicate n 0; cielab_i := 0 |})
      as (j & (Hi & _ & Hdone) & Hguard).
    { unfold cielabInvariant. simpl. rewrite length_replicate.
      repeat split; try done; lia. }
    { lia. }
    assert (¬ (2 * Z.of_nat j < dataLength element)) as Hend.
    { intros Hlt. rewrite <- Hi in Hlt. apply cielabGuard_spec in Hlt.
      congruence. }
    assert (3 <= dataLength element ÷ 2) as Hthree.
    { apply Z.quot_le_lower_bound; lia. }
    assert (∀ p v, (p < 3)%nat → littleEndian16 bytes p = Some v →
              toNumber (CIELabScaled
                (forLoop (S (Z.to_nat (dataLength element)))
                   (cielabGuard (inject_Z (dataLength element) / 2))
                   (cielabBody sliced)
                   {| CIELabScaled := replicate n 0; cielab_i := 0 |}) !! p)
              = Z2number v) as Hread.
    { intros p v Hp Hv. rewrite (Hdone p) by lia.
      unfold littleEndian16 in Hv. subst bytes. rewrite !lookup_drop in Hv.
      destruct (byteArray segment !! (Z.to_nat (dataOffset element) + 2 * p)%nat)
        as [low|] eqn:Hlow; [|done].
      destruct (byteArray segment
                  !! (Z.to_nat (dataOffset element) + (2 * p + 1))%nat)
        as [high|] eqn:Hhigh; [|done].
      cbn [mbind option_bind] in Hv. injection Hv as <-.
      subst sliced. rewrite !slice_lookup by lia. rewrite Hlow, Hhigh.
      pose proof (Forall_lookup_1 _ _ _ _ Hbytes Hlow) as Hl.
      pose proof (Forall_lookup_1 _ _ _ _ Hbytes Hhigh) as Hh.
      simpl in Hl, Hh. cbn [mbind option_bind default].
      rewrite (shiftLeft_byte high Hh).
      rewrite (toElement_inRange Uint16Array) by (simpl; lia).
      simpl. f_equal. lia. }
    by rewrite (Hread 0%nat v0), (Hread 1%nat v1), (Hread 2%nat v2) by
      (done || lia).
Qed.

Lemma recommendedDisplayCIELab_decodes_witness :
  _recommendedDisplayCIELab segmentItem =
    inr (Some [100; -128; 127]%float) ∧
  _recommendedDisplayCIELab emptyDataSet = inr None.
Proof.
  split.
  - rewrite (proj2 (proj2 (recommendedDisplayCIELab_decodes segmentItem))
               (MkElement 2 6 None None None None) 65535 0 65535);
      [reflexivity | reflexivity | simpl; lia | simpl; lia | | reflexivity..].
    repeat constructor; lia.
  - apply (proj1 (recommendedDisplayCIELab_decodes emptyDataSet)).
    reflexivity.
Defined.

Lemma orElse_not_empty (value : option string) (fallback : string) :
  fallback ≠ "" → orElse value fallback ≠ "".
Proof. intros Hfallback. by destruct value as [[|c s]|]. Qed.

Lemma orNull_string_not_empty (value : option string) :
  orNull value ≠ Some "".
Proof. by destruct value as [[|c s]|]. Qed.

Lemma orNull_integer_not_zero (value : option Z) : orNull value ≠ Some 0.
Proof.
  destruct value as [z|]; [|done]. unfold orNull. simpl.
  unfold truthy, integer_truthy.
  destruct (z =? 0) eqn:Hz; simpl; [done|].
  apply Z.eqb_neq in Hz. by intros [= ->].
Qed.

Lemma _segmentationCode_not_empty segment :
  codeDesignator (_segmentationCode segment) ≠ "" ∧
  codeValue (_segmentationCode segment) ≠ "" ∧
  codeMeaning (_segmentationCode segment) ≠ "".
Proof.
  unfold _segmentationCode.
  destruct (elements segment !! "x00082218") as [element|]; [|done].
  destruct (items element) as [[|first rest]|]; [done| |done].
  destruct (dataSet first) as [d|]; [|done]. simpl.
  repeat split; by apply orElse_not_empty.
Qed.

Lemma segmentsOfItems_wellFormed sequenceItems segments :
  segmentsOfItems sequenceItems = inr segments →
  Forall wellFormedSegment segments ∧
  length segments = length (omap dataSet sequenceItems).
Proof.
  revert segments.
  induction sequenceItems as [|item rest IH]; intros segments; simpl.
  - by intros [= <-].
  - destruct (dataSet item) as [d|]; [|apply IH].
    destruct (_recommendedDisplayCIELab d) as [e|lab]; [done|].
    destruct (segmentsOfItems rest) as [e|tail]; [done|].
    intros [= <-]. destruct (IH tail eq_refl) as [Hwf Hlen].
    split; [|simpl; by f_equal].
    constructor; [|done].
    destruct (_segmentationCode_not_empty d) as (Hd & Hv & Hm).
    repeat split; simpl; try done;
      auto using orNull_string_not_empty, orNull_integer_not_zero.
Qed.

(** X12. [segmentationSegments] returns the empty list when the segment
    sequence (x00620002) is missing or has no items. When it returns, there is
    one segment per item that has a data set, and no segment has an empty
    string or a 0 in it: the three code fields are a non-empty string
    ('unknown' when missing or empty), the segment number is [null] or not 0,
    and the label and the algorithm type are [null] or not empty. *)
Theorem segmentationSegments_wellFormed ds :
  (elements ds !! "x00620002" ≫= items = None →
   segmentationSegments ds = inr []) ∧
  (∀ sequenceItems segments,
     elements ds !! "x00620002" ≫= items = Some sequenceItems →
     segmentationSegments ds = inr segments →
     Forall wellFormedSegment segments ∧
     length segments = length (omap dataSet sequenceItems)).
Proof.
  unfold segmentationSegments. split.
  - by intros ->.
  - intros sequenceItems segments ->. apply segmentsOfItems_wellFormed.
Qed.

Lemma segmentationSegments_wellFormed_witness :
  segmentationSegments emptyDataSet = inr [] ∧
  Forall wellFormedSegment
    [ {| recommendedDisplayCIELab := Some [100; -128; 127]%float;
         segmentationCodeDesignator := "SCT";
         segmentationCodeValue := "85756007";
         segmentationCodeMeaning := "unknown";
         segmentNumber := None;
         segmentLabel := None;
         segmentAlgorithmType := Some "MANUAL" |} ].
Proof.
  split.
  - apply (proj1 (segmentationSegments_wellFormed emptyDataSet)).
    reflexivity.
  - apply (proj2 (segmentationSegments_wellFormed segmentation)
             [itemOf segmentItem; MkElement 0 0 None None None None]);
      reflexivity.
Defined.

(** ** Ultrasound regions *)

Lemma _getUnitsName_known value : _getUnitsName value ∈ unitNames.
Proof.
  unfold _getUnitsName, at_index.
  destruct (value <? 0); [repeat constructor|].
  destruct (unitNames !! Z.to_nat value) as [name|] eqn:Hname; simpl.
  - by apply list_elem_of_lookup_2 in Hname.
  - repeat constructor.
Qed.

Lemma _getUnitsName_none value :
  _getUnitsName value = "none" ↔ value <= 0 ∨ 12 < value.
Proof.
  unfold _getUnitsName, at_index. split.
  - intros Hnone.
    destruct (Z.le_gt_cases value 0) as [? | Hpos]; [by left|].
    destruct (Z.le_gt_cases value 12) as [Hle | ?]; [|by right].
    exfalso.
    assert (value = 1 ∨ value = 2 ∨ value = 3 ∨ value = 4 ∨ value = 5 ∨
            value = 6 ∨ value = 7 ∨ value = 8 ∨ value = 9 ∨ value = 10 ∨
            value = 11 ∨ value = 12) as Hcases by lia.
    repeat (destruct Hcases as [-> | Hcases]; [by vm_compute in Hnone|]).
    subst value. by vm_compute in Hnone.
  - intros [Hle | Hgt].
    + destruct (value <? 0) eqn:Hneg; [done|].
      apply Z.ltb_ge in Hneg. by assert (value = 0) as -> by lia.
    + destruct (value <? 0) eqn:Hneg; [done|].
      rewrite (lookup_ge_None_2 unitNames); [done|]. simpl. lia.
Qed.

(** X13. [ultrasoundRegions] returns the empty list when the region
    sequence (x00186011) is missing or has no items, and otherwise one region
    per item that has a data set, in order. The units of every region are two
    of the thirteen unit names; the name is 'none' exactly for the code 0 and
    the codes outside 1..12, and also when the units code is absent. *)
Theorem ultrasoundRegions_units
    (uint32 int32 : DataSet → string → option Z)
    (double : DataSet → string → option float) ds frameIndex :
  (elements ds !! "x00186011" ≫= items = None →
   ultrasoundRegions uint32 int32 double ds frameIndex = []) ∧
  (∀ sequenceItems,
     elements ds !! "x00186011" ≫= items = Some sequenceItems →
     length (ultrasoundRegions uint32 int32 double ds frameIndex)
       = length (omap dataSet sequenceItems) ∧
     unitsX <$> ultrasoundRegions uint32 int32 double ds frameIndex
       = (λ d, _getUnitsName (default 0 (uint16 d !! "x00186024")))
           <$> omap dataSet sequenceItems) ∧
  Forall (λ region, unitsX region ∈ unitNames ∧ unitsY region ∈ unitNames)
    (ultrasoundRegions uint32 int32 double ds frameIndex) ∧
  (∀ value, _getUnitsName value = "none" ↔ value <= 0 ∨ 12 < value).
Proof.
  unfold ultrasoundRegions.
  split; [by intros ->|]. split; [|split; [|apply _getUnitsName_none]].
  - intros sequenceItems ->.
    induction sequenceItems as [|item rest [IHlen IHunits]]; [done|].
    simpl. destruct (dataSet item) as [d|]; simpl; [|done].
    split; [by f_equal | by f_equal].
  - destruct (elements ds !! "x00186011" ≫= items) as [sequenceItems|];
      [|constructor].
    induction sequenceItems as [|item rest IH]; [constructor|].
    simpl. destruct (dataSet item) as [d|]; simpl; [|done].
    constructor; [|done]. simpl. split; apply _getUnitsName_known.
Qed.

Lemma ultrasoundRegions_units_witness :
  unitsX <$> ultrasoundRegions noUint32 noInt32 noDouble ultrasound 0
    = ["cm"; "none"] ∧
  ultrasoundRegions noUint32 noInt32 noDouble emptyDataSet 0 = [].
Proof.
  split.
  - rewrite (proj2 (proj1 (proj2 (ultrasoundRegions_units
               noUint32 noInt32 noDouble ultrasound 0)) _ eq_refl)).
    reflexivity.
  - apply (proj1 (ultrasoundRegions_units
                    noUint32 noInt32 noDouble emptyDataSet 0)).
    reflexivity.
Defined.

(** ** Dimension index values *)

Lemma _findInGroupSequence_itemDataSet ds sequence subsequence index :
  _findInGroupSequence ds sequence subsequence index =
    (frameDataSet ← itemDataSet (elements ds !! sequence) index;
     itemDataSet (elements frameDataSet !! subsequence) 0).
Proof.
  unfold _findInGroupSequence, itemDataSet.
  destruct (elements ds !! sequence) as [fgs|]; [|done]. simpl.
  destruct (items fgs) as [gi|]; [|done]. simpl.
  destruct (at_index gi index ≫= dataSet) as [fd|]; [|done]. simpl.
  destruct (elements fd !! subsequence) as [ins|]; [|done]. simpl.
  by destruct (items ins).
Qed.

Lemma dimensionGuard_spec (len : Z) (s : DimensionLoop) :
  dimensionGuard (inject_Z len / 4) s = true
  ↔ 4 * Z.of_nat (dimension_i s) < len.
Proof.
  unfold dimensionGuard. rewrite negb_true_iff. unfold Qle_bool. simpl.
  rewrite Z.leb_gt. lia.
Qed.

(** The number of passes of the loop: one per started group of 4 bytes. *)
Lemma dimensionGuard_reads (len : Z) (s : DimensionLoop) :
  dimensionGuard (inject_Z len / 4) s = true
  ↔ (dimension_i s < Z.to_nat ((len + 3) / 4))%nat.
Proof.
  rewrite dimensionGuard_spec.
  pose proof (Z.div_mod (len + 3) 4 ltac:(lia)) as Hdiv.
  pose proof (Z.mod_pos_bound (len + 3) 4 ltac:(lia)) as Hbound.
  lia.
Qed.

(** The loop when every read returns. *)
Lemma dimensionLoop_returns uint32At frameContent len values :
  ∀ fuel collected j,
    (j + length values)%nat = Z.to_nat ((len + 3) / 4) →
    (length values < fuel)%nat →
    (∀ i value, values !! i = Some value →
                uint32At frameContent "x00209157" (j + i)%nat = inr value) →
    forLoopThrowing fuel (dimensionGuard (inject_Z len / 4))
      (dimensionBody uint32At frameContent)
      {| dimensionValues := collected; dimension_i := j |}
    = inr {| dimensionValues := collected ++ (default 0 <$> values);
             dimension_i := Z.to_nat ((len + 3) / 4) |}.
Proof.
  induction values as [|value values IH]; intros fuel collected j Hend Hfuel
    Hreads; (destruct fuel as [|fuel]; [simpl in Hfuel; lia|]);
    cbn [forLoopThrowing].
  - destruct (dimensionGuard _ _) eqn:Hguard.
    + apply dimensionGuard_reads in Hguard. simpl in *. lia.
    + simpl in Hend. rewrite app_nil_r. do 2 f_equal. lia.
  - destruct (dimensionGuard _ _) eqn:Hguard.
    + unfold dimensionBody at 1. cbn [dimension_i dimensionValues].
      pose proof (Hreads 0%nat value eq_refl) as Hfirst.
      rewrite Nat.add_0_r in Hfirst. rewrite Hfirst.
      rewrite IH.
      * by rewrite <- app_assoc.
      * simpl in Hend. lia.
      * simpl in Hfuel. lia.
      * intros i v Hi. specialize (Hreads (S i) v Hi).
        by replace (j + 1 + i)%nat with (j + S i)%nat by lia.
    + apply not_true_iff_false in Hguard.
      rewrite dimensionGuard_reads in Hguard. simpl in *. lia.
Qed.

(** The loop when a read throws. *)
Lemma dimensionLoop_throws uint32At frameContent len e :
  ∀ before fuel collected j,
    (j + before < Z.to_nat ((len + 3) / 4))%nat →
    (before < fuel)%nat →
    (∀ i, (i < before)%nat →
          ∃ value, uint32At frameContent "x00209157" (j + i)%nat = inr value) →
    uint32At frameContent "x00209157" (j + before)%nat = inl e →
    forLoopThrowing fuel (dimensionGuard (inject_Z len / 4))
      (dimensionBody uint32At frameContent)
      {| dimensionValues := collected; dimension_i := j |}
    = inl e.
Proof.
  induction before as [|before IH]; intros fuel collected j Hin Hfuel Hreads
    Hthrow; (destruct fuel as [|fuel]; [lia|]); cbn [forLoopThrowing];
    (destruct (dimensionGuard _ _) eqn:Hguard;
     [|apply not_true_iff_false in Hguard;
       rewrite dimensionGuard_reads in Hguard; simpl in *; lia]);
    unfold dimensionBody at 1; cbn [dimension_i dimensionValues].
  - rewrite Nat.add_0_r in Hthrow. by rewrite Hthrow.
  - destruct (Hreads 0%nat ltac:(lia)) as [value Hfirst].
    rewrite Nat.add_0_r in Hfirst. rewrite Hfirst.
    apply IH.
    + lia.
    + lia.
    + intros i Hi. destruct (Hreads (S i) ltac:(lia)) as [v Hv].
      exists v. by replace (j + 1 + i)%nat with (j + S i)%nat by lia.
    + by replace (j + 1 + before)%nat with (j + S before)%nat by lia.
Qed.

(** X14. [dimensionIndexValues] is [null] when the frame content sequence
    (x52009230, item [frameIndex], x00209111, item 0) or its element
    x00209157 is missing. Otherwise it calls the indexed reader once per
    started group of 4 bytes of the element, in order: when every call
    returns, the result holds one value per call, 0 for [undefined]; when a
    call throws, [dimensionIndexValues] throws the same error. For a length
    that is not a multiple of 4 the last call is for a group that starts
    within the element and ends behind it. *)
Theorem dimensionIndexValues_values
    (uint32At : DataSet → string → nat → Result (option Z)) ds frameIndex :
  (_findInGroupSequence ds "x52009230" "x00209111" frameIndex = None →
   dimensionIndexValues uint32At ds frameIndex = inr None) ∧
  (∀ frameContent,
     _findInGroupSequence ds "x52009230" "x00209111" frameIndex
       = Some frameContent →
     elements frameContent !! "x00209157" = None →
     dimensionIndexValues uint32At ds frameIndex = inr None) ∧
  (∀ frameContent element,
     _findInGroupSequence ds "x52009230" "x00209111" frameIndex
       = Some frameContent →
     elements frameContent !! "x00209157" = Some element →
     let calls := Z.to_nat ((dataLength element + 3) / 4) in
     (∀ values,
        length values = calls →
        (∀ i value,
           values !! i = Some value →
           uint32At frameContent "x00209157" i = inr value) →
        dimensionIndexValues uint32At ds frameIndex
          = inr (Some (default 0 <$> values))) ∧
     (∀ k e,
        (k < calls)%nat →
        (∀ i, (i < k)%nat →
              ∃ value, uint32At frameContent "x00209157" i = inr value) →
        uint32At frameContent "x00209157" k = inl e →
        dimensionIndexValues uint32At ds frameIndex = inl e) ∧
     (0 < dataLength element → dataLength element mod 4 ≠ 0 →
      4 * (Z.of_nat calls - 1) < dataLength element < 4 * Z.of_nat calls)).
Proof.
  rewrite _findInGroupSequence_itemDataSet. unfold dimensionIndexValues.
  destruct (itemDataSet (elements ds !! "x52009230") frameIndex)
    as [frameDataSet|]; cbn [mbind option_bind]; [|done].
  destruct (itemDataSet (elements frameDataSet !! "x00209111") 0)
    as [content|]; [|done].
  split; [done|]. split.
  - by intros frameContent [= <-] ->.
  - intros frameContent element [= <-] ->. cbv zeta.
    set (len := dataLength element).
    pose proof (Z.div_mod (len + 3) 4 ltac:(lia)) as Hdiv.
    pose proof (Z.mod_pos_bound (len + 3) 4 ltac:(lia)) as Hbound.
    split; [|split].
    + intros values Hlength Hreads.
      rewrite (dimensionLoop_returns uint32At content len values); [done|..].
      * by rewrite Hlength.
      * lia.
      * done.
    + intros k e Hk Hreads Hthrow.
      rewrite (dimensionLoop_throws uint32At content len e k); [done|..].
      * done.
      * lia.
      * done.
      * done.
    + intros Hpos Hmod.
      pose proof (Z.div_mod len 4 ltac:(lia)) as Hdiv'.
      pose proof (Z.mod_pos_bound len 4 ltac:(lia)) as Hbound'.
      lia.
Qed.

Lemma dimensionIndexValues_values_witness :
  dimensionIndexValues readUint32At (dimensionFrame tenBytes 8) 0
    = inr (Some [10; 20]) ∧
  dimensionIndexValues readUint32At (dimensionFrame tenBytes 10) 0
    = inl (ExternalError
             "dicomParser.readUint32: attempt to read past end of buffer") ∧
  dimensionIndexValues readUint32At (dimensionFrame tenBytesAndMore 10) 0
    = inr (Some [10; 20; 17235998]) ∧
  dimensionIndexValues readUint32At (dimensionFrame tenBytes 10) 1
    = inr None.
Proof.
  split; [|split; [|split]].
  - apply (proj1 (proj2 (proj2 (dimensionIndexValues_values readUint32At
             (dimensionFrame tenBytes 8) 0)) _
             (MkElement 0 8 None None None None) eq_refl eq_refl)
             [Some 10; Some 20]); [reflexivity|].
    intros [|[|i]] value [= <-]; reflexivity.
  - apply (proj1 (proj2 (proj2 (proj2 (dimensionIndexValues_values
             readUint32At (dimensionFrame tenBytes 10) 0)) _
             (MkElement 0 10 None None None None) eq_refl eq_refl))
             2%nat); [vm_compute; lia | | reflexivity].
    intros [|[|i]] Hi; [by eexists.. | lia].
  - apply (proj1 (proj2 (proj2 (dimensionIndexValues_values readUint32At
             (dimensionFrame tenBytesAndMore 10) 0)) _
             (MkElement 0 10 None None None None) eq_refl eq_refl)
             [Some 10; Some 20; Some 17235998]); [reflexivity|].
    intros [|[|[|i]]] value [= <-]; reflexivity.
  - apply (proj1 (dimensionIndexValues_values readUint32At
                    (dimensionFrame tenBytes 10) 1)).
    reflexivity.
Defined.

(** ** Series grouping *)

Section Grouping.
Context {File : Type}.
Variable sort :
  (DicomFile File → DicomFile File → float) →
  list (DicomFile File) → list (DicomFile File).
Implicit Types (seriesMap : list (string * list (DicomFile File)))
  (parsed processed : list (option (string * DicomFile File))).

Lemma pushToSeries_keys seriesMap seriesUID (dicomFile : DicomFile File) :
  (pushToSeries seriesMap seriesUID dicomFile).*1 =
    if decide (seriesUID ∈ seriesMap.*1) then seriesMap.*1
    else seriesMap.*1 ++ [seriesUID].
Proof.
  induction seriesMap as [|[uid files] rest IH].
  - simpl. destruct (decide (seriesUID ∈ [])) as [Hin|]; [|done].
    by apply elem_of_nil in Hin.
  - cbn [pushToSeries].
    destruct (decide (uid = seriesUID)) as [-> | Hne]; cbn [fmap list_fmap fst].
    + destruct (decide (seriesUID ∈ seriesUID :: rest.*1)) as [|Hout];
        [done|].
      destruct Hout. apply list_elem_of_here.
    + change (list_fmap _ _ fst ?l) with (l.*1). rewrite IH.
      destruct (decide (seriesUID ∈ rest.*1)) as [Hin | Hout];
        destruct (decide (seriesUID ∈ uid :: rest.*1)) as [Hin' | Hout'];
        try done.
      * destruct Hout'. by apply list_elem_of_further.
      * apply elem_of_cons in Hin' as [? | ?]; congruence.
Qed.

Lemma pushToSeries_NoDup seriesMap seriesUID (dicomFile : DicomFile File) :
  NoDup seriesMap.*1 → NoDup (pushToSeries seriesMap seriesUID dicomFile).*1.
Proof.
  intros Hnodup. rewrite pushToSeries_keys.
  destruct (decide (seriesUID ∈ seriesMap.*1)); [done|].
  apply NoDup_app. split; [done|]. split.
  - intros uid Hin [-> | []%elem_of_nil]%elem_of_cons. done.
  - apply NoDup_singleton.
Qed.

Lemma pushToSeries_lookup seriesMap seriesUID (dicomFile : DicomFile File)
    uid :
  (list_to_map (pushToSeries seriesMap seriesUID dicomFile)
     : gmap string (list (DicomFile File))) !! uid =
    if decide (uid = seriesUID)
    then Some (default []
                 ((list_to_map seriesMap
                     : gmap string (list (DicomFile File))) !! seriesUID)
               ++ [dicomFile])
    else (list_to_map seriesMap
            : gmap string (list (DicomFile File))) !! uid.
Proof.
  induction seriesMap as [|[key files] rest IH]; simpl.
  - destruct (decide (uid = seriesUID)) as [-> | Hne].
    + by rewrite lookup_insert_eq.
    + by rewrite lookup_insert_ne.
  - destruct (decide (key = seriesUID)) as [-> | Hkey]; simpl.
    + rewrite lookup_insert_eq.
      destruct (decide (uid = seriesUID)) as [-> | Hne].
      * by rewrite lookup_insert_eq.
      * by rewrite !lookup_insert_ne.
    + rewrite (lookup_insert_ne _ key seriesUID) by done.
      destruct (decide (uid = key)) as [-> | Hne].
      * rewrite !lookup_insert_eq. by rewrite decide_False.
      * by rewrite !lookup_insert_ne.
Qed.

Lemma pushToSeries_files seriesMap seriesUID (dicomFile : DicomFile File) :
  concat (pushToSeries seriesMap seriesUID dicomFile).*2
    ≡ₚ concat seriesMap.*2 ++ [dicomFile].
Proof.
  induction seriesMap as [|[key files] rest IH]; simpl; [done|].
  destruct (decide (key = seriesUID)) as [-> | Hkey]; simpl.
  - rewrite <- !app_assoc. apply Permutation_app_head.
    apply Permutation_app_comm.
  - by rewrite IH, app_assoc.
Qed.

Lemma filesOf_app uid processed parsed :
  filesOf uid (processed ++ parsed) = filesOf uid processed ++ filesOf uid parsed.
Proof. apply omap_app. Qed.

Lemma foldl_grouped parsed seriesMap processed :
  groupedBySeries seriesMap processed →
  concat seriesMap.*2 ≡ₚ allFiles processed →
  let final :=
    foldl (λ seriesMap entry,
             match entry with
             | Some (seriesUID, dicomFile) =>
                 pushToSeries seriesMap seriesUID dicomFile
             | None => seriesMap
             end) seriesMap parsed in
  groupedBySeries final (processed ++ parsed) ∧
  concat final.*2 ≡ₚ allFiles (processed ++ parsed).
Proof.
  revert seriesMap processed.
  induction parsed as [|entry parsed IH]; intros seriesMap processed
    [Hnodup Hlookup] Hfiles; simpl.
  - by rewrite app_nil_r.
  - rewrite (cons_middle entry processed parsed), app_assoc.
    apply IH.
    + destruct entry as [[seriesUID dicomFile]|].
      * split; [by apply pushToSeries_NoDup|].
        intros uid. rewrite pushToSeries_lookup, filesOf_app. simpl.
        destruct (decide (uid = seriesUID)) as [-> | Hne].
        -- rewrite Hlookup, decide_True by done.
           by destruct (filesOf seriesUID processed).
        -- rewrite Hlookup, decide_False by done. by rewrite app_nil_r.
      * split; [done|]. intros uid. rewrite filesOf_app. simpl.
        by rewrite app_nil_r.
    + unfold allFiles. rewrite omap_app. simpl.
      destruct entry as [[seriesUID dicomFile]|]; simpl.
      * by rewrite pushToSeries_files, Hfiles.
      * by rewrite app_nil_r.
Qed.

Lemma seriesArray_elem seriesMap (series : Series File) :
  series ∈ seriesArray sort seriesMap ↔
  ∃ files, (seriesInstanceUID series, files) ∈ seriesMap ∧
           dicomFiles series = sortDicomFiles sort files.
Proof.
  unfold seriesArray. rewrite list_elem_of_fmap. split.
  - intros ([uid files] & -> & Hin). by exists files.
  - intros (files & Hin & Hsorted). exists (seriesInstanceUID series, files).
    split; [|done]. destruct series as [uid sorted]. simpl in *. by subst.
Qed.

Lemma seriesArray_keys seriesMap :
  seriesInstanceUID <$> seriesArray sort seriesMap = seriesMap.*1.
Proof.
  unfold seriesArray. rewrite <- list_fmap_compose.
  apply list_fmap_ext. by intros i [uid files] _.
Qed.

Lemma preloader_grouped parsed :
  ∃ seriesMap,
    preloader sort parsed = seriesArray sort seriesMap ∧
    groupedBySeries seriesMap parsed ∧
    concat seriesMap.*2 ≡ₚ allFiles parsed.
Proof.
  eexists. split; [reflexivity|].
  apply (foldl_grouped parsed [] []); [|done].
  split; [constructor|]. intros uid. simpl. apply lookup_empty.
Qed.

(** The entries of the map are the non-empty lists of records of a UID. *)
Lemma groupedBySeries_entry seriesMap parsed uid files :
  groupedBySeries seriesMap parsed →
  (uid, files) ∈ seriesMap ↔ files ≠ [] ∧ files = filesOf uid parsed.
Proof.
  intros [Hnodup Hlookup].
  rewrite (elem_of_list_to_map (M:=gmap string) seriesMap uid files Hnodup).
  rewrite Hlookup. destruct (filesOf uid parsed) as [|f fs].
  - split; [done|]. by intros [Hne ->].
  - split; [by intros [= <-] | by intros [_ ->]].
Qed.

Lemma preloader_keys_NoDup parsed :
  NoDup (seriesInstanceUID <$> preloader sort parsed).
Proof.
  destruct (preloader_grouped parsed) as (seriesMap & -> & [Hnodup _] & _).
  by rewrite seriesArray_keys.
Qed.

Lemma preloader_contains parsed seriesUID dicomFile :
  conformingSort sort →
  Some (seriesUID, dicomFile) ∈ parsed →
  ∃ series, series ∈ preloader sort parsed ∧
            seriesInstanceUID series = seriesUID ∧
            dicomFile ∈ dicomFiles series.
Proof.
  intros Hconforming Hin.
  destruct (preloader_grouped parsed) as (seriesMap & -> & Hgrouped & _).
  assert (dicomFile ∈ filesOf seriesUID parsed) as Hfile.
  { unfold filesOf. apply list_elem_of_omap.
    exists (Some (seriesUID, dicomFile)). split; [done|]. simpl.
    by rewrite decide_True. }
  exists {| seriesInstanceUID := seriesUID;
            dicomFiles := sortDicomFiles sort (filesOf seriesUID parsed) |}.
  split; [|split; [done|]].
  - apply seriesArray_elem. exists (filesOf seriesUID parsed).
    split; [|done]. apply (groupedBySeries_entry _ parsed); [done|].
    split; [|done].
    intros Hempty. rewrite Hempty in Hfile. by apply elem_of_nil in Hfile.
  - simpl. unfold sortDicomFiles.
    by rewrite (proj1 (Hconforming compareDicomFiles _)).
Qed.

(** X15. [preloader] returns one series per series UID: no UID occurs
    twice; the files of a series are what the [sort] of the engine returns
    for the records parsed with that UID, taken in input order: there is at
    least one, they are these records in some order, and in ascending order
    with ties in input order when the comparator is consistent on them; every
    record parsed is in the series of its UID; a file whose parse threw
    contributes nothing. *)
Theorem preloader_one_series_per_uid parsed :
  conformingSort sort →
  NoDup (seriesInstanceUID <$> preloader sort parsed) ∧
  (∀ series : Series File,
     series ∈ preloader sort parsed →
     let records := filesOf (seriesInstanceUID series) parsed in
     records ≠ [] ∧
     dicomFiles series = sortDicomFiles sort records ∧
     dicomFiles series ≡ₚ records ∧
     (consistentComparator compareDicomFiles records = true →
      dicomFiles series = stableSort compareDicomFiles records)) ∧
  (∀ seriesUID dicomFile,
     Some (seriesUID, dicomFile) ∈ parsed →
     ∃ series, series ∈ preloader sort parsed ∧
               seriesInstanceUID series = seriesUID ∧
               dicomFile ∈ dicomFiles series).
Proof.
  intros Hconforming.
  split; [apply preloader_keys_NoDup|]. split.
  - destruct (preloader_grouped parsed) as (seriesMap & -> & Hgrouped & _).
    intros series (files & Hin & Hsorted)%seriesArray_elem records.
    apply (groupedBySeries_entry _ parsed) in Hin as [Hne ->]; [|done].
    fold records in Hsorted, Hne. rewrite Hsorted. unfold sortDicomFiles.
    destruct (Hconforming compareDicomFiles records) as [Hperm Hstable].
    done.
  - intros seriesUID dicomFile. by apply preloader_contains.
Qed.

(** X16. [preloader] neither loses nor duplicates a record: the files of
    all the series together are a rearrangement of the records parsed. *)
Theorem preloader_keeps_every_file parsed :
  conformingSort sort →
  concat (dicomFiles <$> preloader sort parsed) ≡ₚ allFiles parsed.
Proof.
  intros Hconforming.
  destruct (preloader_grouped parsed) as (seriesMap & -> & _ & Hfiles).
  rewrite <- Hfiles. clear Hfiles. unfold seriesArray.
  induction seriesMap as [|[uid files] rest IH]; simpl; [done|].
  rewrite IH. apply Permutation_app_tail.
  unfold sortDicomFiles. apply (Hconforming compareDicomFiles files).
Qed.

End Grouping.

Lemma preloader_one_series_per_uid_witness :
  ∃ series, series ∈ preloader leftInsertionSort
                       [Some ("A", slice3); None;
                        Some ("B", slice2); Some ("A", slice1)] ∧
            seriesInstanceUID series = "A" ∧ slice1 ∈ dicomFiles series.
Proof.
  apply (proj2 (proj2 (preloader_one_series_per_uid leftInsertionSort
                         [Some ("A", slice3); None; Some ("B", slice2);
                          Some ("A", slice1)]
                         leftInsertionSort_conforming))).
  repeat constructor.
Defined.

Lemma preloader_keeps_every_file_witness :
  concat (dicomFiles <$> preloader leftInsertionSort
                           [Some ("A", slice3); None;
                            Some ("B", slice2); Some ("A", slice1)])
    ≡ₚ [slice3; slice2; slice1].
Proof.
  apply (preloader_keeps_every_file leftInsertionSort
           [Some ("A", slice3); None; Some ("B", slice2); Some ("A", slice1)]
           leftInsertionSort_conforming).
Defined.

(** X20. [inStackPositionNumber] walks by hand the path that
    [_findInGroupSequence] walks for the per-frame sequence x52009230 and the
    frame content sequence x00209111: it is the unsigned integer x00209057 of
    that data set, and [null] whenever the path is broken. The shared
    functional group and the root are never consulted. *)
Theorem inStackPositionNumber_frame_content
    (uint32 : DataSet → string → option Z) ds frameIndex :
  inStackPositionNumber uint32 ds frameIndex =
    (frameContent ←
       _findInGroupSequence ds "x52009230" "x00209111" frameIndex;
     uint32 frameContent "x00209057").
Proof.
  rewrite _findInGroupSequence_itemDataSet. unfold inStackPositionNumber.
  destruct (itemDataSet (elements ds !! "x52009230") frameIndex)
    as [frameDataSet|]; [|done]. simpl.
  by destruct (itemDataSet (elements frameDataSet !! "x00209111") 0).
Qed.

(** ** Records made from parsed files *)

Lemma length_split separator s :
  length (split separator s) = S (occurrences separator s).
Proof.
  induction s as [|c rest IH]; simpl; [done|].
  destruct (Ascii.eqb c separator); simpl; [by rewrite IH|].
  destruct (split separator rest) as [|piece pieces]; [done|]. exact IH.
Qed.

Lemma NoDup_fmap_eq {A B : Type} (f : A → B) (l : list A) x y :
  NoDup (f <$> l) → x ∈ l → y ∈ l → f x = f y → x = y.
Proof.
  induction l as [|a l IH]; intros Hnodup Hx Hy Heq.
  - by apply elem_of_nil in Hx.
  - rewrite fmap_cons in Hnodup. apply NoDup_cons in Hnodup as [Hout Hnodup].
    apply elem_of_cons in Hx as [-> | Hx], Hy as [-> | Hy]; [done | | |].
    + destruct Hout. rewrite Heq. by apply list_elem_of_fmap_2.
    + destruct Hout. rewrite <- Heq. by apply list_elem_of_fmap_2.
    + by apply IH.
Qed.

(** X17. A file that parses is filed under its series UID, and under
    'unknown' when the series UID is missing or empty; as no two series of
    the result have the same UID, all such files share one series. Its SOP
    instance UID is never empty ('unknown' instead). Its [imagePositionZ] is
    the third component of the image position, and undefined when the
    position is missing or has fewer than two backslashes. *)
Theorem records_of_parsed_files {File : Type}
    (sort : (DicomFile File → DicomFile File → float) →
            list (DicomFile File) → list (DicomFile File))
    (parseDicom : File → Result DataSet) (parseFloat : string → float)
    (files : list File) file dataSet :
  conformingSort sort →
  file ∈ files → parseDicom file = inr dataSet →
  let record := (dicomFileOf parseFloat file dataSet).2 in
  let result := preloaderFromFiles sort parseDicom parseFloat files in
  (∃ series, series ∈ result ∧
             seriesInstanceUID series
               = orElse (string_ dataSet !! "x0020000e") "unknown" ∧
             record ∈ dicomFiles series) ∧
  (absentOrEmpty (string_ dataSet !! "x0020000e") →
   ∃ series, series ∈ result ∧
             seriesInstanceUID series = "unknown" ∧
             record ∈ dicomFiles series) ∧
  (∀ series1 series2,
     series1 ∈ result → series2 ∈ result →
     seriesInstanceUID series1 = seriesInstanceUID series2 →
     series1 = series2) ∧
  SOPInstanceUID record ≠ "" ∧
  (is_Some (imagePositionZ record) ↔
   ∃ position, string_ dataSet !! "x00200032" = Some position ∧
               (2 <= occurrences backslash position)%nat).
Proof.
  intros Hconforming Hfile Hparsed record result.
  assert (∃ series,
            series ∈ result ∧
            seriesInstanceUID series
              = orElse (string_ dataSet !! "x0020000e") "unknown" ∧
            record ∈ dicomFiles series) as Hseries.
  { apply preloader_contains; [done|]. unfold readFiles.
    apply list_elem_of_fmap. exists file. by rewrite Hparsed. }
  split; [done|]. split; [|split; [|split]].
  - intros Habsent.
    destruct Hseries as (series & Hin & Huid & Hrecord).
    exists series. split; [done|]. split; [|done].
    rewrite Huid. by destruct Habsent as [-> | ->].
  - intros series1 series2. apply NoDup_fmap_eq, preloader_keys_NoDup.
  - subst record. simpl. by apply orElse_not_empty.
  - subst record. simpl.
    destruct (string_ dataSet !! "x00200032") as [position|]; simpl.
    + rewrite list_lookup_fmap, fmap_is_Some, lookup_lt_is_Some,
        length_split.
      split.
      * intros Hlen. exists position. split; [done | lia].
      * intros (p & [= <-] & Hlen). lia.
    + split; [by intros [? ?] | by intros (p & ? & _)].
Qed.

Lemma records_of_parsed_files_witness :
  ∃ series,
    series ∈ preloaderFromFiles leftInsertionSort parseSample parseFloatStub
               ["a1"; "broken"; "empty"; "bare"] ∧
    seriesInstanceUID series = "unknown" ∧
    (dicomFileOf parseFloatStub "bare" emptyDataSet).2 ∈ dicomFiles series.
Proof.
  apply (proj1 (proj2 (records_of_parsed_files leftInsertionSort parseSample
                         parseFloatStub ["a1"; "broken"; "empty"; "bare"]
                         "bare" emptyDataSet leftInsertionSort_conforming
                         ltac:(repeat constructor) eq_refl))).
  left. reflexivity.
Defined.

(** For every engine, the two files without a usable series UID share the
    series 'unknown', in their input order; the broken file is in none. *)
Example preloaderFromFiles_unknown
    (sort : (DicomFile string → DicomFile string → float) →
            list (DicomFile string) → list (DicomFile string)) :
  conformingSort sort →
  (λ series, (seriesInstanceUID series, file <$> dicomFiles series))
    <$> preloaderFromFiles sort parseSample parseFloatStub
          ["a1"; "broken"; "empty"; "bare"]
  = [("A", ["a1"]); ("unknown", ["empty"; "bare"])].
Proof.
  intros Hconforming.
  change (preloaderFromFiles sort parseSample parseFloatStub _)
    with (seriesArray sort
            [("A", [(dicomFileOf parseFloatStub "a1"
                       (withStrings {[ "x0020000e" := "A" ]})).2]);
             ("unknown",
              [(dicomFileOf parseFloatStub "empty"
                  (withStrings {[ "x0020000e" := "" ]})).2;
               (dicomFileOf parseFloatStub "bare" emptyDataSet).2])]).
  unfold seriesArray, sortDicomFiles. cbn [map fmap list_fmap].
  rewrite !(proj2 (Hconforming compareDicomFiles _)) by reflexivity.
  reflexivity.
Qed.

(** ** Geometry accessors *)

Lemma truthy_string (v : string) : v ≠ "" → truthy v = true.
Proof. by destruct v. Qed.

(** X18. [imageOrientation] and [imagePosition] are [null] exactly when the
    resolver finds nothing or the empty string. Otherwise they return one
    number per backslash-separated component of the string found, one more
    than it has backslashes: the list is never empty, and the number of
    components (six and three are expected) is not checked. *)
Theorem orientation_and_position_components
    (parseFloat : string → float) ds frameIndex :
  (imageOrientation parseFloat ds frameIndex = None ↔
   absentOrEmpty
     (_findStringEverywhere ds "x00209116" "x00200037" frameIndex)) ∧
  (∀ value, _findStringEverywhere ds "x00209116" "x00200037" frameIndex
              = Some value → value ≠ "" →
     ∃ numbers, imageOrientation parseFloat ds frameIndex = Some numbers ∧
                length numbers = S (occurrences backslash value)) ∧
  (imagePosition parseFloat ds frameIndex = None ↔
   absentOrEmpty
     (_findStringEverywhere ds "x00209113" "x00200032" frameIndex)) ∧
  (∀ value, _findStringEverywhere ds "x00209113" "x00200032" frameIndex
              = Some value → value ≠ "" →
     ∃ numbers, imagePosition parseFloat ds frameIndex = Some numbers ∧
                length numbers = S (occurrences backslash value)).
Proof.
  assert (∀ found : option string,
            (match found with
             | Some value =>
                 if truthy value
                 then Some (parseFloat <$> split backslash value)
                 else None
             | None => None
             end = None ↔ absentOrEmpty found) ∧
            (∀ value, found = Some value → value ≠ "" →
               ∃ numbers,
                 match found with
                 | Some value =>
                     if truthy value
                     then Some (parseFloat <$> split backslash value)
                     else None
                 | None => None
                 end = Some numbers ∧
                 length numbers = S (occurrences backslash value)))
    as Hparse.
  { intros [value|].
    - destruct (decide (value = "")) as [-> | Hne].
      + split; [split; [by right | done]|]. by intros value [= <-].
      + rewrite (truthy_string value Hne).
        split; [split; [done | by intros [? | [= ?]]]|].
        intros ? [= <-] _. eexists. split; [done|].
        by rewrite length_fmap, length_split.
    - split; [split; [by left | done]|]. by intros value. }
  unfold imageOrientation, imagePosition.
  split; [apply Hparse|]. split; [apply Hparse|].
  split; apply Hparse.
Qed.

Lemma orientation_and_position_components_witness :
  ∃ numbers,
    imageOrientation parseFloatStub
      (withStrings {[ "x00200037" := "1\0\0\0\1" ]}) 0 = Some numbers ∧
    length numbers = 5%nat.
Proof.
  apply (proj1 (proj2 (orientation_and_position_components parseFloatStub
                         (withStrings {[ "x00200037" := "1\0\0\0\1" ]}) 0))
           "1\0\0\0\1"); [reflexivity | discriminate].
Defined.

(** X19. [pixelSpacing] takes the string of the resolver and, when that is
    missing or empty, the string of the tag x00181164 on the root. It returns
    two numbers exactly when the string taken has exactly one backslash,
    silently [null] when no non-empty string is found, and [null] with an
    error on the console when a string is found that does not split in
    two. *)
Theorem pixelSpacing_two_components
    (parseFloat : string → float) ds frameIndex :
  let value1 := _findStringEverywhere ds "x00289110" "x00280030" frameIndex in
  let value2 := string_ ds !! "x00181164" in
  let taken := if toBoolean value1 then value1 else value2 in
  (absentOrEmpty taken → pixelSpacing parseFloat ds frameIndex = ([], None)) ∧
  (∀ value, taken = Some value → value ≠ "" →
     occurrences backslash value = 1%nat →
     ∃ first second,
       pixelSpacing parseFloat ds frameIndex = ([], Some [first; second])) ∧
  (∀ value, taken = Some value → value ≠ "" →
     occurrences backslash value ≠ 1%nat →
     pixelSpacing parseFloat ds frameIndex
       = ([spacingNotSupported value], None)) ∧
  (∀ numbers, (pixelSpacing parseFloat ds frameIndex).2 = Some numbers →
              length numbers = 2%nat).
Proof.
  intros value1 value2 taken.
  assert (pixelSpacing parseFloat ds frameIndex =
            match taken with
            | Some value =>
                if truthy value then
                  if negb (Nat.eqb (length (split backslash value)) 2)
                  then ([spacingNotSupported value], None)
                  else ([], Some (parseFloat <$> split backslash value))
                else ([], None)
            | None => ([], None)
            end) as ->.
  { unfold pixelSpacing. fold value1 value2. subst taken.
    destruct (toBoolean value1) eqn:H1; [done|].
    destruct value2 as [[|c v]|]; done. }
  assert (∀ value, negb (Nat.eqb (length (split backslash value)) 2) = false
                   ↔ occurrences backslash value = 1%nat) as Htwo.
  { intros value. rewrite negb_false_iff, Nat.eqb_eq, length_split. lia. }
  split; [by intros [-> | ->]|]. split; [|split].
  - intros value -> Hne Hone.
    rewrite (truthy_string value Hne), (proj2 (Htwo value) Hone).
    assert (length (parseFloat <$> split backslash value) = 2%nat) as Hlen.
    { rewrite length_fmap, length_split. lia. }
    destruct (parseFloat <$> split backslash value)
      as [|first [|second [|third rest]]]; try done.
    by exists first, second.
  - intros value -> Hne Hnot.
    rewrite (truthy_string value Hne).
    destruct (negb (Nat.eqb (length (split backslash value)) 2)) eqn:Hlen;
      [done|].
    by apply Htwo in Hlen.
  - intros numbers. destruct taken as [value|]; [|done].
    destruct (truthy value); [|done].
    destruct (negb (Nat.eqb (length (split backslash value)) 2)) eqn:Hlen;
      [done|].
    simpl. intros [= <-]. apply Htwo in Hlen.
    rewrite length_fmap, length_split. lia.
Qed.

Lemma pixelSpacing_two_components_witness :
  (∃ first second,
     pixelSpacing parseFloatStub
       (withStrings {[ "x00181164" := "0.5\0.5" ]}) 0
       = ([], Some [first; second])) ∧
  pixelSpacing parseFloatStub (withStrings {[ "x00280030" := "0.5" ]}) 0
    = ([spacingNotSupported "0.5"], None).
Proof.
  split.
  - apply (proj1 (proj2 (pixelSpacing_two_components parseFloatStub
                           (withStrings {[ "x00181164" := "0.5\0.5" ]}) 0))
             "0.5\0.5"); [reflexivity | discriminate | reflexivity].
  - apply (proj1 (proj2 (proj2 (pixelSpacing_two_components parseFloatStub
                                  (withStrings {[ "x00280030" := "0.5" ]})
                                  0))) "0.5");
      [reflexivity | discriminate | vm_compute; discriminate].
Defined.
